(** * Chef-Genie: the quantity scaler, the generation orchestrator, the
      cookbook and the recipe page, embedded from the TypeScript sources.

    - [src/components/RecipeResult.tsx]: [isStructuredIngredients],
      [getScaledQuantity] (with its inner [formatNumber]),
      [formatIngredientText], [canScale], [updateServings], the cook-mode
      and slideshow handlers, [handleGenerateVideo], [getShareContent] and
      [handleSocialShare];
    - the service file ([generateRecipe], [generateDishImage],
      [generateRecipeVideo]);
    - the application component ([handleGenerate], [handleToggleFavorite],
      [handleRateRecipe], [removeFavorite], [selectFavorite], [reset] and
      the navigation);
    - [src/components/RecipeForm.tsx]: the handlers of the two lists;
    - [src/components/FavoritesList.tsx]: the stars of a card.

    JavaScript strings are modelled as [string] holding their UTF-8 bytes
    (the five fraction glyphs take two or three bytes each). JavaScript
    numbers are IEEE 754 binary64 values: [spec_float] with the operations
    of [SpecFloat] at precision 53 and maximal exponent 1024. *)

From Stdlib Require Import ZArith NArith String Ascii List Bool Lia SpecFloat.
From Stdlib Require Import Reals Lra Psatz.
Import ListNotations.

(* ================================================================== *)
(** ** The string primitives used by the sources *)
(* ================================================================== *)

Module JSString.

Definition code (c : ascii) : N := N_of_ascii c.

(** [prefix_rest p s] is [Some r] when [s = p ++ r]. *)
Fixpoint prefix_rest (p s : string) : option string :=
  match p, s with
  | EmptyString, _ => Some s
  | String a p', String b s' =>
      if Ascii.eqb a b then prefix_rest p' s' else None
  | String _ _, EmptyString => None
  end.

(** [String.prototype.includes]. *)
Fixpoint includes (s pat : string) : bool :=
  match prefix_rest pat s with
  | Some _ => true
  | None =>
      match s with
      | EmptyString => false
      | String _ s' => includes s' pat
      end
  end.

(** [String.prototype.split] with a separator of one character, the only
    use the sources make of it. *)
Fixpoint split (sep : ascii) (s : string) : list string :=
  match s with
  | EmptyString => [EmptyString]
  | String c s' =>
      if Ascii.eqb c sep then EmptyString :: split sep s'
      else match split sep s' with
           | [] => [String c EmptyString]
           | p :: ps => String c p :: ps
           end
  end.

(** [String.prototype.replace] with a string pattern: the first occurrence
    only. *)
Fixpoint replace (pat rep s : string) : string :=
  match prefix_rest pat s with
  | Some rest => rep ++ rest
  | None =>
      match s with
      | EmptyString => EmptyString
      | String c s' => String c (replace pat rep s')
      end
  end.

(** White space and line terminators of ECMAScript, by their UTF-8
    encodings: U+0009..U+000D and U+0020 on one byte; U+00A0 on two;
    U+1680, U+2000..U+200A, U+2028, U+2029, U+202F, U+205F, U+3000 and
    U+FEFF on three. *)
Definition ws1 (c : ascii) : bool :=
  ((9 <=? code c) && (code c <=? 13) || (code c =? 32))%N.

Definition ws2 (c1 c2 : ascii) : bool :=
  ((code c1 =? 194) && (code c2 =? 160))%N.

Definition ws3 (c1 c2 c3 : ascii) : bool :=
  ((code c1 =? 225) && (code c2 =? 154) && (code c3 =? 128)
   || (code c1 =? 226) && (code c2 =? 128)
      && ((128 <=? code c3) && (code c3 <=? 138)
          || (code c3 =? 168) || (code c3 =? 169) || (code c3 =? 175))
   || (code c1 =? 226) && (code c2 =? 129) && (code c3 =? 159)
   || (code c1 =? 227) && (code c2 =? 128) && (code c3 =? 128)
   || (code c1 =? 239) && (code c2 =? 187) && (code c3 =? 191))%N.

(** Strips leading white space; [fwd] tells whether the bytes come in
    reading order or reversed (for the end of the string). *)
Fixpoint strip (fwd : bool) (s : string) : string :=
  match s with
  | EmptyString => s
  | String c1 r1 =>
      if ws1 c1 then strip fwd r1
      else
        match r1 with
        | EmptyString => s
        | String c2 r2 =>
            if (if fwd then ws2 c1 c2 else ws2 c2 c1) then strip fwd r2
            else
              match r2 with
              | EmptyString => s
              | String c3 r3 =>
                  if (if fwd then ws3 c1 c2 c3 else ws3 c3 c2 c1)
                  then strip fwd r3
                  else s
              end
        end
  end.

Definition rev (s : string) : string :=
  string_of_list_ascii (List.rev (list_ascii_of_string s)).

Definition trimStart (s : string) : string := strip true s.
Definition trimEnd (s : string) : string := rev (strip false (rev s)).

(** [String.prototype.trim]. *)
Definition trim (s : string) : string := trimEnd (trimStart s).

(** [Array.prototype.join] on strings. *)
Fixpoint join (sep : string) (l : list string) : string :=
  match l with
  | [] => EmptyString
  | [x] => x
  | x :: rest => x ++ sep ++ join sep rest
  end.

(** Truthiness of a string: non-empty. *)
Definition truthy (s : string) : bool :=
  match s with EmptyString => false | _ => true end.

(** Decimal digits. *)
Definition is_digit (c : ascii) : bool :=
  ((48 <=? code c) && (code c <=? 57))%N.

Definition digit_val (c : ascii) : N := (code c - 48)%N.

Definition digit_char (d : N) : ascii := ascii_of_N (48 + d).

(** The longest run of digits at the front, and what follows it. *)
Fixpoint span_digits (s : string) : string * string :=
  match s with
  | EmptyString => (EmptyString, EmptyString)
  | String c r =>
      if is_digit c
      then let (d, rest) := span_digits r in (String c d, rest)
      else (EmptyString, s)
  end.

Fixpoint digits_value_from (acc : N) (d : string) : N :=
  match d with
  | EmptyString => acc
  | String c r => digits_value_from (10 * acc + digit_val c)%N r
  end.

Definition digits_value (d : string) : N := digits_value_from 0%N d.

Fixpoint digits_fuel (fuel : nat) (n : N) (acc : string) : string :=
  match fuel with
  | O => acc
  | S f =>
      let acc' := String (digit_char (n mod 10)%N) acc in
      if (n / 10 =? 0)%N then acc' else digits_fuel f (n / 10)%N acc'
  end.

(** The decimal digits of a natural number, without leading zeros
    (["0"] for zero). *)
Definition of_N (n : N) : string :=
  digits_fuel (S (N.to_nat (N.log2 n))) n EmptyString.

(** The decimal string of an integer, as [String(z)] gives it. *)
Definition of_Z (z : Z) : string :=
  match z with
  | Z0 => "0"%string
  | Zpos p => of_N (Npos p)
  | Zneg p => String "-"%char (of_N (Npos p))
  end.

Fixpoint repeat0 (n : nat) : string :=
  match n with
  | O => EmptyString
  | S k => String "0"%char (repeat0 k)
  end.

End JSString.

(* ================================================================== *)
(** ** JavaScript numbers: IEEE 754 binary64 *)
(* ================================================================== *)

(** What a JavaScript operation can throw: an error object with its
    constructor's name and its message. *)
Inductive error_name : Type := PlainError | RangeError | TypeError | SyntaxError.

Record js_error : Type := mkError { name : error_name; message : string }.

(** The outcome of an evaluation that may throw. *)
Inductive completion (A : Type) : Type :=
| Normal (a : A)
| Throw (e : js_error).

Arguments Normal {A} a.
Arguments Throw {A} e.

Module JSNumber.

Definition number : Type := spec_float.

Definition prec : Z := 53.
Definition emax : Z := 1024.

Definition NaN : number := S754_nan.
Definition Infinity (neg : bool) : number := S754_infinity neg.

Definition isNaN (x : number) : bool :=
  match x with S754_nan => true | _ => false end.

Definition isFinite (x : number) : bool :=
  match x with S754_nan | S754_infinity _ => false | _ => true end.

(** [x * y], [x / y], [x - y], [Math.abs], [x < y], [x === y]. *)
Definition mul (x y : number) : number := SFmul prec emax x y.
Definition div (x y : number) : number := SFdiv prec emax x y.
Definition sub (x y : number) : number := SFsub prec emax x y.
Definition abs (x : number) : number := SFabs x.
Definition ltb (x y : number) : bool := SFltb x y.
Definition strict_eq (x y : number) : bool := SFeqb x y.

(** The number nearest to an integer (exact below 2^53). *)
Definition of_Z (z : Z) : number := binary_normalize prec emax z 0 false.

(** The number nearest to [a / b], ties to even: one division, one
    rounding. *)
Definition round_div (neg : bool) (a b : positive) : number :=
  let '(mz, ez, lz) := SFdiv_core_binary prec emax (Zpos a) 0 (Zpos b) 0 in
  binary_round_aux prec emax neg mz ez lz.

(** The number nearest to [m * 10 ^ e]: the value of a decimal literal. *)
Definition of_decimal (neg : bool) (m : N) (e : Z) : number :=
  match m with
  | N0 => S754_zero neg
  | Npos p =>
      match e with
      | Z0 => binary_round prec emax neg p 0
      | Zpos k => binary_round prec emax neg (p * Pos.pow 10 k) 0
      | Zneg k => round_div neg p (Pos.pow 10 k)
      end
  end.

(** [Math.floor]. *)
Definition floor (x : number) : number :=
  match x with
  | S754_finite s m (Zneg p) =>
      let d := Z.pow_pos 2 p in
      if (Zpos m mod d =? 0)%Z then x
      else if s then of_Z (- (Zpos m / d + 1)) else of_Z (Zpos m / d)
  | _ => x
  end.

(** The magnitude of a finite number as a fraction of integers. *)
Definition mag_num (m : positive) (e : Z) : Z :=
  match e with Zpos p => Zpos m * Z.pow_pos 2 p | _ => Zpos m end%Z.

Definition mag_den (e : Z) : Z :=
  match e with Zneg p => Z.pow_pos 2 p | _ => 1 end%Z.

(** *** [parseFloat] *)

Import JSString.

(** An exponent part: [e] or [E], an optional sign, at least one digit.
    Without one the exponent is 0 and nothing is consumed. *)
Definition exponent_part (s : string) : Z :=
  match s with
  | String c r =>
      if ((code c =? 101) || (code c =? 69))%N then
        let '(neg, r') :=
          match r with
          | String c' r'' =>
              if (code c' =? 45)%N then (true, r'')
              else if (code c' =? 43)%N then (false, r'')
              else (false, r)
          | EmptyString => (false, r)
          end in
        let (d, _) := span_digits r' in
        match d with
        | EmptyString => 0%Z
        | _ => if neg then (- Z.of_N (digits_value d))%Z
               else Z.of_N (digits_value d)
        end
      else 0%Z
  | EmptyString => 0%Z
  end.

(** [parseFloat]: leading white space is skipped, then the longest prefix
    that reads as a decimal literal (sign, [Infinity] or digits with an
    optional fraction and exponent) gives the value; [NaN] when there is
    none. What follows the prefix is ignored. *)
Definition parseFloat (input : string) : number :=
  let t := trimStart input in
  let '(neg, t1) :=
    match t with
    | String c r =>
        if (code c =? 45)%N then (true, r)
        else if (code c =? 43)%N then (false, r)
        else (false, t)
    | EmptyString => (false, t)
    end in
  match prefix_rest "Infinity" t1 with
  | Some _ => Infinity neg
  | None =>
      let (ip, t2) := span_digits t1 in
      let '(fp, t3) :=
        match t2 with
        | String c r =>
            if (code c =? 46)%N then span_digits r else (EmptyString, t2)
        | EmptyString => (EmptyString, t2)
        end in
      match (ip ++ fp)%string with
      | EmptyString => NaN
      | ds =>
          of_decimal neg (digits_value ds)
            (exponent_part t3 - Z.of_nat (String.length fp))
      end
  end.

(** *** [Number.prototype.toString] (radix 10) *)

(** Structural equality; on the canonical values the operations return it
    is the identity of the number. *)
Definition same (x y : number) : bool :=
  match x, y with
  | S754_finite s m e, S754_finite s' m' e' =>
      Bool.eqb s s' && (m =? m')%positive && (e =? e')%Z
  | S754_zero s, S754_zero s' => Bool.eqb s s'
  | S754_infinity s, S754_infinity s' => Bool.eqb s s'
  | S754_nan, S754_nan => true
  | _, _ => false
  end.

Fixpoint first_ge (fuel : nat) (a b j : Z) : Z :=
  match fuel with
  | O => j
  | S f => if (b <=? a * 10)%Z then j else first_ge f (a * 10)%Z b (j + 1)%Z
  end.

(** The decimal order [n] of [a / b > 0]: [10^(n-1) <= a / b < 10^n]. *)
Definition decimal_order (a b : Z) : Z :=
  if (b <=? a)%Z then Z.of_nat (String.length (JSString.of_N (Z.to_N (a / b))))
  else (1 - first_ge 400 a b 1)%Z.

(** The shortest digits that read back as [x = a / b]: with [k] digits,
    the integers on both sides of [x / 10^(n-k)] are tried, the nearer
    first, the even one on a tie. *)
Fixpoint shortest_digits (fuel : nat) (x : number) (a b n k : Z) : Z * Z :=
  let sh := (n - k)%Z in
  let p := match sh with Zneg q => (a * Z.pow_pos 10 q)%Z | _ => a end in
  let q := match sh with Zpos q => (b * Z.pow_pos 10 q)%Z | _ => b end in
  let lo := (p / q)%Z in
  let r := (p mod q)%Z in
  let hi := (lo + 1)%Z in
  let ok s := same (of_decimal false (Z.to_N s) sh) x in
  match fuel with
  | O => (lo, k)
  | S f =>
      if ok lo && ok hi then
        if (2 * r <? q)%Z then (lo, k)
        else if (q <? 2 * r)%Z then (hi, k)
        else if Z.even lo then (lo, k) else (hi, k)
      else if ok lo then (lo, k)
      else if ok hi then (hi, k)
      else shortest_digits f x a b n (k + 1)%Z
  end.

Definition shortest_string (x : number) (a b : Z) : string :=
  let n0 := decimal_order a b in
  let '(s0, k) := shortest_digits 17 x a b n0 1 in
  let '(s, n) :=
    if (s0 =? 10 ^ k)%Z then ((s0 / 10)%Z, (n0 + 1)%Z) else (s0, n0) in
  let d := JSString.of_N (Z.to_N s) in
  if ((-5 <=? n) && (n <=? 21))%Z then
    if (k <=? n)%Z then (d ++ JSString.repeat0 (Z.to_nat (n - k)))%string
    else if (0 <? n)%Z then
      (String.substring 0 (Z.to_nat n) d ++ "."
       ++ String.substring (Z.to_nat n) (Z.to_nat (k - n)) d)%string
    else ("0." ++ JSString.repeat0 (Z.to_nat (- n)) ++ d)%string
  else
    let e := (n - 1)%Z in
    let es := ((if (0 <=? e)%Z then "e+" else "e-")
               ++ JSString.of_N (Z.to_N (Z.abs e)))%string in
    if (k =? 1)%Z then (d ++ es)%string
    else (String.substring 0 1 d ++ "."
          ++ String.substring 1 (Z.to_nat (k - 1)) d ++ es)%string.

(** The string of [x = a / b > 0]. An integer below 2^53 prints as its
    digits (they are the shortest that read back, followed by the zeros the
    integer ends with); any other value by [shortest_string]. *)
Definition toString_pos (x : number) (a b : Z) : string :=
  if ((a mod b =? 0) && (a / b <? 2 ^ 53))%Z then JSString.of_N (Z.to_N (a / b))
  else shortest_string x a b.

Definition toString (x : number) : string :=
  match x with
  | S754_nan => "NaN"
  | S754_zero _ => "0"
  | S754_infinity neg => if neg then "-Infinity" else "Infinity"
  | S754_finite neg m e =>
      ((if neg then "-" else "")
       ++ toString_pos (S754_finite false m e) (mag_num m e) (mag_den e))%string
  end.

(** *** [Number.prototype.toFixed] *)

(** [n / 10^f] is as close to [a / b] as possible, the larger [n] on a
    tie. *)
Definition nearest_fixed (a b f : Z) : Z :=
  ((2 * a * 10 ^ f + b) / (2 * b))%Z.

Definition fixed_digits (n f : Z) : string :=
  let m := JSString.of_N (Z.to_N n) in
  if (f =? 0)%Z then m
  else
    let k := Z.of_nat (String.length m) in
    let m' := if (k <=? f)%Z
              then (JSString.repeat0 (Z.to_nat (f + 1 - k)) ++ m)%string
              else m in
    let k' := if (k <=? f)%Z then (f + 1)%Z else k in
    (String.substring 0 (Z.to_nat (k' - f)) m' ++ "."
     ++ String.substring (Z.to_nat (k' - f)) (Z.to_nat f) m')%string.

Definition toFixed (fractionDigits : Z) (x : number) : completion string :=
  if ((fractionDigits <? 0) || (100 <? fractionDigits))%Z
  then Throw (mkError RangeError
                "toFixed() digits argument must be between 0 and 100")
  else
    match x with
    | S754_nan | S754_infinity _ => Normal (toString x)
    | S754_zero _ => Normal (fixed_digits 0 fractionDigits)
    | S754_finite neg m e =>
        let a := mag_num m e in
        let b := mag_den e in
        if (10 ^ 21 * b <=? a)%Z then Normal (toString x)
        else
          Normal ((if neg then "-" else "")
                  ++ fixed_digits (nearest_fixed a b fractionDigits)
                       fractionDigits)%string
    end.

End JSNumber.

(* ================================================================== *)
(** ** The quantity scaler ([RecipeResult.tsx]) *)
(* ================================================================== *)

Import JSString JSNumber.
Local Open Scope string_scope.

Definition bind {A B : Type} (c : completion A) (k : A -> completion B)
  : completion B :=
  match c with
  | Normal a => k a
  | Throw e => Throw e
  end.

Notation "x <- c ;; k" := (bind c (fun x => k))
  (at level 61, c at next level, right associativity).

(** A decimal literal of the source: [lit m e] is the number the literal
    [m * 10^e] denotes. *)
Definition lit (m : N) (e : Z) : number := of_decimal false m e.

Definition zero : number := S754_zero false.

(** [Math.floor(num) > 0 ? Math.floor(num) + ' ' : ''] *)
Definition whole_prefix (num : number) : string :=
  if ltb zero (floor num) then toString (floor num) ++ " " else "".

(** [formatNumber], the helper inside [getScaledQuantity]. *)
Definition formatNumber (num : number) : completion string :=
  let decimal := sub num (floor num) in
  if ltb decimal (lit 1 (-2)) then Normal (toString (floor num))
  else if ltb (abs (sub decimal (lit 25 (-2)))) (lit 5 (-2))
  then Normal (whole_prefix num ++ "¼")
  else if ltb (abs (sub decimal (lit 33 (-2)))) (lit 5 (-2))
  then Normal (whole_prefix num ++ "⅓")
  else if ltb (abs (sub decimal (lit 5 (-1)))) (lit 5 (-2))
  then Normal (whole_prefix num ++ "½")
  else if ltb (abs (sub decimal (lit 66 (-2)))) (lit 5 (-2))
  then Normal (whole_prefix num ++ "⅔")
  else if ltb (abs (sub decimal (lit 75 (-2)))) (lit 5 (-2))
  then Normal (whole_prefix num ++ "¾")
  else s <- toFixed 1 num ;; Normal (replace ".0" "" s).

(** [quantity.split(sep).map(p => parseFloat(p.trim()))] *)
Definition parse_parts (sep : ascii) (quantity : string) : list number :=
  map (fun p => parseFloat (trim p)) (split sep quantity).

(** An array element; a missing one is [undefined], which [isNaN] and the
    arithmetic treat as [NaN]. *)
Definition at_index (parts : list number) (i : nat) : number :=
  nth i parts NaN.

(** The [try] block of [getScaledQuantity]: [Normal (Some r)] when it
    returns [r], [Normal None] when it runs to its end without returning. *)
Definition scale_try (quantity : string) (ratio : number)
  : completion (option string) :=
  if includes quantity "-" then
    let parts := parse_parts "-" quantity in
    if forallb (fun p => negb (isNaN p)) parts then
      a <- formatNumber (mul (at_index parts 0) ratio) ;;
      b <- formatNumber (mul (at_index parts 1) ratio) ;;
      Normal (Some (a ++ "-" ++ b))
    else Normal None
  else if includes quantity "/" then
    let parts := parse_parts "/" quantity in
    let num := at_index parts 0 in
    let den := at_index parts 1 in
    if negb (isNaN num) && negb (isNaN den) && negb (strict_eq den zero) then
      r <- formatNumber (mul (div num den) ratio) ;; Normal (Some r)
    else Normal None
  else
    let parsed := parseFloat quantity in
    if negb (isNaN parsed) then
      r <- formatNumber (mul parsed ratio) ;; Normal (Some r)
    else Normal None.

(** [getScaledQuantity(quantity, base, target)]: the [catch] clause and the
    statement after the [try] both return [quantity]. *)
Definition getScaledQuantity (quantity : string) (base target : number)
  : string :=
  if negb (truthy quantity) then ""
  else if strict_eq base target then quantity
  else
    let ratio := div target base in
    match scale_try quantity ratio with
    | Normal (Some r) => r
    | Normal None => quantity
    | Throw _ => quantity
    end.

(** The scaler at integer serving counts. *)
Definition scale (q : string) (b t : Z) : string :=
  getScaledQuantity q (JSNumber.of_Z b) (JSNumber.of_Z t).

(* ================================================================== *)
(** ** The data model ([types.ts]) *)
(* ================================================================== *)

Inductive DietType : Type :=
| DietNone | Vegan | Vegetarian | Keto | Paleo | GlutenFree.

Inductive MealType : Type := Breakfast | Lunch | Dinner | Snack | Dessert.

(** The string value of each enumeration member. *)
Definition DietType_value (d : DietType) : string :=
  match d with
  | DietNone => "None"
  | Vegan => "Vegan"
  | Vegetarian => "Vegetarian"
  | Keto => "Keto"
  | Paleo => "Paleo"
  | GlutenFree => "Gluten-Free"
  end.

Definition MealType_value (m : MealType) : string :=
  match m with
  | Breakfast => "Breakfast"
  | Lunch => "Lunch"
  | Dinner => "Dinner"
  | Snack => "Snack"
  | Dessert => "Dessert"
  end.

Record Macros : Type := mkMacros {
  calories : number;
  protein : number;
  carbs : number;
  fats : number
}.

(** [Ingredient]; the source's field [unit] is [unit_] here. A quantity or
    unit the endpoint left out reads as the empty string: both are falsy
    wherever the sources look at them. *)
Record Ingredient : Type := mkIngredient {
  item : string;
  quantity : string;
  unit_ : string
}.

(** An element of [Ingredient[] | string[]]: the sources tell the two apart
    element by element with [typeof]. *)
Inductive ingredient_entry : Type :=
| Structured (ing : Ingredient)
| Plain (s : string).

Record Recipe : Type := mkRecipe {
  title : string;
  description : string;
  cookingTime : string;
  difficulty : string;
  servings : number;
  ingredients : list ingredient_entry;
  instructions : list string;
  macros : Macros
}.

(** [SavedRecipe extends Recipe]. *)
Record SavedRecipe : Type := mkSavedRecipe {
  saved : Recipe;
  id : string;
  savedAt : Z;
  imageUrl : option string;
  rating : option number
}.

Record UserPreferences : Type := mkUserPreferences {
  pref_ingredients : list string;
  userInstructions : list string;
  diet : DietType;
  mealType : MealType;
  additionalNotes : string;
  specificDietaryRestrictions : string;
  pref_cookingTime : string;
  image : option string
}.

(* ================================================================== *)
(** ** Ingredient rendering ([RecipeResult.tsx]) *)
(* ================================================================== *)

(** Truthiness of a number: neither zero nor [NaN]. *)
Definition number_truthy (x : number) : bool :=
  match x with
  | S754_zero _ | S754_nan => false
  | _ => true
  end.

(** [ingredients.length > 0 && typeof ingredients[0] === 'object'] *)
Definition isStructuredIngredients (l : list ingredient_entry) : bool :=
  match l with
  | Structured _ :: _ => true
  | _ => false
  end.

(** [formatIngredientText(ing, baseServings, currentServings)] *)
Definition formatIngredientText (ing : ingredient_entry)
  (baseServings currentServings : number) : string :=
  match ing with
  | Plain s => s
  | Structured i =>
      let scaledQty := getScaledQuantity (quantity i) baseServings currentServings in
      join " " (filter truthy [scaledQty; unit_ i; item i])
  end.

(** [recipe.servings || 4] *)
Definition servings_or_4 (recipe : Recipe) : number :=
  if number_truthy (servings recipe) then servings recipe else JSNumber.of_Z 4.

(** The value of [isStructuredIngredients(recipe.ingredients) &&
    recipe.servings]: [false] or the serving count. *)
Inductive bool_or_number : Type :=
| IsBool (b : bool)
| IsNumber (n : number).

Definition value_truthy (v : bool_or_number) : bool :=
  match v with
  | IsBool b => b
  | IsNumber n => number_truthy n
  end.

Definition canScale (recipe : Recipe) : bool_or_number :=
  if isStructuredIngredients (ingredients recipe)
  then IsNumber (servings recipe)
  else IsBool false.

(** [{canScale && (...)}]: the serving control is rendered when [canScale]
    is truthy. *)
Definition serving_control_offered (recipe : Recipe) : bool :=
  value_truthy (canScale recipe).

(** The text of each list item of the ingredients section:
    [isString ? ing : formatIngredientText(ing, recipe.servings || 4,
    currentServings)]. *)
Definition ingredient_texts (recipe : Recipe) (currentServings : number)
  : list string :=
  map (fun ing =>
         match ing with
         | Plain s => s
         | Structured _ =>
             formatIngredientText ing (servings_or_4 recipe) currentServings
         end)
      (ingredients recipe).

(* ================================================================== *)
(** ** The generation service *)
(* ================================================================== *)

(** A part of the request to the text endpoint. *)
Inductive part : Type :=
| InlineData (data mimeType : string)
| TextPart (text : string).

(** The handle of the long-running video operation: its [done] flag and
    [response?.generatedVideos?.[0]?.video?.uri]. *)
Record Operation : Type := mkOperation {
  done : bool;
  videoUri : option string
}.

(** The hosted SDK, an external collaborator:
    - [generateContent parts] is [response.text] of the text endpoint,
      [None] when undefined, or the error the call rejects with;
    - [JSON_parse] is [JSON.parse] followed by the cast [as Recipe];
    - [generateImages prompt] is
      [response.generatedImages?.[0]?.image?.imageBytes];
    - [generateVideos prompt] is the operation handle;
    - [API_KEY] is [process.env.API_KEY] as a template renders it. *)
Record Provider : Type := mkProvider {
  generateContent : list part -> completion (option string);
  JSON_parse : string -> completion Recipe;
  generateImages : string -> completion (option string);
  generateVideos : string -> completion Operation;
  API_KEY : string
}.

(** What the service does that the outside can see, in order.
    [LoopTest d] is a ghost event: one evaluation of the loop condition
    [!operation.done] on an operation whose flag is [d]. *)
Inductive event : Type :=
| CallGenerateContent (parts : list part)
| CallGenerateImages (prompt : string)
| CallGenerateVideos (prompt : string)
| CallGetVideosOperation (operation : Operation)
| Sleep (ms : Z)
| ConsoleError (label : string)
| LoopTest (d : bool).

(** An effectful computation: the events it performed and how it ended. *)
Definition io (A : Type) : Type := (list event * completion A)%type.

Definition ret {A : Type} (a : A) : io A := ([], Normal a).
Definition throw {A : Type} (e : js_error) : io A := ([], Throw e).
Definition emit (ev : event) : io unit := ([ev], Normal tt).

(** [await] of an SDK call: the request is issued, then the call's outcome
    is the computation's. *)
Definition await {A : Type} (ev : event) (c : completion A) : io A := ([ev], c).

Definition io_bind {A B : Type} (m : io A) (k : A -> io B) : io B :=
  match m with
  | (tr, Normal a) => let (tr', r) := k a in ((tr ++ tr')%list, r)
  | (tr, Throw e) => (tr, Throw e)
  end.

(** [try { m } catch (e) { h e }] *)
Definition try_catch {A : Type} (m : io A) (h : js_error -> io A) : io A :=
  match m with
  | (tr, Throw e) => let (tr', r) := h e in ((tr ++ tr')%list, r)
  | (tr, Normal a) => (tr, Normal a)
  end.

Notation "x <<- c ;; k" := (io_bind c (fun x => k))
  (at level 61, c at next level, right associativity).

Definition nl : string := String "010"%char EmptyString.

(** [a || b] on strings. *)
Definition or_else (a b : string) : string := if truthy a then a else b.

(** The inline image part: [prefs.image.split(',')[1]], when both the image
    and that piece are truthy. *)
Definition image_parts (prefs : UserPreferences) : list part :=
  match image prefs with
  | Some img =>
      if truthy img then
        match nth_error (split ","%char img) 1 with
        | Some base64Data =>
            if truthy base64Data then [InlineData base64Data "image/jpeg"]
            else []
        | None => []
        end
      else []
  | None => []
  end.

Definition image_present (prefs : UserPreferences) : bool :=
  match image prefs with Some img => truthy img | None => false end.

Fixpoint numbered (i : N) (l : list string) : list string :=
  match l with
  | [] => []
  | inst :: rest => (of_N (i + 1) ++ ". " ++ inst) :: numbered (i + 1) rest
  end.

Definition recipe_prompt (prefs : UserPreferences) : string :=
  let p0 := "Generate a creative and delicious recipe." in
  let p1 :=
    match pref_ingredients prefs with
    | _ :: _ =>
        p0 ++ " Use these ingredients: "
           ++ join ", " (pref_ingredients prefs) ++ "."
    | [] =>
        if image_present prefs
        then p0 ++ " Identify the ingredients in the image and use them."
        else p0 ++ " Suggest a random popular dish."
    end in
  let p2 :=
    match userInstructions prefs with
    | _ :: _ =>
        p1 ++ nl
           ++ "    Please try to incorporate the following specific cooking steps/instructions requested by the user:"
           ++ nl ++ "    " ++ join nl (numbered 0 (userInstructions prefs))
           ++ nl ++ "    "
    | [] => p1
    end in
  p2 ++ nl
     ++ "    Meal Type: " ++ MealType_value (mealType prefs) ++ "." ++ nl
     ++ "    Cooking Time Goal: "
     ++ or_else (pref_cookingTime prefs) "No specific time constraint"
     ++ "." ++ nl
     ++ "    Dietary Restriction: " ++ DietType_value (diet prefs) ++ "." ++ nl
     ++ "    Specific Allergies/Restrictions: "
     ++ or_else (specificDietaryRestrictions prefs) "None" ++ "." ++ nl
     ++ "    Additional Notes: " ++ or_else (additionalNotes prefs) "None"
     ++ "." ++ nl
     ++ "    " ++ nl
     ++ "    Return the result strictly as a JSON object matching the schema provided."
     ++ nl ++ "  ".

(** [generateRecipe(prefs)] *)
Definition generateRecipe (sdk : Provider) (prefs : UserPreferences)
  : io Recipe :=
  let parts := (image_parts prefs ++ [TextPart (recipe_prompt prefs)])%list in
  try_catch
    (text <<- await (CallGenerateContent parts) (generateContent sdk parts) ;;
     match text with
     | Some t =>
         if truthy t then ([], JSON_parse sdk t)
         else throw (mkError PlainError "No response from AI")
     | None => throw (mkError PlainError "No response from AI")
     end)
    (fun error =>
       _ <<- emit (ConsoleError "Error generating recipe:") ;; throw error).

Definition image_prompt (recipeTitle recipeDescription : string) : string :=
  "Professional food photography of " ++ recipeTitle ++ ". " ++ nl
  ++ "    Context: " ++ recipeDescription ++ ". " ++ nl
  ++ "    Style: Michelin star plating, photorealistic, 8k resolution, soft natural window lighting, shallow depth of field to highlight texture, vibrant colors, fresh garnish, macro detail, overhead or 45-degree angle shot. No text overlays.".

(** [generateDishImage(recipeTitle, recipeDescription)] *)
Definition generateDishImage (sdk : Provider)
  (recipeTitle recipeDescription : string) : io (option string) :=
  try_catch
    (let prompt := image_prompt recipeTitle recipeDescription in
     base64ImageBytes <<-
       await (CallGenerateImages prompt) (generateImages sdk prompt) ;;
     match base64ImageBytes with
     | Some b =>
         if truthy b then ret (Some ("data:image/jpeg;base64," ++ b))
         else ret None
     | None => ret None
     end)
    (fun error =>
       _ <<- emit (ConsoleError "Error generating image:") ;; ret None).

Definition video_prompt (recipe : Recipe) : string :=
  "Cinematic short cooking video of " ++ title recipe ++ ". " ++ nl
  ++ "  Show ingredients being prepared, chopped, and cooked. " ++ nl
  ++ "  Close up shots of the cooking process in a professional kitchen with warm lighting. "
  ++ nl
  ++ "  Final shot of the plated dish " ++ title recipe ++ ". " ++ nl
  ++ "  High quality, 4k, photorealistic, slow motion b-roll style.".

(** How a run over a finite list of poll answers ends: the function
    returned, it threw, or it is still waiting for an answer. *)
Inductive outcome (A : Type) : Type :=
| Returned (a : A)
| Threw (e : js_error)
| StillPolling.

Arguments Returned {A} a.
Arguments Threw {A} e.
Arguments StillPolling {A}.

(** [while (!operation.done) { await sleep(5000); operation = await
    getVideosOperation({operation}) }], run against the answers the
    provider gives to the successive polls. *)
Fixpoint poll_loop (operation : Operation)
  (answers : list (completion Operation))
  : list event * outcome Operation :=
  if done operation then ([LoopTest true], Returned operation)
  else
    let step := [LoopTest false; Sleep 5000; CallGetVideosOperation operation] in
    match answers with
    | [] => (step, StillPolling)
    | Throw e :: _ => (step, Threw e)
    | Normal operation' :: rest =>
        let (tr, r) := poll_loop operation' rest in ((step ++ tr)%list, r)
    end.

(** [generateRecipeVideo(recipe)] *)
Definition generateRecipeVideo (sdk : Provider) (recipe : Recipe)
  (answers : list (completion Operation))
  : list event * outcome (option string) :=
  let prompt := video_prompt recipe in
  let rethrow (tr : list event) (error : js_error) :=
    ((tr ++ [ConsoleError "Error generating video:"])%list, Threw error) in
  match generateVideos sdk prompt with
  | Throw error => rethrow [CallGenerateVideos prompt] error
  | Normal operation =>
      match poll_loop operation answers with
      | (tr, Returned final) =>
          (CallGenerateVideos prompt :: tr,
           Returned
             match videoUri final with
             | Some uri =>
                 if truthy uri then Some (uri ++ "&key=" ++ API_KEY sdk)
                 else None
             | None => None
             end)
      | (tr, Threw error) => rethrow (CallGenerateVideos prompt :: tr) error
      | (tr, StillPolling) => (CallGenerateVideos prompt :: tr, StillPolling)
      end
  end.

(* ================================================================== *)
(** ** The application component: generation and favorites *)
(* ================================================================== *)

Inductive View : Type := ViewHome | ViewFavorites.

(** The [recipe] state holds a freshly generated [Recipe] or a
    [SavedRecipe] chosen from the favorites. *)
Inductive shown_recipe : Type :=
| Generated (r : Recipe)
| Chosen (f : SavedRecipe).

Definition recipe_of (s : shown_recipe) : Recipe :=
  match s with
  | Generated r => r
  | Chosen f => saved f
  end.

Record AppState : Type := mkAppState {
  view : View;
  preferences : UserPreferences;
  recipe : option shown_recipe;
  recipeImage : option string;
  isImageLoading : bool;
  favorites : list SavedRecipe;
  loading : bool;
  error : option string
}.

Definition setFavorites (l : list SavedRecipe) (st : AppState) : AppState :=
  mkAppState (view st) (preferences st) (recipe st) (recipeImage st)
    (isImageLoading st) l (loading st) (error st).

Definition setRecipe (r : option shown_recipe) (st : AppState) : AppState :=
  mkAppState (view st) (preferences st) r (recipeImage st)
    (isImageLoading st) (favorites st) (loading st) (error st).

Definition setRecipeImage (i : option string) (st : AppState) : AppState :=
  mkAppState (view st) (preferences st) (recipe st) i
    (isImageLoading st) (favorites st) (loading st) (error st).

Definition setIsImageLoading (b : bool) (st : AppState) : AppState :=
  mkAppState (view st) (preferences st) (recipe st) (recipeImage st)
    b (favorites st) (loading st) (error st).

Definition setLoading (b : bool) (st : AppState) : AppState :=
  mkAppState (view st) (preferences st) (recipe st) (recipeImage st)
    (isImageLoading st) (favorites st) b (error st).

Definition setError (e : option string) (st : AppState) : AppState :=
  mkAppState (view st) (preferences st) (recipe st) (recipeImage st)
    (isImageLoading st) (favorites st) (loading st) e.

Definition setView (v : View) (st : AppState) : AppState :=
  mkAppState v (preferences st) (recipe st) (recipeImage st)
    (isImageLoading st) (favorites st) (loading st) (error st).

(** What the main area renders: the spinner while [loading], else the
    recipe when there is one. *)
Definition displayed_recipe (st : AppState) : option shown_recipe :=
  if loading st then None else recipe st.

(** The first statements of [handleGenerate]. *)
Definition handleGenerate_start (st : AppState) : AppState :=
  setView ViewHome
    (setIsImageLoading true
       (setRecipeImage None (setRecipe None (setError None (setLoading true st))))).

(** [handleGenerate] up to the point where its own promise resolves: the
    recipe call is awaited; on success the image call is started and not
    awaited. The result holds the state, the requests issued so far and the
    outcome the image promise will settle with, when one was started. *)
Definition handleGenerate_returned (sdk : Provider) (st : AppState)
  : AppState * list event * option (completion (option string)) :=
  let st1 := handleGenerate_start st in
  match generateRecipe sdk (preferences st) with
  | (tr, Normal recipeData) =>
      let st2 := setRecipe (Some (Generated recipeData)) st1 in
      let (tr_img, img) :=
        generateDishImage sdk (title recipeData) (description recipeData) in
      (setLoading false st2, (tr ++ tr_img)%list, Some img)
  | (tr, Throw err) =>
      let st2 :=
        setError
          (Some ("Oops! The kitchen is a bit chaotic right now. Please try again. "
                 ++ message err)) st1 in
      (setLoading false (setIsImageLoading false st2), tr, None)
  end.

(** The callbacks on the image promise:
    [.then(img => setRecipeImage(img)).catch(log).finally(() =>
    setIsImageLoading(false))]. *)
Definition image_settled (img : completion (option string)) (st : AppState)
  : AppState :=
  setIsImageLoading false
    match img with
    | Normal i => setRecipeImage i st
    | Throw _ => st
    end.

(** [handleGenerate] with the image promise settled. *)
Definition handleGenerate (sdk : Provider) (st : AppState)
  : AppState * list event :=
  match handleGenerate_returned sdk st with
  | (st', tr, Some img) => (image_settled img st', tr)
  | (st', tr, None) => (st', tr)
  end.

(** [Array.prototype.findIndex]: the first index whose element satisfies
    [p], or -1. *)
Fixpoint findIndex {A : Type} (p : A -> bool) (l : list A) : Z :=
  match l with
  | [] => (-1)%Z
  | x :: rest =>
      if p x then 0%Z
      else let i := findIndex p rest in
           if (i <? 0)%Z then (-1)%Z else (i + 1)%Z
  end.

(** [l.splice(i, 1)] on a copy of [l]. *)
Fixpoint splice1 {A : Type} (i : nat) (l : list A) : list A :=
  match l, i with
  | [], _ => []
  | _ :: rest, O => rest
  | x :: rest, S j => x :: splice1 j rest
  end.

Definition same_title (r : Recipe) (f : SavedRecipe) : bool :=
  String.eqb (title (saved f)) (title r).

(** The rating the spread [...recipe] carries into a new favorite: a
    chosen favorite has one, a generated recipe has none. *)
Definition carried_rating (r : shown_recipe) : option number :=
  match r with
  | Chosen f => rating f
  | Generated _ => None
  end.

(** [handleToggleFavorite]; [uuid] and [now] are the values
    [crypto.randomUUID()] and [Date.now()] return. *)
Definition handleToggleFavorite (uuid : string) (now : Z) (st : AppState)
  : AppState :=
  match recipe st with
  | None => st
  | Some r =>
      let existingIndex := findIndex (same_title (recipe_of r)) (favorites st) in
      if (0 <=? existingIndex)%Z then
        setFavorites (splice1 (Z.to_nat existingIndex) (favorites st)) st
      else
        let newFavorite :=
          mkSavedRecipe (recipe_of r) uuid now (recipeImage st)
            (carried_rating r) in
        setFavorites (newFavorite :: favorites st) st
  end.

(** [{ ...fav, rating }] *)
Definition with_rating (rating' : number) (fav : SavedRecipe) : SavedRecipe :=
  mkSavedRecipe (saved fav) (id fav) (savedAt fav) (imageUrl fav)
    (Some rating').

Definition rate_favorites (id' : string) (rating' : number)
  (l : list SavedRecipe) : list SavedRecipe :=
  map (fun fav => if String.eqb (id fav) id' then with_rating rating' fav else fav) l.

(** [handleRateRecipe(id, rating)] *)
Definition handleRateRecipe (id' : string) (rating' : number) (st : AppState)
  : AppState :=
  let st1 := setFavorites (rate_favorites id' rating' (favorites st)) st in
  match recipe st with
  | Some (Chosen f) =>
      if String.eqb (id f) id'
      then setRecipe (Some (Chosen (with_rating rating' f))) st1
      else st1
  | _ => st1
  end.

(* ================================================================== *)
(** ** Vocabulary of the properties *)
(* ================================================================== *)

(** The request [generateRecipe] sends to the text endpoint. *)
Definition text_request (prefs : UserPreferences) : list part :=
  (image_parts prefs ++ [TextPart (recipe_prompt prefs)])%list.

(** The text an endpoint call yields, when it yields a non-empty one. *)
Definition usable_text (c : completion (option string)) : option string :=
  match c with
  | Normal (Some t) => if truthy t then Some t else None
  | _ => None
  end.

Definition is_image_call (ev : event) : bool :=
  match ev with CallGenerateImages _ => true | _ => false end.

Definition is_video_call (ev : event) : bool :=
  match ev with
  | CallGenerateVideos _ | CallGetVideosOperation _ => true
  | _ => false
  end.

Definition is_poll (ev : event) : bool :=
  match ev with CallGetVideosOperation _ => true | _ => false end.

Definition is_loop_test (ev : event) : bool :=
  match ev with LoopTest _ => true | _ => false end.

(** How many events of a kind a trace holds. *)
Definition count_events (p : event -> bool) (tr : list event) : nat :=
  List.length (filter p tr).

(** How many favorites carry the title [t]. *)
Definition count_title (t : string) (l : list SavedRecipe) : nat :=
  List.length (filter (fun f => String.eqb (title (saved f)) t) l).

Definition is_plain (ing : ingredient_entry) : bool :=
  match ing with Plain _ => true | Structured _ => false end.

Definition is_structured (ing : ingredient_entry) : bool :=
  match ing with Structured _ => true | Plain _ => false end.

(** The text of a legacy ingredient. *)
Definition plain_text (ing : ingredient_entry) : string :=
  match ing with Plain s => s | Structured i => item i end.

(** Sample data for the worked instances. *)
Definition sample_macros : Macros :=
  mkMacros (JSNumber.of_Z 520) (JSNumber.of_Z 30) (JSNumber.of_Z 45)
    (JSNumber.of_Z 18).

Definition sample_recipe : Recipe :=
  mkRecipe "Lemon Pasta" "Bright and quick." "20 mins" "Easy"
    (JSNumber.of_Z 2)
    [Structured (mkIngredient "spaghetti" "200" "g");
     Structured (mkIngredient "lemon" "1/2" "");
     Structured (mkIngredient "salt" "" "pinch")]
    ["Boil the pasta."; "Toss with lemon."] sample_macros.

Definition legacy_recipe : Recipe :=
  mkRecipe "Toast" "Plain toast." "5 mins" "Easy" (JSNumber.of_Z 2)
    [Plain "2 slices bread"; Plain "1 tbsp butter"]
    ["Toast the bread."; "Butter it."] sample_macros.

Definition sample_prefs : UserPreferences :=
  mkUserPreferences ["lemon"; "spaghetti"] [] DietNone Dinner "" "" "" None.

Definition sample_state : AppState :=
  mkAppState ViewHome sample_prefs None None false [] false None.

(** A provider whose text endpoint answers [text] and whose image endpoint
    answers [img]. *)
Definition sample_provider (text : completion (option string))
  (img : completion (option string)) : Provider :=
  mkProvider (fun _ => text)
    (fun t => if String.eqb t "{}" then Normal sample_recipe
              else Throw (mkError SyntaxError "Unexpected token"))
    (fun _ => img)
    (fun _ => Normal (mkOperation false None))
    "KEY".

Definition network_error : js_error := mkError PlainError "Failed to fetch".

Definition pending_operation : Operation := mkOperation false None.

Definition finished_operation : Operation :=
  mkOperation true (Some "https://video.example/v1?alt=media").

Definition sample_favorite : SavedRecipe :=
  mkSavedRecipe sample_recipe "id-1" 1700000000000 None None.

(** One round of the polling loop for each operation found not done. *)
Definition polling_trace (pending : list Operation) : list event :=
  flat_map
    (fun o => [LoopTest false; Sleep 5000; CallGetVideosOperation o]) pending.

Definition is_sleep_5s (ev : event) : bool :=
  match ev with Sleep ms => (ms =? 5000)%Z | _ => false end.

(** The declared type [Ingredient[] | string[]]: all records, or all
    strings. *)
Definition homogeneous (l : list ingredient_entry) : Prop :=
  Forall (fun ing => is_plain ing = true) l
  \/ Forall (fun ing => is_structured ing = true) l.

(** *** Quantity strings *)

(** The scalable shapes as the specification words them: an integer, a
    decimal, ["a/b"] with both parts numbers and [b] not zero, ["a-b"] with
    both parts numbers. *)
Definition is_integer_text (s : string) : bool :=
  match span_digits s with
  | (d, EmptyString) => truthy d
  | _ => false
  end.

Definition is_decimal_text (s : string) : bool :=
  let (ip, r) := span_digits s in
  match r with
  | String c r' =>
      if (code c =? 46)%N then
        match span_digits r' with
        | (fp, EmptyString) => truthy ip && truthy fp
        | _ => false
        end
      else false
  | EmptyString => false
  end.

Definition is_number_text (s : string) : bool :=
  is_integer_text s || is_decimal_text s.

Definition spec_scalable_shape (q : string) : bool :=
  is_number_text q
  || match split "/" q with
     | [a; b] =>
         is_number_text a && is_number_text b
         && negb (strict_eq (parseFloat b) zero)
     | _ => false
     end
  || match split "-" q with
     | [a; b] => is_number_text a && is_number_text b
     | _ => false
     end.

(** What [parseFloat] needs to read a number: after leading white space
    and an optional sign, [Infinity], a digit, or a point followed by a
    digit. *)
Definition after_sign (t : string) : string :=
  match t with
  | String c r => if ((code c =? 45) || (code c =? 43))%N then r else t
  | EmptyString => t
  end.

Definition has_numeric_prefix (s : string) : bool :=
  let t := after_sign (trimStart s) in
  match prefix_rest "Infinity" t with
  | Some _ => true
  | None =>
      match t with
      | String c r =>
          is_digit c
          || ((code c =? 46)%N
              && match r with String c' _ => is_digit c' | EmptyString => false end)
      | EmptyString => false
      end
  end.

Definition reads_no_number (piece : string) : bool :=
  negb (has_numeric_prefix (trim piece)).

(** The strings the scaler cannot read: with a ["-"], some piece between
    the dashes reads as no number; else with a ["/"], one of the first two
    pieces reads as no number or the second reads as zero; else the whole
    string reads as no number. *)
Definition unscalable (q : string) : bool :=
  if includes q "-" then existsb reads_no_number (split "-" q)
  else if includes q "/" then
    match split "/" q with
    | a :: b :: _ =>
        reads_no_number a || reads_no_number b
        || strict_eq (parseFloat (trim b)) zero
    | _ => true
    end
  else negb (has_numeric_prefix q).

(** *** Formatting *)

(** The fractions [formatNumber] looks for, in its order, with their
    glyphs. *)
Definition glyph_table : list (number * string) :=
  [(lit 25 (-2), "¼"); (lit 33 (-2), "⅓"); (lit 5 (-1), "½");
   (lit 66 (-2), "⅔"); (lit 75 (-2), "¾")].

(** [Math.abs(frac - c) < 0.05] *)
Definition near (frac c : number) : bool :=
  ltb (abs (sub frac c)) (lit 5 (-2)).

(** The glyph of the first fraction of the table that [frac] is near. *)
Definition first_glyph (frac : number) : option string :=
  match find (fun cg => near frac (fst cg)) glyph_table with
  | Some cg => Some (snd cg)
  | None => None
  end.

(** *** The real value of a number *)

Definition pow2 (e : Z) : R := powerRZ 2 e.

(** The value of a finite number; 0 for the others. *)
Definition value (x : number) : R :=
  match x with
  | S754_finite s m e =>
      ((if s then -1 else 1) * IZR (Zpos m) * pow2 e)%R
  | _ => 0%R
  end.

(** A positive normal number: a mantissa of exactly 53 bits. *)
Definition pos_normal (x : number) : Prop :=
  exists m e, x = S754_finite false m e
              /\ digits2_pos m = 53%positive
              /\ (-1074 <= e <= 971)%Z.

(** Where a real [x] lies in the interval from [m] to [m + 1]. *)
Definition located (m : Z) (l : location) (x : R) : Prop :=
  match l with
  | loc_Exact => x = IZR m
  | loc_Inexact Lt => (IZR m < x < IZR m + / 2)%R
  | loc_Inexact Eq => x = (IZR m + / 2)%R
  | loc_Inexact Gt => (IZR m + / 2 < x < IZR m + 1)%R
  end.

(** The unit roundoff of binary64: 2^-53. *)
Definition unit_roundoff : R := (/ 9007199254740992)%R.

(** Strings made of decimal digits only. *)
Fixpoint all_digits (s : string) : bool :=
  match s with
  | EmptyString => true
  | String c r => is_digit c && all_digits r
  end.

(* ================================================================== *)
(** ** The application component: navigation and the cookbook *)
(* ================================================================== *)

(** [reset] *)
Definition reset (st : AppState) : AppState :=
  setIsImageLoading false
    (setError None (setRecipeImage None (setRecipe None st))).

(** [isCurrentRecipeFavorite]:
    [recipe ? favorites.some(f => f.title === recipe.title) : false]. *)
Definition isCurrentRecipeFavorite (st : AppState) : bool :=
  match recipe st with
  | Some r => existsb (same_title (recipe_of r)) (favorites st)
  | None => false
  end.

(** [navigateToHome] and [navigateToFavorites] *)
Definition navigateToHome (st : AppState) : AppState :=
  setIsImageLoading false (setRecipe None (setView ViewHome st)).

Definition navigateToFavorites (st : AppState) : AppState :=
  setIsImageLoading false (setRecipe None (setView ViewFavorites st)).

(** [selectFavorite(fav)] *)
Definition selectFavorite (fav : SavedRecipe) (st : AppState) : AppState :=
  setIsImageLoading false
    (setRecipeImage (imageUrl fav) (setRecipe (Some (Chosen fav)) st)).

(** [removeFavorite(id)]. A generated recipe has no [id] field, so
    [(recipe as SavedRecipe).id === id] is false for it. *)
Definition removeFavorite (id' : string) (st : AppState) : AppState :=
  let st1 :=
    setFavorites
      (filter (fun f => negb (String.eqb (id f) id')) (favorites st)) st in
  match recipe st with
  | Some (Chosen f) => if String.eqb (id f) id' then setRecipe None st1 else st1
  | _ => st1
  end.

(** What the main area of the page renders:
    [loading ? spinner : recipe ? <RecipeResult/> : view === 'favorites' ?
    <FavoritesList/> : <RecipeForm/>], each with the props it is given. *)
Inductive main_area : Type :=
| LoadingSpinner
| RecipeResultView (shown : shown_recipe) (img : option string)
    (imgLoading isFavorite : bool)
| FavoritesListView (favs : list SavedRecipe)
| RecipeFormView (prefs : UserPreferences) (isLoading : bool).

Definition main_content (st : AppState) : main_area :=
  if loading st then LoadingSpinner
  else
    match recipe st with
    | Some r =>
        RecipeResultView r (recipeImage st) (isImageLoading st)
          (isCurrentRecipeFavorite st)
    | None =>
        match view st with
        | ViewFavorites => FavoritesListView (favorites st)
        | ViewHome => RecipeFormView (preferences st) (loading st)
        end
    end.

(** [LOADING_MESSAGES] of [constants.ts]. *)
Definition LOADING_MESSAGES : list string :=
  ["Analyzing your ingredients...";
   "Consulting with top chefs...";
   "Preheating the digital oven...";
   "Measuring spices...";
   "Plating your masterpiece..."].

(** [Array.prototype.indexOf] on strings. *)
Definition indexOf (l : list string) (x : string) : Z :=
  findIndex (fun y => String.eqb y x) l.

(** An array element at an integer index; [None] is [undefined]. *)
Definition at_Z {A : Type} (l : list A) (i : Z) : option A :=
  if (i <? 0)%Z then None else nth_error l (Z.to_nat i).

(** The state update of the interval in [handleGenerate], over a list of
    messages: [messages[(messages.indexOf(prev) + 1) % messages.length]].
    The operator [%] takes the sign of the dividend ([Z.rem]); on an empty
    list the index is [NaN] and the element [undefined]. *)
Definition cycle_message (messages : list string) (prev : string)
  : option string :=
  match messages with
  | [] => None
  | _ =>
      let currentIndex := indexOf messages prev in
      at_Z messages
        (Z.rem (currentIndex + 1) (Z.of_nat (List.length messages)))
  end.

Definition next_loading_message (prev : string) : option string :=
  cycle_message LOADING_MESSAGES prev.

(** The shown recipe, when it is a chosen favorite, is an entry of the
    cookbook as it stands. *)
Definition shown_in_cookbook (st : AppState) : Prop :=
  match recipe st with
  | Some (Chosen f) => In f (favorites st)
  | _ => True
  end.

(** A state with the sample favorite in the cookbook and nothing shown. *)
Definition cookbook_state : AppState :=
  mkAppState ViewFavorites sample_prefs None None false
    [sample_favorite;
     mkSavedRecipe legacy_recipe "id-2" 1700000000001 (Some "data:image/jpeg;base64,QUJD")
       (Some (JSNumber.of_Z 4))]
    false None.

(* ================================================================== *)
(** ** The preferences form ([RecipeForm.tsx]) *)
(* ================================================================== *)

(** The form's own state; the preferences are the application's. *)
Record FormState : Type := mkFormState {
  newIngredient : string;
  newInstruction : string;
  isDragging : bool
}.

(** [{ ...preferences, ingredients }] and [{ ...preferences,
    userInstructions }] *)
Definition with_ingredients (l : list string) (prefs : UserPreferences)
  : UserPreferences :=
  mkUserPreferences l (userInstructions prefs) (diet prefs) (mealType prefs)
    (additionalNotes prefs) (specificDietaryRestrictions prefs)
    (pref_cookingTime prefs) (image prefs).

Definition with_userInstructions (l : list string) (prefs : UserPreferences)
  : UserPreferences :=
  mkUserPreferences (pref_ingredients prefs) l (diet prefs) (mealType prefs)
    (additionalNotes prefs) (specificDietaryRestrictions prefs)
    (pref_cookingTime prefs) (image prefs).

(** [l.splice(index, 1)] on a copy of [l], for an integer [index]: a
    negative index counts from the end (and no further back than the
    start), an index past the end removes nothing. *)
Definition splice_at {A : Type} (index : Z) (l : list A) : list A :=
  let len := Z.of_nat (List.length l) in
  let start :=
    if (index <? 0)%Z then Z.max (len + index) 0 else Z.min index len in
  splice1 (Z.to_nat start) l.

(** [handleAddIngredient] *)
Definition handleAddIngredient (fs : FormState) (prefs : UserPreferences)
  : FormState * UserPreferences :=
  if truthy (trim (newIngredient fs)) then
    (mkFormState "" (newInstruction fs) (isDragging fs),
     with_ingredients
       (pref_ingredients prefs ++ [trim (newIngredient fs)])%list prefs)
  else (fs, prefs).

(** [handleIngredientKeyDown], on the key's name. *)
Definition handleIngredientKeyDown (key : string) (fs : FormState)
  (prefs : UserPreferences) : FormState * UserPreferences :=
  if String.eqb key "Enter" then handleAddIngredient fs prefs else (fs, prefs).

(** [removeIngredient(index)] *)
Definition removeIngredient (index : Z) (prefs : UserPreferences)
  : UserPreferences :=
  with_ingredients (splice_at index (pref_ingredients prefs)) prefs.

(** [handleAddInstruction] *)
Definition handleAddInstruction (fs : FormState) (prefs : UserPreferences)
  : FormState * UserPreferences :=
  if truthy (trim (newInstruction fs)) then
    (mkFormState (newIngredient fs) "" (isDragging fs),
     with_userInstructions
       (userInstructions prefs ++ [trim (newInstruction fs)])%list prefs)
  else (fs, prefs).

(** [handleInstructionKeyDown] *)
Definition handleInstructionKeyDown (key : string) (fs : FormState)
  (prefs : UserPreferences) : FormState * UserPreferences :=
  if String.eqb key "Enter" then handleAddInstruction fs prefs else (fs, prefs).

(** [removeInstruction(index)] *)
Definition removeInstruction (index : Z) (prefs : UserPreferences)
  : UserPreferences :=
  with_userInstructions (splice_at index (userInstructions prefs)) prefs.

(* ================================================================== *)
(** ** Vocabulary of the service properties *)
(* ================================================================== *)

(** What [generateRecipeVideo] returns for the operation it stopped at:
    [videoUri ? `${videoUri}&key=${API_KEY}` : null]. *)
Definition video_reference (sdk : Provider) (final : Operation)
  : option string :=
  match videoUri final with
  | Some uri => if truthy uri then Some (uri ++ "&key=" ++ API_KEY sdk) else None
  | None => None
  end.

Definition is_text_call (ev : event) : bool :=
  match ev with CallGenerateContent _ => true | _ => false end.

Definition is_video_start (ev : event) : bool :=
  match ev with CallGenerateVideos _ => true | _ => false end.

Definition is_console_error (ev : event) : bool :=
  match ev with ConsoleError _ => true | _ => false end.

(** A poll answer that reports the operation as still running. *)
Definition answers_pending (a : completion Operation) : bool :=
  match a with Normal o => negb (done o) | Throw _ => false end.

(** Preferences with an attached image and nothing typed. *)
Definition photo_prefs (img : string) : UserPreferences :=
  mkUserPreferences [] [] DietNone Dinner "" "" "" (Some img).

(* ================================================================== *)
(** ** More of the number primitives *)
(* ================================================================== *)

Module JSMath.

(** [x + y] and [x <= y] on numbers. *)
Definition add (x y : number) : number := SFadd prec emax x y.
Definition leb (x y : number) : bool := SFleb x y.

(** [Math.max(x, y)]: [NaN] when either is; of the two zeros, the
    positive one. *)
Definition max (x y : number) : number :=
  if isNaN x || isNaN y then NaN
  else if ltb x y then y
  else if ltb y x then x
  else match x with S754_zero true => y | _ => x end.

End JSMath.

(* ================================================================== *)
(** ** The recipe page ([RecipeResult.tsx]): its state and handlers *)
(* ================================================================== *)

(** The component's state. The two step counters only ever hold whole
    numbers, from 0 up to the number of instructions plus one; they are
    integers here. *)
Record ResultState : Type := mkResultState {
  showShareTooltip : bool;
  showShareMenu : bool;
  isCookMode : bool;
  activeStep : Z;
  showMobileIngredients : bool;
  currentServings : number;
  videoUrl : option string;
  isGeneratingVideo : bool;
  videoError : option string;
  isPlayingSlideshow : bool;
  currentSlide : Z
}.


Definition setIsCookMode (b : bool) (s : ResultState) : ResultState :=
  mkResultState (showShareTooltip s) (showShareMenu s) b (activeStep s)
    (showMobileIngredients s) (currentServings s) (videoUrl s)
    (isGeneratingVideo s) (videoError s) (isPlayingSlideshow s) (currentSlide s).

Definition setActiveStep (n : Z) (s : ResultState) : ResultState :=
  mkResultState (showShareTooltip s) (showShareMenu s) (isCookMode s) n
    (showMobileIngredients s) (currentServings s) (videoUrl s)
    (isGeneratingVideo s) (videoError s) (isPlayingSlideshow s) (currentSlide s).

Definition setCurrentServings (n : number) (s : ResultState) : ResultState :=
  mkResultState (showShareTooltip s) (showShareMenu s) (isCookMode s)
    (activeStep s) (showMobileIngredients s) n (videoUrl s)
    (isGeneratingVideo s) (videoError s) (isPlayingSlideshow s) (currentSlide s).

Definition setVideoUrl (u : option string) (s : ResultState) : ResultState :=
  mkResultState (showShareTooltip s) (showShareMenu s) (isCookMode s)
    (activeStep s) (showMobileIngredients s) (currentServings s) u
    (isGeneratingVideo s) (videoError s) (isPlayingSlideshow s) (currentSlide s).

Definition setIsGeneratingVideo (b : bool) (s : ResultState) : ResultState :=
  mkResultState (showShareTooltip s) (showShareMenu s) (isCookMode s)
    (activeStep s) (showMobileIngredients s) (currentServings s) (videoUrl s)
    b (videoError s) (isPlayingSlideshow s) (currentSlide s).

Definition setVideoError (e : option string) (s : ResultState) : ResultState :=
  mkResultState (showShareTooltip s) (showShareMenu s) (isCookMode s)
    (activeStep s) (showMobileIngredients s) (currentServings s) (videoUrl s)
    (isGeneratingVideo s) e (isPlayingSlideshow s) (currentSlide s).

Definition setIsPlayingSlideshow (b : bool) (s : ResultState) : ResultState :=
  mkResultState (showShareTooltip s) (showShareMenu s) (isCookMode s)
    (activeStep s) (showMobileIngredients s) (currentServings s) (videoUrl s)
    (isGeneratingVideo s) (videoError s) b (currentSlide s).

Definition setCurrentSlide (n : Z) (s : ResultState) : ResultState :=
  mkResultState (showShareTooltip s) (showShareMenu s) (isCookMode s)
    (activeStep s) (showMobileIngredients s) (currentServings s) (videoUrl s)
    (isGeneratingVideo s) (videoError s) (isPlayingSlideshow s) n.

(** The state the component is mounted with. *)
Definition initial_result_state (recipe : Recipe) : ResultState :=
  mkResultState false false false 0 false (servings_or_4 recipe)
    None false None false 0.

(** The effect that runs when [recipe.servings] or [recipe.title]
    changes. *)
Definition on_recipe_change (recipe : Recipe) (s : ResultState) : ResultState :=
  setCurrentSlide 0
    (setIsPlayingSlideshow false
       (setActiveStep 0
          (setIsCookMode false
             (setVideoError None
                (setVideoUrl None
                   (setCurrentServings (servings_or_4 recipe) s)))))).

(** [updateServings(delta)] *)
Definition updateServings (delta : number) (s : ResultState) : ResultState :=
  let newServings :=
    JSMath.max (JSNumber.of_Z 1) (JSMath.add (currentServings s) delta) in
  setCurrentServings newServings s.

(** The minus button of the serving control is
    [disabled={currentServings <= 1}]. *)
Definition minus_disabled (s : ResultState) : bool :=
  JSMath.leb (currentServings s) (JSNumber.of_Z 1).

(** The ingredient lines the page shows in state [s]. *)
Definition shown_ingredients (recipe : Recipe) (s : ResultState) : list string :=
  ingredient_texts recipe (currentServings s).

(** *** Cook mode *)

(** [totalSteps] *)
Definition totalSteps (recipe : Recipe) : Z :=
  Z.of_nat (List.length (instructions recipe)).

(** The [keydown] listener; it is registered only while cook mode is
    on. *)
Definition handleKeyDown (recipe : Recipe) (key : string) (s : ResultState)
  : ResultState :=
  if negb (isCookMode s) then s
  else if String.eqb key "ArrowRight" then
    if (activeStep s <? totalSteps recipe - 1)%Z
    then setActiveStep (activeStep s + 1) s else s
  else if String.eqb key "ArrowLeft" then
    if (0 <? activeStep s)%Z then setActiveStep (activeStep s - 1) s else s
  else if String.eqb key "Escape" then setIsCookMode false s
  else s.

(** The Previous button: [disabled={activeStep === 0}], else
    [setActiveStep(prev => Math.max(0, prev - 1))]. *)
Definition click_previous (s : ResultState) : ResultState :=
  if (activeStep s =? 0)%Z then s
  else setActiveStep (Z.max 0 (activeStep s - 1)) s.

(** The button at the right: Next Step while
    [activeStep < totalSteps - 1], with
    [setActiveStep(prev => Math.min(totalSteps - 1, prev + 1))]; Finish
    Cooking otherwise, which leaves cook mode. *)
Definition click_next_or_finish (recipe : Recipe) (s : ResultState)
  : ResultState :=
  if (activeStep s <? totalSteps recipe - 1)%Z
  then setActiveStep (Z.min (totalSteps recipe - 1) (activeStep s + 1)) s
  else setIsCookMode false s.

(** What the user does on the page in cook mode. *)
Inductive cook_action : Type :=
| PressKey (key : string)
| ClickPrevious
| ClickNextOrFinish
| ClickExitCookMode
| ClickStartCooking.

Definition cook_step (recipe : Recipe) (s : ResultState) (a : cook_action)
  : ResultState :=
  match a with
  | PressKey key => handleKeyDown recipe key s
  | ClickPrevious => if isCookMode s then click_previous s else s
  | ClickNextOrFinish =>
      if isCookMode s then click_next_or_finish recipe s else s
  | ClickExitCookMode => setIsCookMode false s
  | ClickStartCooking => setIsCookMode true s
  end.

(** The step shown in cook mode: [recipe.instructions[activeStep]]. *)
Definition shown_step (recipe : Recipe) (s : ResultState) : option string :=
  at_Z (instructions recipe) (activeStep s).

(** *** The slideshow *)

(** [startSlideshow] *)
Definition startSlideshow (s : ResultState) : ResultState :=
  setCurrentSlide 0 (setIsPlayingSlideshow true (setVideoError None s)).

(** [totalSlides]: the title, the steps, the end. *)
Definition totalSlides (recipe : Recipe) : Z :=
  1 + Z.of_nat (List.length (instructions recipe)) + 1.

(** The delay of the timer the auto-advance effect arms, or [None] when it
    arms none: the slideshow is not playing, or the slide is the last. *)
Definition slide_timer (recipe : Recipe) (s : ResultState) : option Z :=
  if negb (isPlayingSlideshow s) then None
  else if (currentSlide s =? 0)%Z then Some 4000%Z
  else if (currentSlide s =? totalSlides recipe - 1)%Z then None
  else Some 6000%Z.

(** The timer's callback:
    [setCurrentSlide(prev => prev < totalSlides - 1 ? prev + 1 : prev)]. *)
Definition slide_timeout (recipe : Recipe) (s : ResultState) : ResultState :=
  if (currentSlide s <? totalSlides recipe - 1)%Z
  then setCurrentSlide (currentSlide s + 1) s else s.

(** What [getSlideshowContent] renders. *)
Inductive slide : Type :=
| TitleSlide (heading text : string)
| StepSlide (number : Z) (text : option string)
| EndSlide (kcal prot : number).

Definition getSlideshowContent (recipe : Recipe) (s : ResultState) : slide :=
  if (currentSlide s =? 0)%Z then TitleSlide (title recipe) (description recipe)
  else if (currentSlide s <=? Z.of_nat (List.length (instructions recipe)))%Z then
    let index := (currentSlide s - 1)%Z in
    StepSlide (index + 1) (at_Z (instructions recipe) index)
  else EndSlide (calories (macros recipe)) (protein (macros recipe)).

(** The slideshow left to itself: each slide with the time it stays, until
    a slide arms no timer. *)
Fixpoint slideshow_schedule (fuel : nat) (recipe : Recipe) (s : ResultState)
  : list (slide * option Z) :=
  match fuel with
  | O => []
  | S fuel' =>
      (getSlideshowContent recipe s, slide_timer recipe s)
      :: match slide_timer recipe s with
         | Some _ => slideshow_schedule fuel' recipe (slide_timeout recipe s)
         | None => []
         end
  end.

(** The step slides of a list of instructions, numbered from [i + 1]. *)
Fixpoint step_slides (i : Z) (l : list string) : list (slide * option Z) :=
  match l with
  | [] => []
  | text :: rest =>
      (StepSlide (i + 1) (Some text), Some 6000%Z) :: step_slides (i + 1) rest
  end.

(** *** The video button *)

(** [window.aistudio], when defined: the truthiness of what
    [hasSelectedApiKey()] returns, and how the awaited [openSelectKey()]
    settles. *)
Record AIStudio : Type := mkAIStudio {
  hasSelectedApiKey : completion bool;
  openSelectKey : completion unit
}.

(** What the handler does that the outside can see. *)
Inductive ui_event : Type :=
| AskHasSelectedApiKey
| OpenSelectKey
| CallGenerateRecipeVideo
| LogError (label : string).

(** The [catch] clause of [handleGenerateVideo]; the outcome of the key
    dialog it opens is discarded. *)
Definition video_failed (aistudio : option AIStudio) (err : js_error)
  (s : ResultState) : ResultState * list ui_event :=
  if truthy (message err)
     && includes (message err) "Requested entity was not found"
  then
    (setVideoError (Some "Authorization failed. Please select a valid API key.") s,
     LogError "Video generation failed"
     :: match aistudio with Some _ => [OpenSelectKey] | None => [] end)
  else
    (setVideoError (Some "Video generation unavailable right now.") s,
     [LogError "Video generation failed"]).

(** [handleGenerateVideo], given how the awaited [generateRecipeVideo]
    ends; while that call is still polling the handler is suspended at the
    [await]. *)
Definition handleGenerateVideo (aistudio : option AIStudio)
  (video : outcome (option string)) (s : ResultState)
  : ResultState * list ui_event :=
  if isGeneratingVideo s then (s, [])
  else
    let s1 := setVideoError None s in
    let finally (tr : list ui_event) (p : ResultState * list ui_event) :=
      (setIsGeneratingVideo false (fst p), (tr ++ snd p)%list) in
    let key_step : list ui_event * completion unit :=
      match aistudio with
      | None => ([], Normal tt)
      | Some a =>
          match hasSelectedApiKey a with
          | Throw err => ([AskHasSelectedApiKey], Throw err)
          | Normal true => ([AskHasSelectedApiKey], Normal tt)
          | Normal false => ([AskHasSelectedApiKey; OpenSelectKey], openSelectKey a)
          end
      end in
    match key_step with
    | (tr, Throw err) => finally tr (video_failed aistudio err s1)
    | (tr, Normal _) =>
        let s2 := setIsGeneratingVideo true s1 in
        let tr2 := (tr ++ [CallGenerateRecipeVideo])%list in
        match video with
        | StillPolling => (s2, tr2)
        | Threw err => finally tr2 (video_failed aistudio err s2)
        | Returned url =>
            match url with
            | Some u =>
                if truthy u then finally tr2 (setVideoUrl (Some u) s2, [])
                else finally tr2
                       (setVideoError
                          (Some "Could not generate video. Please try again.") s2, [])
            | None =>
                finally tr2
                  (setVideoError
                     (Some "Could not generate video. Please try again.") s2, [])
            end
        end
    end.

(** The key step lets the handler through: there is no [aistudio], or a
    key is selected, or the key dialog resolves. *)
Definition key_step_passes (aistudio : option AIStudio) : bool :=
  match aistudio with
  | None => true
  | Some a =>
      match hasSelectedApiKey a with
      | Normal true => true
      | Normal false =>
          match openSelectKey a with Normal _ => true | Throw _ => false end
      | Throw _ => false
      end
  end.

(* ================================================================== *)
(** ** The cookbook cards ([FavoritesList.tsx]) *)
(* ================================================================== *)

(** [fav.rating || 0] *)
Definition rating_or_0 (fav : SavedRecipe) : number :=
  match rating fav with
  | Some r => if number_truthy r then r else zero
  | None => zero
  end.

(** The stars of a card, [[1, 2, 3, 4, 5]], and whether one is drawn
    filled: [star <= (fav.rating || 0)]. *)
Definition stars : list Z := [1; 2; 3; 4; 5]%Z.

Definition star_filled (fav : SavedRecipe) (star : Z) : bool :=
  JSMath.leb (JSNumber.of_Z star) (rating_or_0 fav).

(** [handleRate(rating)] of a card, as far as the application's state
    goes: [onRate(fav.id, rating)]. *)
Definition handleRate (fav : SavedRecipe) (star : Z) (st : AppState) : AppState :=
  handleRateRecipe (id fav) (JSNumber.of_Z star) st.

(** The time a schedule takes: the sum of its timers. *)
Definition schedule_duration (l : list (slide * option Z)) : Z :=
  fold_right
    (fun p acc => match snd p with Some d => (d + acc)%Z | None => acc end)
    0%Z l.

(** A cookbook entry for the sample recipe, rated [r]. *)
Definition rated_favorite (r : Z) : SavedRecipe :=
  mkSavedRecipe sample_recipe "id-1" 1700000000000 None (Some (JSNumber.of_Z r)).

(* ================================================================== *)
(** ** Sharing ([RecipeResult.tsx]) *)
(* ================================================================== *)





(** What [getShareContent] returns; [url] is [window.location.href]. *)
Record ShareContent : Type := mkShareContent {
  share_title : string;
  fullText : string;
  shortText : string;
  share_url : string
}.

Definition getShareContent (href : string) (recipe : Recipe) (s : ResultState)
  : ShareContent :=
  let baseServings := servings_or_4 recipe in
  let ingredientsList :=
    join nl
      (map (fun ing =>
              "- " ++ formatIngredientText ing baseServings (currentServings s))
         (ingredients recipe)) in
  let fullText :=
    "Check out this recipe for " ++ title recipe ++ "!" ++ nl ++ nl
    ++ description recipe ++ nl ++ nl
    ++ "Serves: " ++ toString (currentServings s) ++ nl ++ nl
    ++ "Ingredients:" ++ nl ++ ingredientsList ++ nl ++ nl
    ++ "Instructions:" ++ nl ++ join nl (numbered 0 (instructions recipe)) in
  let shortText :=
    "Check out this AI-generated recipe for " ++ title recipe ++ "! #ChefGenie" in
  mkShareContent (title recipe) fullText shortText href.




(** The text of a structured ingredient as the recipe gives it. *)
Definition unscaled_text (ing : ingredient_entry) : string :=
  match ing with
  | Plain s => s
  | Structured i => join " " (filter truthy [quantity i; unit_ i; item i])
  end.

(** Presses of the plus and minus buttons of the serving control, each
    [updateServings(1)] or [updateServings(-1)]; the minus button does
    nothing while it is disabled. *)
Inductive serving_press : Type := PressPlus | PressMinus.

Definition press (s : ResultState) (p : serving_press) : ResultState :=
  match p with
  | PressPlus => updateServings (JSNumber.of_Z 1) s
  | PressMinus =>
      if minus_disabled s then s else updateServings (JSNumber.of_Z (-1)) s
  end.

(** The serving count the presses lead to, on whole numbers. *)
Definition press_count (c : Z) (p : serving_press) : Z :=
  match p with
  | PressPlus => (c + 1)%Z
  | PressMinus => Z.max 1 (c - 1)
  end.

(** A recipe for [n] with one structured ingredient. *)
Definition recipe_for (n : Z) (ing : Ingredient) : Recipe :=
  mkRecipe "Rice" "Plain rice." "20 mins" "Easy" (JSNumber.of_Z n)
    [Structured ing] ["Boil."] sample_macros.

(** The fractions whose glyphs the formatter prints, as exact ratios. *)
Definition fraction_glyphs : list (Z * Z * string) :=
  [(1, 4, "¼"); (1, 3, "⅓"); (1, 2, "½"); (2, 3, "⅔"); (3, 4, "¾")]%Z.

(** The whole part in front of a glyph: nothing for 0, else the number and
    a space. *)
Definition whole_text (k : Z) : string :=
  if (k =? 0)%Z then "" else JSString.of_Z k ++ " ".

(** A character that ends the number [parseFloat] reads after a run of
    digits: no digit, no point, no exponent letter. *)
Definition ends_number (c : ascii) : bool :=
  negb (is_digit c)
  && negb ((code c =? 46) || (code c =? 101) || (code c =? 69))%N.

(** The text of a decimal quantity: a whole part, a point, and fraction
    digits. *)
Definition decimal_text (whole : Z) (fraction : string) : string :=
  JSString.of_Z whole ++ "." ++ fraction.

(** The number its digits write when the point is left out: for ["1.25"],
    125. *)
Definition decimal_digits (whole : Z) (fraction : string) : Z :=
  (whole * 10 ^ Z.of_nat (String.length fraction)
   + Z.of_N (digits_value fraction))%Z.

(* ================================================================== *)
(** ** Numbers: what the rounding functions of [SpecFloat] return *)
(* ================================================================== *)

Section ShiftRight.

(** Shifting a record right keeps its mantissa non-negative. *)
Lemma shr_1_nonneg (mrs : shr_record) :
  (0 <= shr_m mrs)%Z -> (0 <= shr_m (shr_1 mrs))%Z.
Proof.
  destruct mrs as [m r s]. cbn.
  destruct m as [|[p|p|]|p]; cbn; intros H; try lia.
Qed.

Lemma iter_shr_1_nonneg (n : positive) :
  forall mrs, (0 <= shr_m mrs)%Z -> (0 <= shr_m (SpecFloat.iter_pos shr_1 n mrs))%Z.
Proof.
  induction n as [n IH|n IH|]; intros mrs H; cbn.
  - apply IH, IH, shr_1_nonneg, H.
  - apply IH, IH, H.
  - apply shr_1_nonneg, H.
Qed.

Lemma shr_fexp_nonneg (m e : Z) (l : location) :
  (0 <= m)%Z -> (0 <= shr_m (fst (shr_fexp prec emax m e l)))%Z.
Proof.
  intros H. unfold shr_fexp, shr.
  assert (H0 : (0 <= shr_m (shr_record_of_loc m l))%Z)
    by (destruct l as [|[| |]]; exact H).
  destruct (fexp prec emax (Zdigits2 m + e) - e)%Z; cbn; auto.
  apply iter_shr_1_nonneg, H0.
Qed.

Lemma round_nearest_even_nonneg (m : Z) (l : location) :
  (0 <= m)%Z -> (0 <= round_nearest_even m l)%Z.
Proof.
  intros H. destruct l as [|[| |]]; cbn; try lia.
  destruct (Z.even m); lia.
Qed.

(** Rounding a non-negative mantissa never gives [NaN]. *)
Lemma binary_round_aux_not_nan (s : bool) (m e : Z) (l : location) :
  (0 <= m)%Z -> isNaN (binary_round_aux prec emax s m e l) = false.
Proof.
  intros H. unfold binary_round_aux.
  pose proof (shr_fexp_nonneg m e l H) as H1.
  destruct (shr_fexp prec emax m e l) as [mrs' e'].
  cbn [fst] in H1.
  pose proof (shr_fexp_nonneg _ e' loc_Exact
                (round_nearest_even_nonneg _ (loc_of_shr_record mrs') H1)) as H2.
  destruct (shr_fexp prec emax _ e' loc_Exact) as [mrs'' e''].
  cbn [fst] in H2.
  destruct (shr_m mrs'') as [|p|p]; try reflexivity; [|lia].
  destruct (e'' <=? emax - prec)%Z; reflexivity.
Qed.

Lemma binary_round_not_nan (s : bool) (m : positive) (e : Z) :
  isNaN (binary_round prec emax s m e) = false.
Proof.
  unfold binary_round.
  destruct (shl_align m e _) as [mz ez].
  apply binary_round_aux_not_nan. lia.
Qed.

Lemma round_div_not_nan (s : bool) (a b : positive) :
  isNaN (round_div s a b) = false.
Proof.
  unfold round_div, SFdiv_core_binary.
  set (m' := match (0 - 0 - _)%Z with Z0 => _ | Zpos _ => _ | Zneg _ => _ end).
  assert (Hm : (0 <= m')%Z).
  { subst m'. destruct (0 - 0 - _)%Z; try lia.
    rewrite Z.shiftl_mul_pow2 by lia. apply Z.mul_nonneg_nonneg; lia. }
  pose proof (Z.div_eucl_eq m' (Zpos b) ltac:(lia)) as Hq.
  pose proof (Z.mod_pos_bound m' (Zpos b) ltac:(lia)) as Hr.
  unfold Z.modulo in Hr.
  destruct (Z.div_eucl m' (Zpos b)) as [q r].
  apply binary_round_aux_not_nan. nia.
Qed.

Lemma of_decimal_not_nan (s : bool) (m : N) (e : Z) :
  isNaN (of_decimal s m e) = false.
Proof.
  unfold of_decimal. destruct m as [|p]; [reflexivity|].
  destruct e; auto using binary_round_not_nan, round_div_not_nan.
Qed.

End ShiftRight.

(* ================================================================== *)
(** ** The quantity scaler: what it reads, what it passes through *)
(* ================================================================== *)

Lemma span_digits_nonempty (c : ascii) (r : string) :
  truthy (fst (span_digits (String c r))) = is_digit c.
Proof.
  cbn. destruct (is_digit c); [|reflexivity].
  destruct (span_digits r); reflexivity.
Qed.

Lemma append_empty_iff (a b : string) :
  truthy (a ++ b) = truthy a || truthy b.
Proof. destruct a; [destruct b|]; reflexivity. Qed.

(** [parseFloat] gives [NaN] exactly on the strings with no numeric
    prefix. *)
Lemma parseFloat_nan_iff (s : string) :
  isNaN (parseFloat s) = negb (has_numeric_prefix s).
Proof.
  unfold parseFloat, has_numeric_prefix.
  set (t := trimStart s).
  assert (Hsign :
            (let '(neg, t1) :=
               match t with
               | String c r =>
                   if (code c =? 45)%N then (true, r)
                   else if (code c =? 43)%N then (false, r)
                   else (false, t)
               | EmptyString => (false, t)
               end in t1) = after_sign t).
  { unfold after_sign. destruct t as [|c r]; [reflexivity|].
    destruct (code c =? 45)%N; [reflexivity|].
    destruct (code c =? 43)%N; reflexivity. }
  destruct (match t with
            | String c r =>
                if (code c =? 45)%N then (true, r)
                else if (code c =? 43)%N then (false, r)
                else (false, t)
            | EmptyString => (false, t)
            end) as [neg t1].
  rewrite <- Hsign. clear Hsign.
  destruct (prefix_rest "Infinity" t1); [reflexivity|].
  destruct t1 as [|c r]; [reflexivity|].
  pose proof (span_digits_nonempty c r) as Hip.
  destruct (span_digits (String c r)) as [ip t2] eqn:Hsp.
  cbn [fst] in Hip.
  destruct (is_digit c) eqn:Hc.
  - (* a digit first *)
    cbn [orb negb].
    destruct t2 as [|c2 r2].
    + destruct ip; [discriminate|]. cbn. apply of_decimal_not_nan.
    + destruct (code c2 =? 46)%N; [destruct (span_digits r2)|];
        (destruct ip; [discriminate|]); cbn; apply of_decimal_not_nan.
  - (* no digit first: the run is empty and nothing was consumed *)
    cbn in Hsp. rewrite Hc in Hsp. injection Hsp as <- <-.
    cbn [orb].
    destruct (code c =? 46)%N; [|reflexivity].
    cbn [andb].
    destruct r as [|c' r']; [reflexivity|].
    pose proof (span_digits_nonempty c' r') as Hfp.
    destruct (span_digits (String c' r')) as [fp t3].
    cbn [fst] in Hfp. rewrite <- Hfp.
    destruct fp; [reflexivity|]. cbn. apply of_decimal_not_nan.
Qed.

(** A string that includes the separator splits into two pieces at
    least. *)
Lemma split_includes (c : ascii) (q : string) :
  includes q (String c EmptyString) = true ->
  exists a b rest, split c q = a :: b :: rest.
Proof.
  induction q as [|x q IH]; cbn; [discriminate|].
  rewrite Ascii.eqb_sym.
  destruct (Ascii.eqb x c).
  - intros _. destruct q as [|y q']; cbn; [eauto|].
    destruct (Ascii.eqb y c); [eauto|].
    destruct (split c q'); eauto.
  - intros H. destruct (IH H) as (a & b & rest & ->). eauto.
Qed.

Lemma split_nonempty (c : ascii) (q : string) : split c q <> [].
Proof.
  destruct q as [|x q]; cbn; [discriminate|].
  destruct (Ascii.eqb x c); [discriminate|].
  destruct (split c q); discriminate.
Qed.

(** [toFixed] with one fraction digit never throws. *)
Lemma toFixed_1_normal (v : number) : exists s, toFixed 1 v = Normal s.
Proof.
  unfold toFixed.
  change ((1 <? 0) || (100 <? 1))%Z with false. cbv iota.
  destruct v as [z|i| |neg m e]; try (eexists; reflexivity).
  destruct (10 ^ 21 * mag_den e <=? mag_num m e)%Z; eexists; reflexivity.
Qed.

(** [formatNumber] never throws: the one call that can, [toFixed], is made
    with one fraction digit. *)
Lemma formatNumber_normal (v : number) : exists s, formatNumber v = Normal s.
Proof.
  unfold formatNumber.
  repeat match goal with
         | |- context [if ?b then _ else _] => destruct b; eauto
         end.
  destruct (toFixed_1_normal v) as [s ->]. eexists. reflexivity.
Qed.

(** The [try] block of [getScaledQuantity] never throws. *)
Lemma scale_try_normal (q : string) (ratio : number) :
  exists o, scale_try q ratio = Normal o.
Proof.
  unfold scale_try.
  repeat match goal with
         | |- context [formatNumber ?x] =>
             let s := fresh "s" in
             let E := fresh "E" in
             destruct (formatNumber_normal x) as [s E]; rewrite E; clear E
         | |- context [if ?b then _ else _] => destruct b; cbn [bind]; eauto
         end.
Qed.

Lemma existsb_reads_no_number (sep : ascii) (q : string) :
  existsb reads_no_number (split sep q) = true ->
  forallb (fun p => negb (isNaN p)) (parse_parts sep q) = false.
Proof.
  unfold parse_parts. induction (split sep q) as [|p l IH]; cbn; [discriminate|].
  intros H. apply orb_true_iff in H. destruct H as [H|H].
  - unfold reads_no_number in H. rewrite parseFloat_nan_iff, H. reflexivity.
  - rewrite (IH H). apply andb_false_r.
Qed.

(** C1, as amended. The scaler returns the quantity as it is when the
    quantity is empty, when the two serving counts are equal, or when it
    cannot read the quantity: [parseFloat] finds no number at the front of
    a piece it needs, or the denominator reads as zero. It never throws: its
    [try] block ends normally on every string. In particular ["pinch"] and
    ["1/0"] come back unchanged. *)
Theorem C1_passthrough (q : string) (b t : number)
  (H : q = EmptyString \/ strict_eq b t = true \/ unscalable q = true) :
  getScaledQuantity q b t = q
  /\ (forall q' ratio, exists o, scale_try q' ratio = Normal o)
  /\ scale "pinch" 2 4 = "pinch"
  /\ scale "1/0" 2 4 = "1/0".
Proof.
  split; [|split; [exact scale_try_normal|split; vm_compute; reflexivity]].
  unfold getScaledQuantity.
  destruct q as [|c q']; [reflexivity|].
  cbn [truthy negb].
  destruct H as [H|[H|H]]; [discriminate|rewrite H; reflexivity|].
  destruct (strict_eq b t); [reflexivity|].
  set (q := String c q') in *.
  assert (Hnone : scale_try q (div t b) = Normal None); [|rewrite Hnone; reflexivity].
  unfold unscalable in H. unfold scale_try.
  destruct (includes q "-").
  - rewrite (existsb_reads_no_number _ _ H). reflexivity.
  - destruct (includes q "/") eqn:Hs.
    + destruct (split_includes _ _ Hs) as (x & y & rest & E).
      unfold parse_parts. rewrite E in *. cbn [map at_index nth].
      unfold reads_no_number in H. rewrite !parseFloat_nan_iff.
      destruct (has_numeric_prefix (trim x)); cbn in H |- *; [|reflexivity].
      destruct (has_numeric_prefix (trim y)); cbn in H |- *; [|reflexivity].
      rewrite H. reflexivity.
    + rewrite parseFloat_nan_iff, H. reflexivity.
Qed.

(** An instance of C1: a word in place of a number. *)
Lemma C1_witness_pinch :
  getScaledQuantity "pinch" (JSNumber.of_Z 2) (JSNumber.of_Z 4) = "pinch".
Proof.
  exact (proj1 (C1_passthrough "pinch" (JSNumber.of_Z 2) (JSNumber.of_Z 4)
                  (or_intror (or_intror eq_refl)))).
Defined.

(** C1 as first stated fails: ["2 cups"] is none of the shapes the
    specification lists, and the scaler turns it into ["4"]. *)
Lemma C1_counterexample_two_cups :
  spec_scalable_shape "2 cups" = false
  /\ scale "2 cups" 2 4 = "4"
  /\ scale "2 cups" 2 4 <> "2 cups".
Proof.
  split; [vm_compute; reflexivity|].
  split; [vm_compute; reflexivity|].
  vm_compute. discriminate.
Qed.

(** C2. With a non-empty quantity and different serving counts, where
    [ratio = target / base]: a quantity with a ["-"] splits into pieces; when
    all of them read as numbers the first two are scaled and formatted and
    joined by ["-"]. Otherwise a quantity with a ["/"] splits into numerator
    and denominator; when both read as numbers and the denominator is not
    zero, their quotient times the ratio is formatted. Otherwise the whole
    string is read, and its value times the ratio is formatted. *)
Theorem C2_parse_priority (q : string) (b t : number)
  (Hq : truthy q = true) (Hbt : strict_eq b t = false) :
  let ratio := div t b in
  (includes q "-" = true ->
   exists x y rest,
     split "-" q = x :: y :: rest
     /\ (forallb (fun p => negb (isNaN p)) (parse_parts "-" q) = true ->
         exists lo hi,
           formatNumber (mul (parseFloat (trim x)) ratio) = Normal lo
           /\ formatNumber (mul (parseFloat (trim y)) ratio) = Normal hi
           /\ getScaledQuantity q b t = lo ++ "-" ++ hi))
  /\ (includes q "-" = false -> includes q "/" = true ->
      exists x y rest,
        split "/" q = x :: y :: rest
        /\ (isNaN (parseFloat (trim x)) = false ->
            isNaN (parseFloat (trim y)) = false ->
            strict_eq (parseFloat (trim y)) zero = false ->
            exists s,
              formatNumber
                (mul (div (parseFloat (trim x)) (parseFloat (trim y))) ratio)
              = Normal s
              /\ getScaledQuantity q b t = s))
  /\ (includes q "-" = false -> includes q "/" = false ->
      isNaN (parseFloat q) = false ->
      exists s,
        formatNumber (mul (parseFloat q) ratio) = Normal s
        /\ getScaledQuantity q b t = s)
  /\ scale "1/2" 4 8 = "1"
  /\ scale "1/2" 4 6 = "¾"
  /\ scale "1-2" 2 4 = "2-4".
Proof.
  cbn zeta.
  assert (Hg : getScaledQuantity q b t =
               match scale_try q (div t b) with
               | Normal (Some r) => r
               | _ => q
               end).
  { unfold getScaledQuantity. rewrite Hq, Hbt. cbn.
    destruct (scale_try q (div t b)) as [[r|]|]; reflexivity. }
  split; [|split; [|split; [|repeat split; vm_compute; reflexivity]]].
  - intros Hd. destruct (split_includes _ _ Hd) as (x & y & rest & E).
    exists x, y, rest. split; [exact E|]. intros Hall.
    destruct (formatNumber_normal (mul (parseFloat (trim x)) (div t b))) as [lo Hlo].
    destruct (formatNumber_normal (mul (parseFloat (trim y)) (div t b))) as [hi Hhi].
    exists lo, hi. split; [exact Hlo|]. split; [exact Hhi|].
    rewrite Hg. unfold scale_try. rewrite Hd, Hall.
    unfold parse_parts. rewrite E. cbn [map at_index nth].
    rewrite Hlo, Hhi. reflexivity.
  - intros Hd Hs. destruct (split_includes _ _ Hs) as (x & y & rest & E).
    exists x, y, rest. split; [exact E|]. intros Hx Hy Hz.
    destruct (formatNumber_normal
                (mul (div (parseFloat (trim x)) (parseFloat (trim y))) (div t b)))
      as [s Hs'].
    exists s. split; [exact Hs'|].
    rewrite Hg. unfold scale_try. rewrite Hd, Hs.
    unfold parse_parts. rewrite E. cbn [map at_index nth].
    rewrite Hx, Hy, Hz. cbn [negb andb]. rewrite Hs'. reflexivity.
  - intros Hd Hs Hn.
    destruct (formatNumber_normal (mul (parseFloat q) (div t b))) as [s Hs'].
    exists s. split; [exact Hs'|].
    rewrite Hg. unfold scale_try. rewrite Hd, Hs, Hn. cbn [negb].
    rewrite Hs'. reflexivity.
Qed.

(** An instance of C2: a half for four, scaled to six. *)
Lemma C2_witness_half :
  scale "1/2" 4 6 = "¾".
Proof.
  exact (proj1 (proj2 (proj2 (proj2 (proj2
           (C2_parse_priority "1/2" (JSNumber.of_Z 4) (JSNumber.of_Z 6)
              eq_refl eq_refl)))))).
Defined.


(* ================================================================== *)
(** ** The generation service: recipe and image *)
(* ================================================================== *)

Lemma generateRecipe_cases (sdk : Provider) (prefs : UserPreferences) :
  let failed e :=
    ([CallGenerateContent (text_request prefs);
      ConsoleError "Error generating recipe:"], @Throw Recipe e) in
  generateRecipe sdk prefs =
    match generateContent sdk (text_request prefs) with
    | Throw e => failed e
    | Normal None => failed (mkError PlainError "No response from AI")
    | Normal (Some t) =>
        if truthy t then
          match JSON_parse sdk t with
          | Normal r => ([CallGenerateContent (text_request prefs)], Normal r)
          | Throw e => failed e
          end
        else failed (mkError PlainError "No response from AI")
    end.
Proof.
  unfold generateRecipe, text_request.
  destruct (generateContent sdk _) as [[t|]|e]; cbn; try reflexivity.
  destruct (truthy t); reflexivity.
Qed.

Lemma generateRecipe_trace_no_asset_call (sdk : Provider) (prefs : UserPreferences) :
  Forall (fun ev => is_image_call ev = false /\ is_video_call ev = false)
    (fst (generateRecipe sdk prefs)).
Proof.
  rewrite generateRecipe_cases.
  destruct (generateContent sdk _) as [[t|]|e]; cbn;
    [destruct (truthy t); [destruct (JSON_parse sdk t)|]| |];
    cbn; repeat constructor.
Qed.

Lemma generateDishImage_cases (sdk : Provider) (t d : string) :
  generateDishImage sdk t d =
    match generateImages sdk (image_prompt t d) with
    | Throw _ =>
        ([CallGenerateImages (image_prompt t d);
          ConsoleError "Error generating image:"], Normal None)
    | Normal bytes =>
        ([CallGenerateImages (image_prompt t d)],
         Normal match usable_text (Normal bytes) with
                | Some b => Some ("data:image/jpeg;base64," ++ b)
                | None => None
                end)
    end.
Proof.
  unfold generateDishImage, usable_text.
  destruct (generateImages sdk _) as [[b|]|e]; cbn; try reflexivity.
  destruct (truthy b); reflexivity.
Qed.

(** C5. Recipe generation fails exactly when the text endpoint yields no
    usable text (the call rejects, or its text is undefined or empty) or the
    text does not parse. On a failure the handler shows no recipe, surfaces
    the error's message and has issued no image or video request; whenever an
    image request appears, the recipe call had succeeded and the request
    comes right after it. *)
Theorem C5_recipe_generation_failure (sdk : Provider) (st : AppState) :
  let prefs := preferences st in
  let answer := generateContent sdk (text_request prefs) in
  ((exists e, snd (generateRecipe sdk prefs) = Throw e) <->
   (usable_text answer = None \/
    exists t e, usable_text answer = Some t /\ JSON_parse sdk t = Throw e))
  /\ (forall e, snd (generateRecipe sdk prefs) = Throw e ->
      let st' := fst (handleGenerate sdk st) in
      let tr := snd (handleGenerate sdk st) in
      recipe st' = None /\ displayed_recipe st' = None
      /\ error st' =
           Some ("Oops! The kitchen is a bit chaotic right now. Please try again. "
                 ++ message e)
      /\ loading st' = false /\ isImageLoading st' = false
      /\ Forall (fun ev => is_image_call ev = false /\ is_video_call ev = false) tr)
  /\ (Exists (fun ev => is_image_call ev = true) (snd (handleGenerate sdk st)) ->
      exists r,
        generateRecipe sdk prefs = ([CallGenerateContent (text_request prefs)], Normal r)
        /\ snd (handleGenerate sdk st) =
             (CallGenerateContent (text_request prefs)
              :: fst (generateDishImage sdk (title r) (description r)))%list).
Proof.
  cbn zeta. split; [|split].
  - rewrite generateRecipe_cases. unfold usable_text.
    destruct (generateContent sdk _) as [[t|]|e0]; cbn zeta;
      [destruct (truthy t); [destruct (JSON_parse sdk t) as [r|e1] eqn:Hp|]| |];
      cbn [snd]; split; eauto;
      try (intros [e He]; discriminate);
      try (intros [H|(t' & e & Ht & He)]; [discriminate|];
           injection Ht as <-; congruence);
      try (intros _; right; eauto).
  - intros e He. unfold handleGenerate, handleGenerate_returned.
    pose proof (generateRecipe_trace_no_asset_call sdk (preferences st)) as H.
    destruct (generateRecipe sdk (preferences st)) as [tr [r|e']];
      cbn in He; [discriminate|].
    injection He as ->. cbn. repeat split. exact H.
  - unfold handleGenerate, handleGenerate_returned.
    pose proof (generateRecipe_trace_no_asset_call sdk (preferences st)) as Hno.
    rewrite generateRecipe_cases in *. cbn zeta in *.
    assert (Hcontra : forall tr (e : Prop),
              Forall (fun ev => is_image_call ev = false /\ is_video_call ev = false) tr ->
              Exists (fun ev => is_image_call ev = true) tr -> e) .
    { intros tr e Hall Hex. exfalso. rewrite Exists_exists in Hex.
      destruct Hex as (ev & Hin & Hev). rewrite Forall_forall in Hall.
      destruct (Hall ev Hin). congruence. }
    destruct (generateContent sdk _) as [[t|]|e0];
      [destruct (truthy t); [destruct (JSON_parse sdk t) as [r|e1]|]| |];
      cbn in Hno |- *; try (apply Hcontra; exact Hno).
    destruct (generateDishImage sdk (title r) (description r)) as [tri img] eqn:Hi.
    cbn. intros _. exists r. rewrite Hi. auto.
Qed.

(** An instance of C5: the text endpoint rejects with a network error. *)
Lemma C5_witness_network_error :
  let sdk := sample_provider (Throw network_error) (Normal (Some "QUJD")) in
  snd (generateRecipe sdk sample_prefs) = Throw network_error
  /\ recipe (fst (handleGenerate sdk sample_state)) = None
  /\ error (fst (handleGenerate sdk sample_state)) =
       Some "Oops! The kitchen is a bit chaotic right now. Please try again. Failed to fetch"
  /\ count_events is_image_call (snd (handleGenerate sdk sample_state)) = 0%nat.
Proof.
  cbn zeta.
  pose proof (C5_recipe_generation_failure
                (sample_provider (Throw network_error) (Normal (Some "QUJD")))
                sample_state) as H.
  cbn zeta in H. destruct H as (_ & H & _).
  specialize (H network_error eq_refl).
  destruct H as (Hr & _ & He & _).
  split; [reflexivity|]. split; [exact Hr|]. split; [exact He|reflexivity].
Defined.

(** C6. [generateDishImage] never throws: when the image call rejects, or
    yields no image bytes or empty ones, it resolves to [null], and otherwise
    to the data URI. Once the recipe call has succeeded, whatever the image
    call does, the handler ends with the recipe set and displayed, no error,
    and both loading flags off. *)
Theorem C6_image_best_effort (sdk : Provider) (st : AppState) :
  (forall t d,
      exists tr v, generateDishImage sdk t d = (tr, Normal v)
        /\ (usable_text (generateImages sdk (image_prompt t d)) = None -> v = None)
        /\ (forall b, usable_text (generateImages sdk (image_prompt t d)) = Some b ->
            v = Some ("data:image/jpeg;base64," ++ b)))
  /\ (forall r, snd (generateRecipe sdk (preferences st)) = Normal r ->
      let st' := fst (handleGenerate sdk st) in
      recipe st' = Some (Generated r)
      /\ displayed_recipe st' = Some (Generated r)
      /\ error st' = None /\ loading st' = false /\ isImageLoading st' = false
      /\ recipe (fst (fst (handleGenerate_returned sdk st))) = Some (Generated r)
      /\ displayed_recipe (fst (fst (handleGenerate_returned sdk st)))
         = Some (Generated r)
      /\ recipeImage st' =
           match usable_text
                   (generateImages sdk (image_prompt (title r) (description r)))
           with
           | Some b => Some ("data:image/jpeg;base64," ++ b)
           | None => None
           end).
Proof.
  split.
  - intros t d. rewrite generateDishImage_cases.
    destruct (generateImages sdk _) as [bytes|e].
    + eexists _, _. split; [reflexivity|]. split.
      * intros ->. reflexivity.
      * intros b ->. reflexivity.
    + eexists _, _. split; [reflexivity|]. split; [reflexivity|].
      cbn. discriminate.
  - intros r Hr. unfold handleGenerate, handleGenerate_returned.
    destruct (generateRecipe sdk (preferences st)) as [tr c].
    cbn in Hr. subst c.
    rewrite generateDishImage_cases.
    destruct (generateImages sdk _) as [bytes|e]; cbn; repeat split.
Qed.

(** An instance of C6: the image endpoint rejects. *)
Lemma C6_witness_image_rejects :
  let sdk := sample_provider (Normal (Some "{}")) (Throw network_error) in
  snd (generateDishImage sdk "Lemon Pasta" "Bright and quick.") = Normal None
  /\ displayed_recipe (fst (handleGenerate sdk sample_state))
     = Some (Generated sample_recipe)
  /\ recipeImage (fst (handleGenerate sdk sample_state)) = None.
Proof.
  cbn zeta.
  pose proof (C6_image_best_effort
                (sample_provider (Normal (Some "{}")) (Throw network_error))
                sample_state) as [_ H].
  specialize (H sample_recipe eq_refl). cbn zeta in H.
  destruct H as (_ & Hd & _ & _ & _ & _ & _ & Hi).
  split; [reflexivity|]. split; [exact Hd|exact Hi].
Defined.

(* ================================================================== *)
(** ** The generation service: video polling *)
(* ================================================================== *)

Lemma poll_loop_until_done (ops : list Operation) :
  forall (op0 opd : Operation) (rest : list (completion Operation)),
    done op0 = false ->
    Forall (fun o => done o = false) ops ->
    done opd = true ->
    poll_loop op0 (map Normal (ops ++ [opd]) ++ rest) =
      ((polling_trace (op0 :: ops) ++ [LoopTest true])%list, Returned opd).
Proof.
  induction ops as [|op1 ops IH]; intros op0 opd rest H0 Hops Hd.
  - cbn. rewrite H0. destruct rest; cbn; rewrite Hd; reflexivity.
  - inversion Hops as [|? ? H1 Hops']; subst.
    cbn [app map poll_loop]. rewrite H0.
    rewrite (IH op1 opd rest H1 Hops' Hd). reflexivity.
Qed.

Lemma count_events_app (p : event -> bool) (a b : list event) :
  count_events p (a ++ b) = (count_events p a + count_events p b)%nat.
Proof.
  unfold count_events. rewrite filter_app, length_app. reflexivity.
Qed.

Lemma count_polling_trace (p : event -> bool) (pending : list Operation) :
  (forall o, count_events p
               [LoopTest false; Sleep 5000; CallGetVideosOperation o] = 1%nat) ->
  count_events p (polling_trace pending) = List.length pending.
Proof.
  intros H. induction pending as [|o l IH]; [reflexivity|].
  change (polling_trace (o :: l))
    with ([LoopTest false; Sleep 5000; CallGetVideosOperation o]
          ++ polling_trace l)%list.
  rewrite count_events_app, H, IH. reflexivity.
Qed.

(** C7. Started on an operation that is not done, [generateRecipeVideo]
    sleeps 5000 ms and polls once for every operation it finds not done, stops
    at the first one that reports done, and returns its video reference (with
    the access key appended). When the operation reports not done twice and
    then done (the handle first returned, one poll answer, then the final
    one), the loop condition is tested exactly three times; when three poll
    answers report not done, not done, done, exactly three polls are made. *)
Theorem C7_video_polling (sdk : Provider) (recipe : Recipe)
  (op0 opd : Operation) (ops : list Operation)
  (rest : list (completion Operation)) (uri : string)
  (Hstart : generateVideos sdk (video_prompt recipe) = Normal op0)
  (H0 : done op0 = false)
  (Hops : Forall (fun o => done o = false) ops)
  (Hd : done opd = true)
  (Huri : videoUri opd = Some uri)
  (Hne : truthy uri = true) :
  let run := generateRecipeVideo sdk recipe (map Normal (ops ++ [opd]) ++ rest) in
  snd run = Returned (Some (uri ++ "&key=" ++ API_KEY sdk))
  /\ fst run =
       (CallGenerateVideos (video_prompt recipe)
        :: polling_trace (op0 :: ops) ++ [LoopTest true])%list
  /\ count_events is_poll (fst run) = S (List.length ops)
  /\ count_events is_sleep_5s (fst run) = S (List.length ops)
  /\ count_events is_loop_test (fst run) = S (S (List.length ops))
  /\ (List.length ops = 1%nat ->
      count_events is_loop_test (fst run) = 3%nat)
  /\ (List.length ops = 2%nat -> count_events is_poll (fst run) = 3%nat).
Proof.
  cbn zeta. unfold generateRecipeVideo. rewrite Hstart.
  rewrite (poll_loop_until_done ops op0 opd rest H0 Hops Hd).
  rewrite Huri, Hne. cbn [fst snd].
  assert (Hp : count_events is_poll
                 (CallGenerateVideos (video_prompt recipe)
                  :: polling_trace (op0 :: ops) ++ [LoopTest true])
               = S (List.length ops)).
  { change (CallGenerateVideos (video_prompt recipe)
            :: polling_trace (op0 :: ops) ++ [LoopTest true])%list
      with ([CallGenerateVideos (video_prompt recipe)]
            ++ polling_trace (op0 :: ops) ++ [LoopTest true])%list.
    rewrite !count_events_app, count_polling_trace by reflexivity.
    cbn. lia. }
  assert (Hs : count_events is_sleep_5s
                 (CallGenerateVideos (video_prompt recipe)
                  :: polling_trace (op0 :: ops) ++ [LoopTest true])
               = S (List.length ops)).
  { change (CallGenerateVideos (video_prompt recipe)
            :: polling_trace (op0 :: ops) ++ [LoopTest true])%list
      with ([CallGenerateVideos (video_prompt recipe)]
            ++ polling_trace (op0 :: ops) ++ [LoopTest true])%list.
    rewrite !count_events_app, count_polling_trace by reflexivity.
    cbn. lia. }
  assert (Ht : count_events is_loop_test
                 (CallGenerateVideos (video_prompt recipe)
                  :: polling_trace (op0 :: ops) ++ [LoopTest true])
               = S (S (List.length ops))).
  { change (CallGenerateVideos (video_prompt recipe)
            :: polling_trace (op0 :: ops) ++ [LoopTest true])%list
      with ([CallGenerateVideos (video_prompt recipe)]
            ++ polling_trace (op0 :: ops) ++ [LoopTest true])%list.
    rewrite !count_events_app, count_polling_trace by reflexivity.
    cbn. lia. }
  repeat split; try assumption.
  - intros Hl. rewrite Ht, Hl. reflexivity.
  - intros Hl. rewrite Hp, Hl. reflexivity.
Qed.

(** An instance of C7: the handle and one poll answer report not done, the
    second poll answer reports done. *)
Lemma C7_witness_false_false_true :
  let sdk := sample_provider (Normal None) (Normal None) in
  let run :=
    generateRecipeVideo sdk sample_recipe
      [Normal pending_operation; Normal finished_operation] in
  snd run = Returned (Some "https://video.example/v1?alt=media&key=KEY")
  /\ count_events is_loop_test (fst run) = 3%nat.
Proof.
  cbn zeta.
  pose proof (C7_video_polling (sample_provider (Normal None) (Normal None))
                sample_recipe pending_operation finished_operation
                [pending_operation] [] "https://video.example/v1?alt=media"
                eq_refl eq_refl
                (Forall_cons pending_operation
                   (eq_refl : done pending_operation = false) (Forall_nil _)) eq_refl eq_refl eq_refl)
    as H.
  cbn zeta in H. destruct H as (Hr & _ & _ & _ & _ & H3 & _).
  split; [exact Hr | exact (H3 eq_refl)].
Defined.

(* ================================================================== *)
(** ** Favorites *)
(* ================================================================== *)

Section FindIndex.

Context {A : Type} (p : A -> bool).

Lemma findIndex_lower_bound (l : list A) : (-1 <= findIndex p l)%Z.
Proof.
  induction l as [|x l IH]; cbn; [lia|].
  destruct (p x); [lia|].
  destruct (findIndex p l <? 0)%Z eqn:E; lia.
Qed.

Lemma findIndex_none (l : list A) :
  (findIndex p l < 0)%Z <-> filter p l = [].
Proof.
  induction l as [|x l IH]; cbn.
  - split; [reflexivity|lia].
  - destruct (p x); [split; [lia|discriminate]|].
    destruct (findIndex p l <? 0)%Z eqn:E.
    + apply Z.ltb_lt in E. split; [intros _; apply IH; exact E|lia].
    + apply Z.ltb_ge in E. split; [lia|]. intros H. apply IH in H. lia.
Qed.

(** A found index is the first position that satisfies [p]. *)
Lemma findIndex_first (l : list A) :
  (0 <= findIndex p l)%Z ->
  exists x, nth_error l (Z.to_nat (findIndex p l)) = Some x
            /\ p x = true
            /\ filter p (firstn (Z.to_nat (findIndex p l)) l) = [].
Proof.
  induction l as [|x l IH]; cbn; [lia|].
  destruct (p x) eqn:Hx.
  - intros _. exists x. cbn. auto.
  - destruct (findIndex p l <? 0)%Z eqn:E; [lia|].
    apply Z.ltb_ge in E. intros _.
    destruct (IH E) as (y & Hn & Hy & Hf).
    exists y. replace (Z.to_nat (findIndex p l + 1)) with (S (Z.to_nat (findIndex p l))) by lia.
    cbn. rewrite Hx. auto.
Qed.

Lemma filter_splice1 (q : A -> bool) (l : list A) :
  forall i x, nth_error l i = Some x ->
    List.length (filter q (splice1 i l)) =
      (List.length (filter q l) - (if q x then 1 else 0))%nat.
Proof.
  induction l as [|y l IH]; intros [|i] x H; cbn in H; try discriminate.
  - injection H as ->. cbn. destruct (q x); cbn; lia.
  - cbn. specialize (IH i x H). destruct (q y); cbn; rewrite IH.
    + destruct (q x) eqn:Hq; [|lia].
      assert (0 < List.length (filter q l))%nat; [|lia].
      clear IH. revert i H. induction l as [|z l IHl]; intros [|i] H; cbn in H; try discriminate.
      * injection H as ->. cbn. rewrite Hq. cbn. lia.
      * cbn. destruct (q z); cbn; [lia|]. eapply IHl; eauto.
    + reflexivity.
Qed.

End FindIndex.

Lemma favorites_setFavorites (l : list SavedRecipe) (st : AppState) :
  favorites (setFavorites l st) = l.
Proof. reflexivity. Qed.

(** C8. With a recipe shown, toggling removes the first favorite that has
    its title when there is one, and otherwise puts a new favorite for it at
    the front. Starting without that title, two toggles in succession give
    the favorites back as they were (add, then remove): no entry of the title
    remains. A toggle changes the number of entries of the title by one, up
    from zero or down otherwise, so it never makes a second entry for it, and
    it leaves the entries of every other title as they were. *)
Theorem C8_toggle_favorite (uuid uuid2 : string) (now now2 : Z)
  (st : AppState) (r : shown_recipe) (Hr : recipe st = Some r) :
  let t := title (recipe_of r) in
  let st1 := handleToggleFavorite uuid now st in
  let st2 := handleToggleFavorite uuid2 now2 st1 in
  ((0 < count_title t (favorites st))%nat ->
   exists i f,
     nth_error (favorites st) i = Some f /\ title (saved f) = t
     /\ count_title t (firstn i (favorites st)) = 0%nat
     /\ favorites st1 = splice1 i (favorites st)
     /\ count_title t (favorites st1) = pred (count_title t (favorites st)))
  /\ (count_title t (favorites st) = 0%nat ->
      favorites st1 =
        mkSavedRecipe (recipe_of r) uuid now (recipeImage st) (carried_rating r)
        :: favorites st
      /\ count_title t (favorites st1) = 1%nat
      /\ favorites st2 = favorites st
      /\ count_title t (favorites st2) = 0%nat)
  /\ ((count_title t (favorites st) <= 1)%nat ->
      (count_title t (favorites st1) <= 1)%nat
      /\ (count_title t (favorites st2) <= 1)%nat)
  /\ (forall t', t' <> t ->
      count_title t' (favorites st1) = count_title t' (favorites st)).
Proof.
  cbn zeta.
  assert (Hstep : forall u n s,
             recipe s = Some r ->
             (count_title (title (recipe_of r)) (favorites s) = 0%nat
              /\ handleToggleFavorite u n s =
                   setFavorites
                     (mkSavedRecipe (recipe_of r) u n (recipeImage s) (carried_rating r)
                      :: favorites s) s)
             \/ (exists i f,
                    nth_error (favorites s) i = Some f
                    /\ title (saved f) = title (recipe_of r)
                    /\ count_title (title (recipe_of r)) (firstn i (favorites s)) = 0%nat
                    /\ handleToggleFavorite u n s =
                         setFavorites (splice1 i (favorites s)) s)).
  { intros u n s Hs. unfold handleToggleFavorite. rewrite Hs.
    destruct (0 <=? findIndex (same_title (recipe_of r)) (favorites s))%Z eqn:E.
    - right. apply Z.leb_le in E.
      destruct (findIndex_first _ _ E) as (f & Hn & Hp & Hf).
      exists (Z.to_nat (findIndex (same_title (recipe_of r)) (favorites s))), f.
      repeat split; auto.
      + apply String.eqb_eq. exact Hp.
      + unfold count_title.
        change (fun f0 => (title (saved f0) =? title (recipe_of r))%string)
          with (same_title (recipe_of r)).
        rewrite Hf. reflexivity.
    - left. apply Z.leb_gt in E. apply findIndex_none in E.
      split; [|reflexivity]. unfold count_title.
      change (fun f0 => (title (saved f0) =? title (recipe_of r))%string)
        with (same_title (recipe_of r)).
      rewrite E. reflexivity. }
  assert (Hnew : forall u n img,
             count_title (title (recipe_of r))
               [mkSavedRecipe (recipe_of r) u n img (carried_rating r)] = 1%nat).
  { intros. unfold count_title. cbn. rewrite String.eqb_refl. reflexivity. }
  assert (Hcons : forall t' f l,
             count_title t' (f :: l) =
               ((if String.eqb (title (saved f)) t' then 1 else 0)
                + count_title t' l)%nat).
  { intros. unfold count_title. cbn. destruct (String.eqb _ _); reflexivity. }
  destruct (Hstep uuid now st Hr) as [[H0 E1]|(i & f & Hn & Ht & Hpre & E1)].
  - (* the title is absent: a favorite is added *)
    rewrite E1. cbn [favorites setFavorites].
    assert (Hr1 : recipe (setFavorites
                            (mkSavedRecipe (recipe_of r) uuid now (recipeImage st)
                               (carried_rating r) :: favorites st) st) = Some r)
      by exact Hr.
    destruct (Hstep uuid2 now2 _ Hr1) as [[H0' _]|(j & g & Hn2 & Ht2 & Hpre2 & E2)].
    + cbn [favorites setFavorites] in H0'. rewrite Hcons in H0'.
      cbn in H0'. rewrite String.eqb_refl in H0'. discriminate.
    + rewrite E2. cbn [favorites setFavorites] in *.
      destruct j as [|j].
      * cbn [splice1].
        repeat split; try lia; auto.
        -- rewrite Hcons. cbn. rewrite String.eqb_refl. lia.
        -- rewrite Hcons. cbn. rewrite String.eqb_refl. lia.
        -- intros t' Hne. rewrite Hcons. cbn.
           destruct (String.eqb_spec (title (recipe_of r)) t'); [congruence|reflexivity].
      * exfalso. cbn [firstn] in Hpre2. rewrite Hcons in Hpre2.
        cbn in Hpre2. rewrite String.eqb_refl in Hpre2. discriminate.
  - (* the title is present: its first entry is removed *)
    rewrite E1. cbn [favorites setFavorites].
    assert (Hcount : forall t',
               count_title t' (splice1 i (favorites st)) =
                 (count_title t' (favorites st)
                  - (if String.eqb (title (saved f)) t' then 1 else 0))%nat).
    { intros t'. unfold count_title.
      apply (filter_splice1 (fun f0 => String.eqb (title (saved f0)) t') _ _ _ Hn). }
    assert (Hpos : (0 < count_title (title (recipe_of r)) (favorites st))%nat).
    { unfold count_title.
      apply nth_error_In in Hn.
      assert (Hin : In f (filter (fun f0 => String.eqb (title (saved f0))
                                               (title (recipe_of r))) (favorites st))).
      { apply filter_In. split; [exact Hn|]. apply String.eqb_eq. exact Ht. }
      destruct (filter _ (favorites st)); [destruct Hin|cbn; lia]. }
    assert (Hr1 : recipe (setFavorites (splice1 i (favorites st)) st) = Some r)
      by exact Hr.
    split; [|split; [|split]].
    + intros _. exists i, f. repeat split; auto.
      rewrite Hcount, Ht, String.eqb_refl. lia.
    + intros H0. lia.
    + intros Hle. rewrite Hcount, Ht, String.eqb_refl.
      split; [lia|].
      destruct (Hstep uuid2 now2 _ Hr1) as [[H0' E2]|(j & g & Hn2 & Ht2 & Hpre2 & E2)];
        rewrite E2; cbn [favorites setFavorites] in *.
      * rewrite Hcons. cbn. rewrite String.eqb_refl. lia.
      * unfold count_title.
        rewrite (filter_splice1 _ _ _ _ Hn2).
        fold (count_title (title (recipe_of r)) (splice1 i (favorites st))).
        rewrite Hcount. lia.
    + intros t' Hne. rewrite Hcount.
      destruct (String.eqb_spec (title (saved f)) t'); [congruence|lia].
Qed.

(** An instance of C8: the generated sample recipe is shown and the
    favorites are empty. *)
Lemma C8_witness_add_then_remove :
  let st := setRecipe (Some (Generated sample_recipe)) sample_state in
  let st1 := handleToggleFavorite "id-1" 1700000000000 st in
  let st2 := handleToggleFavorite "id-2" 1700000000001 st1 in
  favorites st1 = [sample_favorite]
  /\ favorites st2 = []
  /\ count_title "Lemon Pasta" (favorites st2) = 0%nat.
Proof.
  cbn zeta.
  pose proof (C8_toggle_favorite "id-1" "id-2" 1700000000000 1700000000001
                (setRecipe (Some (Generated sample_recipe)) sample_state)
                (Generated sample_recipe) eq_refl) as H.
  cbn zeta in H. destruct H as (_ & H & _).
  destruct (H eq_refl) as (H1 & _ & H2 & H3).
  split; [exact H1|]. split; [exact H2|exact H3].
Defined.

(** C9. Rating leaves the list as long as it was; at every position the
    entry keeps its recipe, id, time stamp and image; an entry whose id
    matches gets the rating, any other entry is unchanged. With no matching
    id the list is unchanged. The handler stores that list and touches no
    other part of the state but the shown recipe. *)
Theorem C9_rate_frame (id' : string) (rating' : number) (l : list SavedRecipe) :
  List.length (rate_favorites id' rating' l) = List.length l
  /\ (forall i fav, nth_error l i = Some fav ->
      exists fav',
        nth_error (rate_favorites id' rating' l) i = Some fav'
        /\ saved fav' = saved fav /\ id fav' = id fav
        /\ savedAt fav' = savedAt fav /\ imageUrl fav' = imageUrl fav
        /\ (id fav = id' -> rating fav' = Some rating')
        /\ (id fav <> id' -> fav' = fav))
  /\ ((forall fav, In fav l -> id fav <> id') -> rate_favorites id' rating' l = l)
  /\ (forall st,
      let st' := handleRateRecipe id' rating' st in
      favorites st' = rate_favorites id' rating' (favorites st)
      /\ view st' = view st /\ preferences st' = preferences st
      /\ recipeImage st' = recipeImage st
      /\ isImageLoading st' = isImageLoading st
      /\ loading st' = loading st /\ error st' = error st).
Proof.
  split; [|split; [|split]].
  - unfold rate_favorites. apply length_map.
  - intros i fav H. unfold rate_favorites.
    rewrite nth_error_map, H. cbn.
    destruct (String.eqb_spec (id fav) id') as [E|E].
    + exists (with_rating rating' fav). cbn. repeat split; auto. congruence.
    + exists fav. repeat split; auto. congruence.
  - intros H. unfold rate_favorites.
    induction l as [|f l IH]; [reflexivity|]. cbn.
    rewrite IH by (intros; apply H; right; assumption).
    destruct (String.eqb_spec (id f) id') as [E|E]; [|reflexivity].
    exfalso. apply (H f); [left; reflexivity|exact E].
  - intros st. unfold handleRateRecipe.
    destruct (recipe st) as [[r|f]|]; cbn; try (repeat split; reflexivity).
    destruct (String.eqb (id f) id'); cbn; repeat split; reflexivity.
Qed.

(* ================================================================== *)
(** ** Ingredient rendering *)
(* ================================================================== *)

(** C10. A plain-string ingredient is rendered verbatim whatever the
    serving counts, so a recipe of plain strings shows the same texts at
    every serving count. [isStructuredIngredients] looks at the first element
    only. The serving control is offered exactly when the first ingredient is
    a record and the base serving count is truthy; on a list of the declared
    type all ingredients are then records, and a recipe of plain strings is
    never offered the control. *)
Theorem C10_scaling_only_structured (r : Recipe) :
  (forall s base cur, formatIngredientText (Plain s) base cur = s)
  /\ (Forall (fun ing => is_plain ing = true) (ingredients r) ->
      forall cur, ingredient_texts r cur = map plain_text (ingredients r))
  /\ isStructuredIngredients (ingredients r) =
       match ingredients r with
       | first :: _ => is_structured first
       | [] => false
       end
  /\ (serving_control_offered r = true <->
      isStructuredIngredients (ingredients r) = true
      /\ number_truthy (servings r) = true)
  /\ (serving_control_offered r = true -> homogeneous (ingredients r) ->
      Forall (fun ing => is_structured ing = true) (ingredients r))
  /\ (Forall (fun ing => is_plain ing = true) (ingredients r) ->
      serving_control_offered r = false).
Proof.
  split; [reflexivity|]. split; [|split; [|split; [|split]]].
  - intros H cur. unfold ingredient_texts.
    apply map_ext_in. intros ing Hin.
    rewrite Forall_forall in H. specialize (H ing Hin).
    destruct ing; [discriminate|reflexivity].
  - destruct (ingredients r) as [|[i|s] l]; reflexivity.
  - unfold serving_control_offered, canScale.
    destruct (isStructuredIngredients (ingredients r)); cbn; split.
    + auto.
    + intros [_ H]; exact H.
    + discriminate.
    + intros [H _]; discriminate.
  - unfold serving_control_offered, canScale.
    destruct (ingredients r) as [|[i|s] l]; cbn; try discriminate.
    intros _ [H|H]; [|exact H].
    inversion H; discriminate.
  - unfold serving_control_offered, canScale.
    destruct (ingredients r) as [|[i|s] l]; cbn; try reflexivity.
    intros H. inversion H; discriminate.
Qed.

(** An instance of C10: the legacy recipe at six servings. *)
Lemma C10_witness_legacy :
  ingredient_texts legacy_recipe (JSNumber.of_Z 6)
  = ["2 slices bread"; "1 tbsp butter"]
  /\ serving_control_offered legacy_recipe = false.
Proof.
  destruct (C10_scaling_only_structured legacy_recipe)
    as (_ & H & _ & _ & _ & Hc).
  assert (Hp : Forall (fun ing => is_plain ing = true) (ingredients legacy_recipe)).
  { repeat constructor. }
  split; [exact (H Hp (JSNumber.of_Z 6)) | exact (Hc Hp)].
Defined.

(* ================================================================== *)
(** ** Decimal digits: printing and reading back *)
(* ================================================================== *)

Lemma digit_char_is_digit (d : N) : (d < 10)%N -> is_digit (digit_char d) = true.
Proof.
  intros H. unfold is_digit, digit_char, code.
  rewrite N_ascii_embedding by lia.
  apply andb_true_iff. split; apply N.leb_le; lia.
Qed.

Lemma digit_val_char (d : N) : (d < 10)%N -> digit_val (digit_char d) = d.
Proof.
  intros H. unfold digit_val, digit_char, code.
  rewrite N_ascii_embedding by lia. lia.
Qed.

Lemma append_assoc (a b c : string) : (a ++ b) ++ c = a ++ (b ++ c).
Proof. induction a as [|x a IH]; cbn; congruence. Qed.

Lemma append_empty_r (a : string) : a ++ "" = a.
Proof. induction a as [|x a IH]; cbn; congruence. Qed.

Lemma digits_fuel_acc (f : nat) :
  forall n acc,
    digits_fuel f n acc = digits_fuel f n EmptyString ++ acc.
Proof.
  induction f as [|f IH]; intros n acc; cbn; [reflexivity|].
  destruct (n / 10 =? 0)%N; [reflexivity|].
  rewrite IH. rewrite (IH _ (String _ EmptyString)).
  rewrite append_assoc. reflexivity.
Qed.

(** With enough fuel the digits do not depend on the fuel. *)
Lemma digits_fuel_enough (f : nat) :
  forall g n acc,
    (n < 2 ^ N.of_nat f)%N -> (n < 2 ^ N.of_nat g)%N ->
    (0 < f)%nat -> (0 < g)%nat ->
    digits_fuel f n acc = digits_fuel g n acc.
Proof.
  induction f as [|f IH]; intros g n acc Hf Hg Hf0 Hg0; [lia|].
  destruct g as [|g]; [lia|]. cbn.
  destruct (n / 10 =? 0)%N eqn:E; [reflexivity|].
  apply N.eqb_neq in E.
  assert (Hn : (10 <= n)%N).
  { destruct (N.lt_ge_cases n 10) as [H|H]; [|exact H].
    rewrite N.div_small in E by exact H. congruence. }
  assert (Hdiv : forall h, (n < 2 ^ N.of_nat (S h))%N -> (n / 10 < 2 ^ N.of_nat h)%N).
  { intros h Hh. rewrite Nat2N.inj_succ, N.pow_succ_r' in Hh.
    apply N.Div0.div_lt_upper_bound. lia. }
  assert (Hpos : forall h, (n < 2 ^ N.of_nat (S h))%N -> (0 < h)%nat).
  { intros h Hh. destruct h; [|lia]. cbn in Hh. lia. }
  apply IH; auto.
Qed.

Lemma log2_fuel (n : N) : (n < 2 ^ N.of_nat (S (N.to_nat (N.log2 n))))%N.
Proof.
  rewrite Nat2N.inj_succ, N2Nat.id.
  destruct n as [|p]; [cbn; lia|].
  apply N.log2_spec. lia.
Qed.

(** The digits of a number of one digit, and of a longer one. *)
Lemma of_N_small (n : N) :
  (n < 10)%N -> of_N n = String (digit_char n) EmptyString.
Proof.
  intros H. unfold of_N. cbn.
  rewrite N.div_small, N.mod_small by exact H. reflexivity.
Qed.

Lemma of_N_step (q r : N) :
  (1 <= q)%N -> (r < 10)%N ->
  of_N (10 * q + r) = of_N q ++ String (digit_char r) EmptyString.
Proof.
  intros Hq Hr. unfold of_N.
  set (n := (10 * q + r)%N).
  assert (Ediv : (n / 10 = q)%N).
  { subst n. rewrite N.mul_comm, N.div_add_l by lia.
    rewrite (N.div_small r) by exact Hr. lia. }
  assert (Emod : (n mod 10 = r)%N).
  { subst n. rewrite N.add_comm, N.mul_comm, N.Div0.mod_add.
    apply N.mod_small. exact Hr. }
  remember (digits_fuel (S (N.to_nat (N.log2 q))) q EmptyString) as rhs eqn:Erhs.
  cbn [digits_fuel]. rewrite Ediv, Emod.
  replace (q =? 0)%N with false by (symmetry; apply N.eqb_neq; lia).
  rewrite digits_fuel_acc. f_equal. subst rhs.
  pose proof (log2_fuel n) as Hn. pose proof (log2_fuel q) as Hq'.
  assert (Hq2 : (q < 2 ^ N.of_nat (N.to_nat (N.log2 n)))%N).
  { rewrite Nat2N.inj_succ, N.pow_succ_r' in Hn. lia. }
  assert (Hpos : (0 < N.to_nat (N.log2 n))%nat).
  { destruct (N.to_nat (N.log2 n)); [cbn in Hq2; lia|lia]. }
  apply digits_fuel_enough; auto. lia.
Qed.

(** An induction on numbers that follows their decimal digits. *)
Lemma decimal_induction (P : N -> Prop) :
  (forall r, (r < 10)%N -> P r) ->
  (forall q r, (1 <= q)%N -> (r < 10)%N -> P q -> P (10 * q + r)%N) ->
  forall n, P n.
Proof.
  intros Hsmall Hstep n.
  induction n as [n IH] using (well_founded_induction N.lt_wf_0).
  destruct (N.lt_ge_cases n 10) as [H|H]; [apply Hsmall; exact H|].
  rewrite (N.div_mod n 10) by lia.
  apply Hstep.
  - assert (10 * (n / 10) <= n)%N by (apply N.Div0.mul_div_le).
    destruct (N.eq_0_gt_0_cases (n / 10)) as [E|E]; [|lia].
    apply N.div_small_iff in E; lia.
  - apply N.mod_lt. lia.
  - apply IH. apply N.div_lt; lia.
Qed.

Lemma all_digits_app (a b : string) :
  all_digits (a ++ b) = all_digits a && all_digits b.
Proof.
  induction a as [|c a IH]; cbn; [reflexivity|].
  rewrite IH, andb_assoc. reflexivity.
Qed.

Lemma of_N_all_digits (n : N) : all_digits (of_N n) = true.
Proof.
  induction n as [r Hr|q r Hq Hr IH] using decimal_induction.
  - rewrite of_N_small by exact Hr. cbn.
    rewrite digit_char_is_digit by exact Hr. reflexivity.
  - rewrite of_N_step, all_digits_app, IH by assumption. cbn.
    rewrite digit_char_is_digit by exact Hr. reflexivity.
Qed.

Lemma of_N_nonempty (n : N) : truthy (of_N n) = true.
Proof.
  induction n as [r Hr|q r Hq Hr IH] using decimal_induction.
  - rewrite of_N_small by exact Hr. reflexivity.
  - rewrite of_N_step by assumption. destruct (of_N q); [discriminate|reflexivity].
Qed.

Lemma digits_value_from_app (a b : string) :
  forall acc,
    digits_value_from acc (a ++ b) = digits_value_from (digits_value_from acc a) b.
Proof.
  induction a as [|c a IH]; intros acc; cbn; [reflexivity|]. apply IH.
Qed.

(** Reading the digits of [n] gives [n] back. *)
Lemma digits_value_of_N (n : N) : digits_value (of_N n) = n.
Proof.
  unfold digits_value.
  induction n as [r Hr|q r Hq Hr IH] using decimal_induction.
  - rewrite of_N_small by exact Hr. cbn.
    rewrite digit_val_char by exact Hr. lia.
  - rewrite of_N_step, digits_value_from_app, IH by assumption. cbn.
    rewrite digit_val_char by exact Hr. lia.
Qed.

Lemma span_digits_all (s : string) :
  all_digits s = true -> span_digits s = (s, EmptyString).
Proof.
  induction s as [|c s IH]; cbn; [reflexivity|].
  intros H. apply andb_true_iff in H. destruct H as [Hc Hs].
  rewrite Hc, (IH Hs). reflexivity.
Qed.

(** A string of digits holds no other character. *)
Lemma all_digits_includes (s : string) (c : ascii) :
  all_digits s = true -> is_digit c = false ->
  includes s (String c EmptyString) = false.
Proof.
  intros Hs Hc. induction s as [|x s IH]; cbn; [reflexivity|].
  cbn in Hs. apply andb_true_iff in Hs. destruct Hs as [Hx Hs].
  destruct (Ascii.eqb_spec c x) as [->|_]; [congruence|]. apply IH, Hs.
Qed.

(** White space is no digit: a string that starts with a digit is not
    trimmed at its start. *)
Lemma strip_digit_first (c : ascii) (r : string) :
  is_digit c = true -> strip true (String c r) = String c r.
Proof.
  unfold is_digit. intros H. apply andb_true_iff in H.
  destruct H as [H1 H2]. apply N.leb_le in H1, H2.
  cbn [strip].
  assert (E1 : ws1 c = false).
  { unfold ws1. apply orb_false_iff. split.
    - apply andb_false_iff. right. apply N.leb_gt. lia.
    - apply N.eqb_neq. lia. }
  rewrite E1. destruct r as [|c2 r2]; [reflexivity|].
  assert (E2 : ws2 c c2 = false).
  { unfold ws2. replace (code c =? 194)%N with false; [reflexivity|].
    symmetry. apply N.eqb_neq. lia. }
  rewrite E2. destruct r2 as [|c3 r3]; [reflexivity|].
  assert (E3 : ws3 c c2 c3 = false).
  { unfold ws3.
    replace (code c =? 225)%N with false by (symmetry; apply N.eqb_neq; lia).
    replace (code c =? 226)%N with false by (symmetry; apply N.eqb_neq; lia).
    replace (code c =? 227)%N with false by (symmetry; apply N.eqb_neq; lia).
    replace (code c =? 239)%N with false by (symmetry; apply N.eqb_neq; lia).
    reflexivity. }
  rewrite E3. reflexivity.
Qed.

(** [parseFloat] reads the decimal string of a positive integer as the
    number nearest to it. *)
Lemma parseFloat_of_N (p : positive) :
  parseFloat (of_N (Npos p)) = binary_round prec emax false p 0.
Proof.
  pose proof (of_N_all_digits (Npos p)) as Hall.
  pose proof (of_N_nonempty (Npos p)) as Hne.
  pose proof (digits_value_of_N (Npos p)) as Hval.
  destruct (of_N (Npos p)) as [|c r] eqn:Es; [discriminate|].
  pose proof Hall as Hall'. cbn in Hall'. apply andb_true_iff in Hall'.
  destruct Hall' as [Hc _].
  unfold parseFloat, trimStart. rewrite strip_digit_first by exact Hc.
  assert (H45 : (code c =? 45)%N = false).
  { unfold is_digit in Hc. apply andb_true_iff in Hc. destruct Hc as [H1 _].
    apply N.leb_le in H1. apply N.eqb_neq. lia. }
  assert (H43 : (code c =? 43)%N = false).
  { unfold is_digit in Hc. apply andb_true_iff in Hc. destruct Hc as [H1 _].
    apply N.leb_le in H1. apply N.eqb_neq. lia. }
  rewrite H45, H43.
  assert (HI : prefix_rest "Infinity" (String c r) = None).
  { change (prefix_rest "Infinity" (String c r))
      with (if Ascii.eqb "I"%char c then prefix_rest "nfinity" r else None).
    destruct (Ascii.eqb_spec "I"%char c) as [<-|_]; [discriminate|reflexivity]. }
  rewrite HI, (span_digits_all _ Hall).
  cbn [String.length Z.of_nat exponent_part Z.sub Z.opp Z.add].
  rewrite append_empty_r.
  rewrite Hval. reflexivity.
Qed.

Lemma length_append (a b : string) :
  String.length (a ++ b) = (String.length a + String.length b)%nat.
Proof. induction a as [|x a IH]; cbn; congruence. Qed.

Lemma substring_append_l (a b : string) :
  String.substring 0 (String.length a) (a ++ b) = a.
Proof.
  induction a as [|x a IH]; cbn.
  - destruct b; reflexivity.
  - rewrite IH. reflexivity.
Qed.

Lemma substring_append_r (a b : string) :
  String.substring (String.length a) (String.length b) (a ++ b) = b.
Proof.
  induction a as [|x a IH]; cbn; [|exact IH].
  induction b as [|y b IHb]; cbn; [reflexivity|]. rewrite IHb. reflexivity.
Qed.

(** Removing the first [".0"] of digits followed by [".0"] leaves the
    digits. *)
Lemma replace_point_zero (s : string) :
  all_digits s = true -> replace ".0" "" (s ++ ".0") = s.
Proof.
  induction s as [|c s IH]; [reflexivity|].
  intros H. cbn in H. apply andb_true_iff in H. destruct H as [Hc Hs].
  change (replace ".0" "" (String c s ++ ".0"))
    with (match (if Ascii.eqb "."%char c
                 then prefix_rest "0" (s ++ ".0") else None) with
          | Some rest => "" ++ rest
          | None => String c (replace ".0" "" (s ++ ".0"))
          end).
  destruct (Ascii.eqb_spec "."%char c) as [<-|_]; [discriminate|].
  rewrite (IH Hs). reflexivity.
Qed.

(** [n.toFixed(1)]-style digits of ten times [n]: the digits of [n], a
    point, a zero. *)
Lemma fixed_digits_tenfold (n : Z) :
  (1 <= n)%Z -> fixed_digits (10 * n) 1 = of_N (Z.to_N n) ++ ".0".
Proof.
  intros Hn. unfold fixed_digits.
  replace (Z.to_N (10 * n)) with (10 * Z.to_N n + 0)%N by lia.
  rewrite of_N_step by lia.
  change (String (digit_char 0) "") with "0".
  set (a := of_N (Z.to_N n)).
  assert (Ha : (1 <= String.length a)%nat).
  { pose proof (of_N_nonempty (Z.to_N n)) as H. fold a in H.
    destruct a; [discriminate|cbn; lia]. }
  cbn [Z.eqb]. rewrite length_append. cbn [String.length].
  replace (Z.of_nat (String.length a + 1) <=? 1)%Z with false
    by (symmetry; apply Z.leb_gt; lia).
  replace (Z.to_nat (Z.of_nat (String.length a + 1) - 1)) with (String.length a) by lia.
  rewrite substring_append_l.
  change (Z.to_nat 1) with (String.length "0").
  rewrite substring_append_r. reflexivity.
Qed.

(* ================================================================== *)
(** ** Numbers: powers of two and sizes *)
(* ================================================================== *)

Local Open Scope R_scope.

Lemma pow2_pos (e : Z) : 0 < pow2 e.
Proof. apply powerRZ_lt. lra. Qed.

Lemma pow2_add (a b : Z) : pow2 (a + b) = pow2 a * pow2 b.
Proof. apply powerRZ_add. lra. Qed.

Lemma pow2_0 : pow2 0 = 1.
Proof. reflexivity. Qed.

Lemma pow2_IZR (e : Z) : (0 <= e)%Z -> pow2 e = IZR (2 ^ e).
Proof.
  intros H. destruct e as [|p|p]; [reflexivity| |lia].
  unfold pow2. rewrite <- Zpower_pos_powerRZ. reflexivity.
Qed.

Lemma pow2_1 : pow2 1 = 2.
Proof. exact (powerRZ_1 2). Qed.

Lemma pow2_opp (e : Z) : pow2 (- e) = / pow2 e.
Proof. apply powerRZ_neg'. Qed.

Lemma pow2_ge_1 (e : Z) : (0 <= e)%Z -> 1 <= pow2 e.
Proof.
  intros H. rewrite pow2_IZR by exact H.
  apply IZR_le. pose proof (Z.pow_pos_nonneg 2 e). lia.
Qed.

Lemma pow2_le (a b : Z) : (a <= b)%Z -> pow2 a <= pow2 b.
Proof.
  intros H. replace b with (a + (b - a))%Z by lia. rewrite pow2_add.
  pose proof (pow2_pos a). pose proof (pow2_ge_1 (b - a) ltac:(lia)). nra.
Qed.

Lemma pow2_lt (a b : Z) : (a < b)%Z -> pow2 a < pow2 b.
Proof.
  intros H. replace b with (a + 1 + (b - a - 1))%Z by lia.
  rewrite !pow2_add.
  pose proof (pow2_pos a). pose proof (pow2_ge_1 (b - a - 1) ltac:(lia)).
  rewrite pow2_1. nra.
Qed.

Lemma pow2_lt_inv (a b : Z) : pow2 a < pow2 b -> (a < b)%Z.
Proof.
  intros H. destruct (Z_lt_le_dec a b) as [|Hle]; [assumption|].
  apply pow2_le in Hle. lra.
Qed.

Lemma pow2_succ (e : Z) : pow2 (e + 1) = 2 * pow2 e.
Proof. rewrite pow2_add, pow2_1. ring. Qed.

Lemma pow2_pred (e : Z) : pow2 (e - 1) = pow2 e / 2.
Proof.
  replace e with (e - 1 + 1)%Z at 2 by lia. rewrite pow2_succ. field.
Qed.

(** The number of bits of a positive integer. *)
Lemma digits2_size (p : positive) : digits2_pos p = Pos.size p.
Proof. induction p; cbn; congruence. Qed.

Lemma digits2_bounds (p : positive) :
  (2 ^ (Zpos (digits2_pos p) - 1) <= Zpos p < 2 ^ Zpos (digits2_pos p))%Z.
Proof.
  rewrite digits2_size.
  pose proof (Z.log2_spec (Zpos p) ltac:(lia)) as H.
  assert (E : Z.log2 (Zpos p) = (Zpos (Pos.size p) - 1)%Z).
  { destruct p; cbn [Z.log2 Pos.size]; rewrite ?Pos2Z.inj_succ; lia. }
  rewrite E in H. replace (Z.succ (Zpos (Pos.size p) - 1)) with (Zpos (Pos.size p)) in H by lia.
  exact H.
Qed.

Lemma digits2_unique (p : positive) (d : Z) :
  (2 ^ (d - 1) <= Zpos p < 2 ^ d)%Z -> Zpos (digits2_pos p) = d.
Proof.
  intros [Hlo Hhi].
  pose proof (digits2_bounds p) as [Hlo' Hhi'].
  assert (Hd : (0 < d)%Z).
  { destruct (Z_lt_le_dec 0 d); [assumption|].
    assert (2 ^ d <= 1)%Z; [|lia].
    destruct d; cbn; try lia. }
  destruct (Z.lt_trichotomy (Zpos (digits2_pos p)) d) as [H|[H|H]]; [|exact H|].
  - assert (2 ^ Zpos (digits2_pos p) <= 2 ^ (d - 1))%Z
      by (apply Z.pow_le_mono_r; lia). lia.
  - assert (2 ^ d <= 2 ^ (Zpos (digits2_pos p) - 1))%Z
      by (apply Z.pow_le_mono_r; lia). lia.
Qed.

Lemma value_pos_normal (x : number) :
  pos_normal x ->
  exists m e, x = S754_finite false m e
              /\ digits2_pos m = 53%positive /\ (-1074 <= e <= 971)%Z
              /\ value x = IZR (Zpos m) * pow2 e
              /\ pow2 (e + 52) <= value x < pow2 (e + 53).
Proof.
  intros (m & e & -> & Hd & He). exists m, e. repeat split; try assumption; try lia.
  - cbn. ring.
  - cbn. pose proof (digits2_bounds m) as [Hlo _]. rewrite Hd in Hlo.
    rewrite pow2_add. pose proof (pow2_pos e).
    rewrite (pow2_IZR 52) by lia. apply IZR_le in Hlo.
    change (53 - 1)%Z with 52%Z in Hlo. nra.
  - cbn. pose proof (digits2_bounds m) as [_ Hhi]. rewrite Hd in Hhi.
    rewrite pow2_add. pose proof (pow2_pos e).
    rewrite (pow2_IZR 53) by lia. apply IZR_lt in Hhi. nra.
Qed.

(* ================================================================== *)
(** ** Numbers: rounding to 53 bits *)
(* ================================================================== *)

Lemma IZR_xO (p : positive) : IZR (Zpos p~0) = 2 * IZR (Zpos p).
Proof. rewrite Pos2Z.inj_xO, mult_IZR. reflexivity. Qed.

Lemma IZR_xI (p : positive) : IZR (Zpos p~1) = 2 * IZR (Zpos p) + 1.
Proof. rewrite Pos2Z.inj_xI, plus_IZR, mult_IZR. reflexivity. Qed.

Lemma loc_of_shr_record_of_loc (m : Z) (l : location) :
  loc_of_shr_record (shr_record_of_loc m l) = l
  /\ shr_m (shr_record_of_loc m l) = m.
Proof. destruct l as [|[| |]]; split; reflexivity. Qed.

(** One shift to the right halves the real the record stands for. *)
Lemma located_shr_1 (mrs : shr_record) (x : R) :
  (0 <= shr_m mrs)%Z ->
  located (shr_m mrs) (loc_of_shr_record mrs) x ->
  located (shr_m (shr_1 mrs)) (loc_of_shr_record (shr_1 mrs)) (x * pow2 (-1)).
Proof.
  replace (pow2 (-1)) with (/ 2)
    by (change (-1)%Z with (Z.opp 1); rewrite pow2_opp, pow2_1; reflexivity).
  destruct mrs as [m r s]. cbn [shr_m].
  destruct m as [|[p|p|]|p]; intros Hm; try lia;
    destruct r, s; cbn -[IZR]; rewrite ?(IZR_xO p), ?(IZR_xI p); intros H; lra.
Qed.

Lemma located_iter_shr_1 (n : positive) :
  forall (mrs : shr_record) (x : R),
    (0 <= shr_m mrs)%Z ->
    located (shr_m mrs) (loc_of_shr_record mrs) x ->
    located (shr_m (SpecFloat.iter_pos shr_1 n mrs))
      (loc_of_shr_record (SpecFloat.iter_pos shr_1 n mrs))
      (x * pow2 (- Zpos n)).
Proof.
  induction n as [n IH|n IH|]; intros mrs x Hm H; cbn [SpecFloat.iter_pos].
  - replace (x * pow2 (- Zpos n~1))
      with (x * pow2 (-1) * pow2 (- Zpos n) * pow2 (- Zpos n)).
    + apply IH; [apply iter_shr_1_nonneg, shr_1_nonneg, Hm|].
      apply IH; [apply shr_1_nonneg, Hm|].
      apply located_shr_1; assumption.
    + replace (- Zpos n~1)%Z with (-1 + (- Zpos n + - Zpos n))%Z by lia.
      rewrite !pow2_add. ring.
  - replace (x * pow2 (- Zpos n~0))
      with (x * pow2 (- Zpos n) * pow2 (- Zpos n)).
    + apply IH; [apply iter_shr_1_nonneg, Hm|].
      apply IH; assumption.
    + replace (- Zpos n~0)%Z with (- Zpos n + - Zpos n)%Z by lia.
      rewrite !pow2_add. ring.
  - apply located_shr_1; assumption.
Qed.

(** A located real lies from its mantissa up to the next integer. *)
Lemma located_bounds (m : Z) (l : location) (x : R) :
  located m l x -> IZR m <= x < IZR m + 1.
Proof. destruct l as [|[| |]]; cbn; intros H; lra. Qed.

(** Rounding to nearest, ties to even, moves by a half at most. *)
Lemma round_nearest_even_close (m : Z) (l : location) (x : R) :
  located m l x ->
  Rabs (IZR (round_nearest_even m l) - x) <= / 2
  /\ (m <= round_nearest_even m l <= m + 1)%Z.
Proof.
  destruct l as [|[| |]]; cbn; intros H.
  - subst x. split; [|lia]. rewrite Rminus_diag, Rabs_R0. lra.
  - subst x. destruct (Z.even m); split; try lia.
    + rewrite Rabs_left; lra.
    + rewrite plus_IZR. rewrite Rabs_right; lra.
  - split; [|lia]. rewrite Rabs_left; lra.
  - split; [|lia]. rewrite plus_IZR. rewrite Rabs_right; lra.
Qed.

Lemma fexp_normal (e : Z) :
  (-1074 <= e - 53)%Z -> fexp prec emax e = (e - 53)%Z.
Proof. unfold fexp, SpecFloat.emin, prec, emax. lia. Qed.

(** The core of every rounding operation, on a mantissa of 53 bits or more
    whose rounded value is normal and finite: the result has 53 bits and
    lies within half a unit in the last place of the real [y * 2^ex]. *)
Lemma binary_round_aux_normal (s : bool) (mx : positive) (ex : Z)
  (lx : location) (y : R) :
  let d := Zpos (digits2_pos mx) in
  (53 <= d)%Z -> (-1074 <= d + ex - 53 <= 970)%Z ->
  located (Zpos mx) lx y ->
  exists m e,
    binary_round_aux prec emax s (Zpos mx) ex lx = S754_finite s m e
    /\ digits2_pos m = 53%positive
    /\ (d + ex - 53 <= e <= d + ex - 52)%Z
    /\ Rabs (IZR (Zpos m) * pow2 e - y * pow2 ex) <= pow2 (d + ex - 54).
Proof.
  intros d Hd Hrange Hloc.
  set (e' := (d + ex - 53)%Z).
  set (n := (d - 53)%Z).
  (* the first shift *)
  assert (H1 : exists mrs',
             shr_fexp prec emax (Zpos mx) ex lx = (mrs', e')
             /\ (0 <= shr_m mrs')%Z
             /\ located (shr_m mrs') (loc_of_shr_record mrs') (y * pow2 (- n))).
  { unfold shr_fexp. cbn [Zdigits2]. fold d.
    rewrite fexp_normal by (subst d; lia).
    replace (d + ex - 53 - ex)%Z with n by (subst n; lia).
    destruct (loc_of_shr_record_of_loc (Zpos mx) lx) as [El Em].
    destruct n as [|p|p] eqn:En; try (subst n; lia).
    - exists (shr_record_of_loc (Zpos mx) lx). cbn [shr].
      split; [f_equal; subst e'; lia|]. rewrite El, Em.
      split; [lia|]. change (- 0)%Z with 0%Z. rewrite pow2_0, Rmult_1_r. exact Hloc.
    - exists (SpecFloat.iter_pos shr_1 p (shr_record_of_loc (Zpos mx) lx)).
      cbn [shr]. split; [f_equal; subst e'; lia|].
      split; [apply iter_shr_1_nonneg; rewrite Em; lia|].
      apply located_iter_shr_1; rewrite ?El, ?Em; [lia|exact Hloc]. }
  destruct H1 as (mrs' & E1 & Hm' & Hloc').
  (* the shifted mantissa has 53 bits *)
  pose proof (digits2_bounds mx) as [Hlo Hhi]. fold d in Hlo, Hhi.
  pose proof (located_bounds _ _ _ Hloc) as [Hy1 Hy2].
  pose proof (located_bounds _ _ _ Hloc') as [Hy1' Hy2'].
  assert (Hpn : pow2 (- n) * pow2 n = 1).
  { rewrite <- pow2_add. replace (- n + n)%Z with 0%Z by lia. apply pow2_0. }
  assert (Hb : (2 ^ 52 <= shr_m mrs' < 2 ^ 53)%Z).
  { assert (HloR : pow2 52 * pow2 n <= IZR (Zpos mx)).
    { rewrite <- pow2_add, pow2_IZR by (subst n; lia).
      apply IZR_le. replace (52 + n)%Z with (d - 1)%Z by (subst n; lia). exact Hlo. }
    assert (HhiR : IZR (Zpos mx) + 1 <= pow2 53 * pow2 n).
    { rewrite <- pow2_add, pow2_IZR by (subst n; lia).
      rewrite <- plus_IZR. apply IZR_le.
      replace (53 + n)%Z with d by (subst n; lia). lia. }
    pose proof (pow2_pos n) as Hk. pose proof (pow2_pos (- n)) as Hki.
    rewrite (pow2_IZR 52) in HloR by lia. rewrite (pow2_IZR 53) in HhiR by lia.
    remember (IZR (2 ^ 52)) as A eqn:EA. remember (IZR (2 ^ 53)) as B eqn:EB.
    remember (pow2 n) as k. remember (pow2 (- n)) as ki.
    assert (HA : A <= y * ki).
    { replace A with (A * k * ki) by (rewrite Rmult_assoc, (Rmult_comm k), Hpn; ring).
      apply Rmult_le_compat_r; lra. }
    assert (HB : y * ki < B).
    { replace B with (B * k * ki) by (rewrite Rmult_assoc, (Rmult_comm k), Hpn; ring).
      apply Rmult_lt_compat_r; lra. }
    subst A B. split.
    - assert (IZR (2 ^ 52) < IZR (shr_m mrs' + 1)) by (rewrite plus_IZR; lra).
      apply lt_IZR in H. lia.
    - apply lt_IZR. lra. }
  assert (Hb' : (2 ^ 52 - 1 < shr_m mrs')%Z) by lia.
  (* rounding *)
  destruct (round_nearest_even_close _ _ _ Hloc') as [Hclose Hm1].
  unfold binary_round_aux. rewrite E1.
  remember (round_nearest_even (shr_m mrs') (loc_of_shr_record mrs')) as m1 eqn:Em1def.
  assert (Herr : forall v, v = IZR m1 * pow2 e' ->
                 Rabs (v - y * pow2 ex) <= pow2 (d + ex - 54)).
  { intros v ->.
    replace (IZR m1 * pow2 e' - y * pow2 ex)
      with ((IZR m1 - y * pow2 (- n)) * pow2 e').
    - rewrite Rabs_mult, (Rabs_right (pow2 e')) by (left; apply pow2_pos).
      replace (d + ex - 54)%Z with (e' - 1)%Z by (subst e'; lia).
      rewrite pow2_pred. pose proof (pow2_pos e'). nra.
    - assert (Eex : pow2 ex = pow2 e' * pow2 (- n))
        by (rewrite <- pow2_add; f_equal; subst e' n; lia).
      rewrite Eex. ring. }
  destruct (Z_lt_le_dec m1 (2 ^ 53)) as [Hlt|Hge].
  - (* no carry out of the mantissa *)
    destruct m1 as [|q|q]; try lia.
    assert (Hdq : Zpos (digits2_pos q) = 53%Z) by (apply digits2_unique; lia).
    unfold shr_fexp. cbn [Zdigits2]. rewrite Hdq.
    rewrite fexp_normal by (subst e' d; lia).
    replace (53 + e' - 53 - e')%Z with 0%Z by lia. cbn [shr shr_record_of_loc shr_m].
    replace (e' <=? emax - prec)%Z with true
      by (symmetry; apply Z.leb_le; unfold emax, prec; subst e'; lia).
    exists q, e'. split; [reflexivity|].
    split; [injection Hdq as ->; reflexivity|].
    split; [subst e'; lia|]. apply Herr. reflexivity.
  - (* the mantissa rounded up to 2^53: one more shift, exact *)
    assert (Em1 : m1 = (2 ^ 53)%Z) by lia.
    rewrite Em1. unfold shr_fexp.
    change (Zdigits2 (2 ^ 53)) with 54%Z.
    rewrite fexp_normal by (subst e' d; lia).
    replace (54 + e' - 53 - e')%Z with 1%Z by lia.
    cbn [shr shr_record_of_loc SpecFloat.iter_pos].
    change (shr_m (shr_1 {| shr_m := 2 ^ 53; shr_r := false; shr_s := false |}))
      with (Zpos (2 ^ 52)%positive).
    cbn iota beta.
    replace (e' + 1 <=? emax - prec)%Z with true
      by (symmetry; apply Z.leb_le; unfold emax, prec; subst e'; lia).
    exists (2 ^ 52)%positive, (e' + 1)%Z. split; [reflexivity|].
    split; [reflexivity|]. split; [subst e'; lia|].
    apply Herr. rewrite Em1, pow2_succ.
    change (Zpos (2 ^ 52)) with (2 ^ 52)%Z.
    replace (IZR (2 ^ 53)) with (2 * IZR (2 ^ 52)); [ring|].
    rewrite <- mult_IZR. reflexivity.
Qed.

(** A mantissa of exactly 53 bits is kept as it is. *)
Lemma binary_round_aux_exact (s : bool) (m : positive) (e : Z) :
  digits2_pos m = 53%positive -> (-1074 <= e <= 971)%Z ->
  binary_round_aux prec emax s (Zpos m) e loc_Exact = S754_finite s m e.
Proof.
  intros Hd He. unfold binary_round_aux, shr_fexp. cbn [Zdigits2].
  rewrite Hd. rewrite fexp_normal by lia.
  replace (53 + e - 53 - e)%Z with 0%Z by lia.
  cbn [shr shr_record_of_loc shr_m loc_of_shr_record round_nearest_even Zdigits2].
  rewrite Hd. rewrite fexp_normal by lia.
  replace (53 + e - 53 - e)%Z with 0%Z by lia.
  cbn [shr shr_record_of_loc shr_m].
  replace (e <=? emax - prec)%Z with true
    by (symmetry; apply Z.leb_le; unfold emax, prec; lia).
  reflexivity.
Qed.

Lemma iter_xO_value (m k : positive) :
  Zpos (Pos.iter xO m k) = (Zpos m * 2 ^ Zpos k)%Z.
Proof.
  change (Pos.iter xO m k) with (shift_pos k m).
  rewrite shift_pos_correct, Z.pow_pos_fold. lia.
Qed.

(** Rounding an exact integer mantissa: a result of 53 bits, exact when
    the mantissa had 53 bits at most, within half a unit in the last place
    otherwise. *)
Lemma binary_round_normal (s : bool) (m : positive) (e : Z) :
  let d := Zpos (digits2_pos m) in
  (-1074 <= d + e - 53 <= 970)%Z ->
  exists m' e',
    binary_round prec emax s m e = S754_finite s m' e'
    /\ digits2_pos m' = 53%positive
    /\ (d + e - 53 <= e' <= d + e - 52)%Z
    /\ Rabs (IZR (Zpos m') * pow2 e' - IZR (Zpos m) * pow2 e)
       <= pow2 (d + e - 54)
    /\ ((d <= 53)%Z ->
        e' = (d + e - 53)%Z
        /\ IZR (Zpos m') * pow2 e' = IZR (Zpos m) * pow2 e).
Proof.
  intros d Hrange. unfold binary_round. fold d.
  rewrite fexp_normal by lia.
  unfold shl_align.
  destruct (Z_lt_le_dec d 53) as [Hlt|Hge].
  - (* fewer than 53 bits: aligned to the left, then kept *)
    destruct (d + e - 53 - e)%Z as [|k|k] eqn:Ek; try lia.
    assert (Hk : Zpos k = (53 - d)%Z) by lia.
    pose proof (digits2_bounds m) as [Hlo Hhi]. fold d in Hlo, Hhi.
    assert (Hd2 : digits2_pos (Pos.iter xO m k) = 53%positive).
    { assert (Zpos (digits2_pos (Pos.iter xO m k)) = 53%Z); [|congruence].
      apply digits2_unique. rewrite iter_xO_value, Hk.
      replace (2 ^ (53 - 1))%Z with (2 ^ (d - 1) * 2 ^ (53 - d))%Z
        by (rewrite <- Z.pow_add_r by lia; f_equal; lia).
      replace (2 ^ 53)%Z with (2 ^ d * 2 ^ (53 - d))%Z
        by (rewrite <- Z.pow_add_r by lia; f_equal; lia).
      pose proof (Z.pow_pos_nonneg 2 (53 - d) ltac:(lia) ltac:(lia)). nia. }
    rewrite binary_round_aux_exact by (try exact Hd2; lia).
    assert (Eval : IZR (Zpos (Pos.iter xO m k)) * pow2 (d + e - 53)
                   = IZR (Zpos m) * pow2 e).
    { rewrite iter_xO_value, mult_IZR, <- pow2_IZR by lia.
      rewrite Rmult_assoc, <- pow2_add. do 2 f_equal. lia. }
    exists (Pos.iter xO m k), (d + e - 53)%Z.
    split; [reflexivity|]. split; [exact Hd2|]. split; [lia|].
    split; [|intros _; split; [reflexivity|exact Eval]].
    rewrite Eval, Rminus_diag, Rabs_R0. left. apply pow2_pos.
  - (* 53 bits or more *)
    assert (Hsh : (match (d + e - 53 - e)%Z with
                   | Z.neg d0 => (Pos.iter xO m d0, (d + e - 53)%Z)
                   | _ => (m, e)
                   end) = (m, e)).
    { destruct (d + e - 53 - e)%Z eqn:Ek; try reflexivity. lia. }
    rewrite Hsh.
    destruct (binary_round_aux_normal s m e loc_Exact (IZR (Zpos m)))
      as (m' & e' & E & Hd' & He' & Herr); try (fold d; lia); [reflexivity|].
    fold d in He', Herr.
    exists m', e'. split; [exact E|]. split; [exact Hd'|].
    split; [exact He'|]. split; [exact Herr|].
    intros Hle. assert (Hd53 : d = 53%Z) by lia.
    assert (Hdm : digits2_pos m = 53%positive) by (subst d; congruence).
    rewrite binary_round_aux_exact in E by (try exact Hdm; lia).
    injection E as <- <-. split; [lia|reflexivity].
Qed.

(** An integer from 1 to 2^53 - 1 is a number: its value is exact. *)
Lemma of_Z_exact (z : Z) :
  (1 <= z < 2 ^ 53)%Z ->
  exists m e, JSNumber.of_Z z = S754_finite false m e
              /\ digits2_pos m = 53%positive /\ (-52 <= e <= 0)%Z
              /\ IZR (Zpos m) * pow2 e = IZR z.
Proof.
  intros Hz. destruct z as [|p|p]; try lia.
  unfold JSNumber.of_Z, binary_normalize.
  pose proof (digits2_bounds p) as [Hlo Hhi].
  assert (Hd : (1 <= Zpos (digits2_pos p) <= 53)%Z).
  { split; [lia|].
    destruct (Z_lt_le_dec 53 (Zpos (digits2_pos p))) as [H|H]; [|lia].
    assert (2 ^ 53 <= 2 ^ (Zpos (digits2_pos p) - 1))%Z
      by (apply Z.pow_le_mono_r; lia). lia. }
  destruct (binary_round_normal false p 0) as (m & e & E & Hdm & He & _ & Hex);
    [cbn zeta; lia|].
  cbn zeta in He, Hex.
  destruct (Hex ltac:(lia)) as [Ee Ev].
  exists m, e. split; [exact E|]. split; [exact Hdm|]. split; [lia|].
  rewrite Ev, pow2_0. ring.
Qed.

Lemma unit_roundoff_pow2 : unit_roundoff = pow2 (-53).
Proof.
  change (-53)%Z with (Z.opp 53). rewrite pow2_opp, pow2_IZR by lia.
  reflexivity.
Qed.

(** Half a unit in the last place is at most 2^-53 of the value. *)
Lemma half_ulp_relative (m0 d e : Z) (y : R) :
  (2 ^ (d - 1) <= m0)%Z -> (1 <= d)%Z -> IZR m0 <= y ->
  pow2 (d + e - 54) <= unit_roundoff * (y * pow2 e).
Proof.
  intros Hm Hd Hy. rewrite unit_roundoff_pow2.
  replace (d + e - 54)%Z with (-53 + ((d - 1) + e))%Z by lia.
  rewrite !pow2_add. rewrite (pow2_IZR (d - 1)) by lia.
  apply IZR_le in Hm.
  pose proof (pow2_pos (-53)). pose proof (pow2_pos e).
  apply Rmult_le_compat_l; [lra|].
  apply Rmult_le_compat_r; lra.
Qed.

(** The product of two positive normal numbers. *)
Lemma mul_normal (mx my : positive) (ex ey : Z) :
  digits2_pos mx = 53%positive -> digits2_pos my = 53%positive ->
  (-1126 <= ex + ey <= 917)%Z ->
  let X := IZR (Zpos mx) * pow2 ex in
  let Y := IZR (Zpos my) * pow2 ey in
  exists m e,
    mul (S754_finite false mx ex) (S754_finite false my ey)
    = S754_finite false m e
    /\ digits2_pos m = 53%positive
    /\ (ex + ey + 52 <= e <= ex + ey + 54)%Z
    /\ Rabs (IZR (Zpos m) * pow2 e - X * Y) <= unit_roundoff * (X * Y).
Proof.
  intros Hx Hy HE X Y. unfold mul. cbn [SFmul xorb].
  pose proof (digits2_bounds mx) as [Hxl Hxh]. rewrite Hx in Hxl, Hxh.
  pose proof (digits2_bounds my) as [Hyl Hyh]. rewrite Hy in Hyl, Hyh.
  change (53 - 1)%Z with 52%Z in *.
  assert (Hp : (2 ^ 104 <= Zpos (mx * my) < 2 ^ 106)%Z).
  { rewrite Pos2Z.inj_mul.
    change (2 ^ 104)%Z with (2 ^ 52 * 2 ^ 52)%Z.
    change (2 ^ 106)%Z with (2 ^ 53 * 2 ^ 53)%Z. nia. }
  pose proof (digits2_bounds (mx * my)) as [Hl Hh].
  set (d := Zpos (digits2_pos (mx * my))) in *.
  assert (Hd : (105 <= d <= 106)%Z).
  { split.
    - destruct (Z_lt_le_dec d 105) as [H|H]; [|lia].
      assert (2 ^ d <= 2 ^ 104)%Z by (apply Z.pow_le_mono_r; lia). lia.
    - destruct (Z_lt_le_dec 106 d) as [H|H]; [|lia].
      assert (2 ^ 106 <= 2 ^ (d - 1))%Z by (apply Z.pow_le_mono_r; lia). lia. }
  destruct (binary_round_aux_normal false (mx * my) (ex + ey) loc_Exact
              (IZR (Zpos (mx * my))))
    as (m & e & E & Hdm & He & Herr); try (fold d; lia); [reflexivity|].
  fold d in He, Herr.
  exists m, e. split; [exact E|]. split; [exact Hdm|]. split; [lia|].
  assert (EXY : IZR (Zpos (mx * my)) * pow2 (ex + ey) = X * Y).
  { subst X Y. rewrite Pos2Z.inj_mul, mult_IZR, pow2_add. ring. }
  rewrite EXY in Herr. eapply Rle_trans; [exact Herr|].
  rewrite <- EXY.
  apply (half_ulp_relative (Zpos (mx * my)) d); [exact Hl|lia|lra].
Qed.

(** The location the division computes from its remainder. *)
Lemma new_location_located (n r q : Z) :
  (0 <= r < n)%Z -> located q (new_location n r) (IZR q + IZR r / IZR n).
Proof.
  intros Hr.
  assert (Hn : 0 < IZR n) by (apply IZR_lt; lia).
  set (x := IZR r / IZR n).
  assert (Hx : IZR r = x * IZR n) by (subst x; field; lra).
  assert (H2 : forall a b : Z, (a < b)%Z -> IZR a < IZR b) by (intros; apply IZR_lt; assumption).
  unfold new_location.
  destruct (Z.even n) eqn:Heven.
  - unfold new_location_even.
    destruct (r =? 0)%Z eqn:E0.
    + apply Z.eqb_eq in E0. cbn. subst r x. unfold Rdiv. rewrite Rmult_0_l. ring.
    + apply Z.eqb_neq in E0.
      assert (Hrpos : 0 < IZR r) by (apply IZR_lt; lia).
      destruct (Z.compare_spec (2 * r) n) as [H|H|H]; cbn.
      * apply (f_equal IZR) in H. rewrite mult_IZR in H. nra.
      * apply H2 in H. rewrite mult_IZR in H. nra.
      * apply H2 in H. rewrite mult_IZR in H.
        assert (IZR r < IZR n) by (apply IZR_lt; lia). nra.
  - unfold new_location_odd.
    destruct (r =? 0)%Z eqn:E0.
    + apply Z.eqb_eq in E0. cbn. subst r x. unfold Rdiv. rewrite Rmult_0_l. ring.
    + apply Z.eqb_neq in E0.
      assert (Hrpos : 0 < IZR r) by (apply IZR_lt; lia).
      assert (Hodd : (2 * r <> n)%Z).
      { intros <-. rewrite Z.even_mul in Heven. discriminate. }
      destruct (Z.compare_spec (2 * r + 1) n) as [H|H|H]; cbn.
      * apply (f_equal IZR) in H. rewrite plus_IZR, mult_IZR in H. nra.
      * apply H2 in H. rewrite plus_IZR, mult_IZR in H. nra.
      * assert (H' : (n < 2 * r)%Z) by lia.
        apply H2 in H'. rewrite mult_IZR in H'.
        assert (IZR r < IZR n) by (apply IZR_lt; lia). nra.
Qed.

(** The quotient of two positive normal numbers. *)
Lemma div_normal (mx my : positive) (ex ey : Z) :
  digits2_pos mx = 53%positive -> digits2_pos my = 53%positive ->
  (-1021 <= ex - ey <= 1022)%Z ->
  let X := IZR (Zpos mx) * pow2 ex in
  let Y := IZR (Zpos my) * pow2 ey in
  exists m e,
    div (S754_finite false mx ex) (S754_finite false my ey)
    = S754_finite false m e
    /\ digits2_pos m = 53%positive
    /\ (ex - ey - 53 <= e <= ex - ey - 51)%Z
    /\ Rabs (IZR (Zpos m) * pow2 e - X / Y) <= unit_roundoff * (X / Y).
Proof.
  intros Hx Hy HE X Y. unfold div. cbn [SFdiv xorb].
  pose proof (digits2_bounds mx) as [Hxl Hxh]. rewrite Hx in Hxl, Hxh.
  pose proof (digits2_bounds my) as [Hyl Hyh]. rewrite Hy in Hyl, Hyh.
  change (53 - 1)%Z with 52%Z in *.
  unfold SFdiv_core_binary. cbn [Zdigits2]. rewrite Hx, Hy.
  replace (53 + ex - (53 + ey))%Z with (ex - ey)%Z by lia.
  rewrite fexp_normal by lia.
  replace (Z.min (ex - ey - 53) (ex - ey)) with (ex - ey - 53)%Z by lia.
  replace (ex - ey - (ex - ey - 53))%Z with 53%Z by lia.
  rewrite Z.shiftl_mul_pow2 by lia.
  pose proof (Z.div_eucl_eq (Zpos mx * 2 ^ 53) (Zpos my) ltac:(lia)) as Hq.
  pose proof (Z.mod_pos_bound (Zpos mx * 2 ^ 53) (Zpos my) ltac:(lia)) as Hr.
  unfold Z.modulo in Hr.
  destruct (Z.div_eucl (Zpos mx * 2 ^ 53) (Zpos my)) as [q r].
  assert (Hqb : (2 ^ 52 <= q < 2 ^ 54)%Z).
  { change (2 ^ 54)%Z with (2 * 2 ^ 53)%Z. change (2 ^ 53)%Z with (2 * 2 ^ 52)%Z in *.
    split; nia. }
  destruct q as [|q|q]; try lia.
  pose proof (digits2_bounds q) as [Hl Hh].
  set (d := Zpos (digits2_pos q)) in *.
  assert (Hd : (53 <= d <= 54)%Z).
  { split.
    - destruct (Z_lt_le_dec d 53) as [H|H]; [|lia].
      assert (2 ^ d <= 2 ^ 52)%Z by (apply Z.pow_le_mono_r; lia). lia.
    - destruct (Z_lt_le_dec 54 d) as [H|H]; [|lia].
      assert (2 ^ 54 <= 2 ^ (d - 1))%Z by (apply Z.pow_le_mono_r; lia). lia. }
  destruct (binary_round_aux_normal false q (ex - ey - 53)
              (new_location (Zpos my) r) (IZR (Zpos q) + IZR r / IZR (Zpos my)))
    as (m & e & E & Hdm & He & Herr); try (fold d; lia).
  { apply new_location_located. lia. }
  fold d in He, Herr.
  exists m, e. split; [exact E|]. split; [exact Hdm|]. split; [lia|].
  assert (HY : 0 < IZR (Zpos my)) by (apply IZR_lt; lia).
  assert (EXY : (IZR (Zpos q) + IZR r / IZR (Zpos my)) * pow2 (ex - ey - 53)
                = X / Y).
  { subst X Y.
    replace (IZR (Zpos q) + IZR r / IZR (Zpos my))
      with (IZR (Zpos mx) * pow2 53 / IZR (Zpos my)).
    - replace (ex - ey - 53)%Z with (ex + (- ey + - (53)))%Z by lia.
      rewrite !pow2_add, !pow2_opp.
      pose proof (pow2_pos ey). pose proof (pow2_pos 53). field. lra.
    - rewrite pow2_IZR by lia. rewrite <- mult_IZR, Hq, plus_IZR, mult_IZR.
      field. lra. }
  rewrite EXY in Herr. eapply Rle_trans; [exact Herr|].
  rewrite <- EXY.
  apply (half_ulp_relative (Zpos q) d); [exact Hl|lia|].
  assert (0 <= IZR r / IZR (Zpos my)); [|lra].
  apply Rmult_le_pos; [apply IZR_le; lia|]. left. apply Rinv_0_lt_compat. exact HY.
Qed.

Lemma shl_align_value (m : positive) (e ez : Z) :
  (ez <= e)%Z ->
  Zpos (fst (shl_align m e ez)) = (Zpos m * 2 ^ (e - ez))%Z.
Proof.
  intros H. unfold shl_align.
  destruct (ez - e)%Z as [|k|k] eqn:E; try lia.
  - replace (e - ez)%Z with 0%Z by lia. cbn [fst]. lia.
  - cbn [fst]. rewrite iter_xO_value. f_equal. f_equal. lia.
Qed.

(** The difference of two positive normal numbers: zero when they are
    equal, else a normal number with the sign of the difference, within
    2^-53 of it in relative terms. *)
Lemma sub_normal (mx my : positive) (ex ey : Z) :
  digits2_pos mx = 53%positive -> digits2_pos my = 53%positive ->
  (-1022 <= ex <= 970)%Z -> (-1022 <= ey <= 970)%Z ->
  let X := IZR (Zpos mx) * pow2 ex in
  let Y := IZR (Zpos my) * pow2 ey in
  let r := sub (S754_finite false mx ex) (S754_finite false my ey) in
  (X = Y /\ r = S754_zero false)
  \/ (exists s m e,
         r = S754_finite s m e
         /\ digits2_pos m = 53%positive /\ (-1074 <= e <= 971)%Z
         /\ (if s then X < Y else Y < X)
         /\ Rabs (IZR (Zpos m) * pow2 e - Rabs (X - Y))
            <= unit_roundoff * Rabs (X - Y)).
Proof.
  intros Hx Hy Hex Hey X Y r.
  pose proof (digits2_bounds mx) as [Hxl Hxh]. rewrite Hx in Hxl, Hxh.
  pose proof (digits2_bounds my) as [Hyl Hyh]. rewrite Hy in Hyl, Hyh.
  set (ez := Z.min ex ey).
  set (ax := (Zpos mx * 2 ^ (ex - ez))%Z).
  set (ay := (Zpos my * 2 ^ (ey - ez))%Z).
  assert (Er : r = binary_normalize prec emax (ax - ay) ez false).
  { subst r ax ay. unfold sub. cbn [SFsub cond_Zopp]. fold ez.
    rewrite !shl_align_value by (subst ez; lia). reflexivity. }
  assert (EX : X = IZR ax * pow2 ez).
  { subst X ax. rewrite mult_IZR, <- pow2_IZR by (subst ez; lia).
    rewrite Rmult_assoc, <- pow2_add. do 2 f_equal. lia. }
  assert (EY : Y = IZR ay * pow2 ez).
  { subst Y ay. rewrite mult_IZR, <- pow2_IZR by (subst ez; lia).
    rewrite Rmult_assoc, <- pow2_add. do 2 f_equal. lia. }
  assert (ED : X - Y = IZR (ax - ay) * pow2 ez)
    by (rewrite EX, EY, minus_IZR; ring).
  pose proof (pow2_pos ez) as Hpz.
  (* the aligned mantissas stay below 2^(53 + the gap of the exponents) *)
  assert (Hmax : (Z.abs (ax - ay) < 2 ^ (53 + (Z.max ex ey - ez)))%Z).
  { assert (0 < ax < 2 ^ (53 + (Z.max ex ey - ez)))%Z.
    { subst ax. split; [pose proof (Z.pow_pos_nonneg 2 (ex - ez)); lia|].
      rewrite Z.pow_add_r by (subst ez; lia).
      assert (2 ^ (ex - ez) <= 2 ^ (Z.max ex ey - ez))%Z
        by (apply Z.pow_le_mono_r; subst ez; lia).
      pose proof (Z.pow_pos_nonneg 2 (ex - ez) ltac:(lia) ltac:(subst ez; lia)). nia. }
    assert (0 < ay < 2 ^ (53 + (Z.max ex ey - ez)))%Z.
    { subst ay. split; [pose proof (Z.pow_pos_nonneg 2 (ey - ez)); lia|].
      rewrite Z.pow_add_r by (subst ez; lia).
      assert (2 ^ (ey - ez) <= 2 ^ (Z.max ex ey - ez))%Z
        by (apply Z.pow_le_mono_r; subst ez; lia).
      pose proof (Z.pow_pos_nonneg 2 (ey - ez) ltac:(lia) ltac:(subst ez; lia)). nia. }
    lia. }
  assert (Hround : forall (s : bool) (p : positive),
             Z.abs (ax - ay) = Zpos p ->
             exists m e,
               binary_round prec emax s p ez = S754_finite s m e
               /\ digits2_pos m = 53%positive /\ (-1074 <= e <= 971)%Z
               /\ Rabs (IZR (Zpos m) * pow2 e - Rabs (X - Y))
                  <= unit_roundoff * Rabs (X - Y)).
  { intros s p Hp.
    pose proof (digits2_bounds p) as [Hpl Hph].
    set (d := Zpos (digits2_pos p)) in *.
    assert (Hd : (1 <= d <= 53 + (Z.max ex ey - ez))%Z).
    { split; [subst d; lia|].
      destruct (Z_lt_le_dec (53 + (Z.max ex ey - ez)) d) as [H|H]; [|lia].
      assert (2 ^ (53 + (Z.max ex ey - ez)) <= 2 ^ (d - 1))%Z
        by (apply Z.pow_le_mono_r; subst ez; lia). lia. }
    destruct (binary_round_normal s p ez) as (m & e & E & Hdm & He & Herr & _);
      [fold d; subst ez; lia|].
    fold d in He, Herr.
    exists m, e. split; [exact E|]. split; [exact Hdm|].
    split; [subst ez; lia|].
    assert (EA : Rabs (X - Y) = IZR (Zpos p) * pow2 ez).
    { rewrite ED, Rabs_mult, (Rabs_right (pow2 ez)) by lra.
      rewrite <- abs_IZR, Hp. reflexivity. }
    rewrite EA. eapply Rle_trans; [exact Herr|].
    apply (half_ulp_relative (Zpos p) d); [exact Hpl|lia|lra]. }
  rewrite Er. unfold binary_normalize.
  destruct (ax - ay)%Z as [|p|p] eqn:Ediff.
  - left. split; [|reflexivity]. apply Rminus_diag_uniq. rewrite ED. cbn. ring.
  - right. destruct (Hround false p eq_refl) as (m & e & E & H1 & H2 & H3).
    exists false, m, e. repeat split; try assumption; try lia.
    assert (0 < X - Y); [|lra].
    rewrite ED. apply Rmult_lt_0_compat; [apply IZR_lt; lia|lra].
  - right. destruct (Hround true p eq_refl) as (m & e & E & H1 & H2 & H3).
    exists true, m, e. repeat split; try assumption; try lia.
    assert (X - Y < 0); [|lra].
    rewrite ED. assert (IZR (Z.neg p) < 0) by (apply IZR_lt; lia). nra.
Qed.

(** Comparing two positive normal numbers compares their values. *)
Lemma ltb_normal (mx my : positive) (ex ey : Z) :
  digits2_pos mx = 53%positive -> digits2_pos my = 53%positive ->
  let X := IZR (Zpos mx) * pow2 ex in
  let Y := IZR (Zpos my) * pow2 ey in
  (ltb (S754_finite false mx ex) (S754_finite false my ey) = true -> X < Y)
  /\ (ltb (S754_finite false mx ex) (S754_finite false my ey) = false -> Y <= X).
Proof.
  intros Hx Hy X Y.
  pose proof (digits2_bounds mx) as [Hxl Hxh]. rewrite Hx in Hxl, Hxh.
  pose proof (digits2_bounds my) as [Hyl Hyh]. rewrite Hy in Hyl, Hyh.
  change (53 - 1)%Z with 52%Z in *.
  apply IZR_le in Hxl, Hyl. apply IZR_lt in Hxh, Hyh.
  rewrite <- pow2_IZR in Hxl, Hyl, Hxh, Hyh by lia.
  pose proof (pow2_pos ex) as Hpx. pose proof (pow2_pos ey) as Hpy.
  assert (HXl : pow2 (52 + ex) <= X) by (subst X; rewrite pow2_add; nra).
  assert (HXh : X < pow2 (53 + ex)) by (subst X; rewrite pow2_add; nra).
  assert (HYl : pow2 (52 + ey) <= Y) by (subst Y; rewrite pow2_add; nra).
  assert (HYh : Y < pow2 (53 + ey)) by (subst Y; rewrite pow2_add; nra).
  unfold ltb, SFltb. cbn [SFcompare].
  destruct (Z.compare_spec ex ey) as [E|E|E].
  - subst ey. change (Pos.compare_cont Eq mx my) with (Pos.compare mx my).
    destruct (Pos.compare_spec mx my) as [Em|Em|Em]; split; try discriminate; intros _.
    + subst my. subst X Y. lra.
    + subst X Y. assert (IZR (Zpos mx) < IZR (Zpos my)) by (apply IZR_lt; lia). nra.
    + subst X Y. assert (IZR (Zpos my) < IZR (Zpos mx)) by (apply IZR_lt; lia). nra.
  - split; try discriminate. intros _.
    pose proof (pow2_le (53 + ex) (52 + ey) ltac:(lia)). lra.
  - split; try discriminate. intros _.
    pose proof (pow2_le (53 + ey) (52 + ex) ltac:(lia)). lra.
Qed.

(* ================================================================== *)
(** ** Numbers: [Math.floor], [toString] and [toFixed] on normal values *)
(* ================================================================== *)

Lemma pow2_neg_inv (e : Z) : (e <= 0)%Z -> pow2 e = / IZR (2 ^ (- e)).
Proof.
  intros H. replace e with (- (- e))%Z at 1 by lia.
  rewrite pow2_opp, pow2_IZR by lia. reflexivity.
Qed.

Lemma floor_finite_cases (m : positive) (e : Z) :
  (e <= 0)%Z ->
  floor (S754_finite false m e) =
    if (Zpos m mod 2 ^ (- e) =? 0)%Z then S754_finite false m e
    else JSNumber.of_Z (Zpos m / 2 ^ (- e)).
Proof.
  intros He. destruct e as [|p|p]; [|lia|].
  - change (2 ^ (- 0))%Z with 1%Z. rewrite Z.mod_1_r. reflexivity.
  - cbn [floor]. rewrite Z.pow_pos_fold. reflexivity.
Qed.

(** [Math.floor] of a positive normal number below 2^53: the integer part
    [k] of its value; the number itself when it is an integer, the number
    of [k] otherwise. *)
Lemma floor_normal (m : positive) (e : Z) :
  digits2_pos m = 53%positive -> (-1074 <= e <= 0)%Z ->
  let X := IZR (Zpos m) * pow2 e in
  let k := (Zpos m / 2 ^ (- e))%Z in
  (0 <= k < 2 ^ 53)%Z /\ IZR k <= X < IZR k + 1
  /\ ((X = IZR k /\ (Zpos m mod 2 ^ (- e) = 0)%Z
       /\ floor (S754_finite false m e) = S754_finite false m e)
      \/ (IZR k < X /\ floor (S754_finite false m e) = JSNumber.of_Z k)).
Proof.
  intros Hd He X k.
  pose proof (digits2_bounds m) as [_ Hh]. rewrite Hd in Hh.
  rewrite floor_finite_cases by lia. fold k.
  assert (Hdd : (1 <= 2 ^ (- e))%Z) by (pose proof (Z.pow_pos_nonneg 2 (- e)); lia).
  pose proof (Z.div_mod (Zpos m) (2 ^ (- e)) ltac:(lia)) as Hdm.
  pose proof (Z.mod_pos_bound (Zpos m) (2 ^ (- e)) ltac:(lia)) as Hr.
  fold k in Hdm.
  assert (Hk : (0 <= k < 2 ^ 53)%Z).
  { split; [subst k; apply Z.div_pos; lia|].
    assert (k <= Zpos m)%Z; [|lia]. subst k. apply Z.div_le_upper_bound; nia. }
  assert (EX : X * IZR (2 ^ (- e)) = IZR (Zpos m)).
  { subst X. rewrite pow2_neg_inv by lia.
    assert (0 < IZR (2 ^ (- e))) by (apply IZR_lt; lia). field. lra. }
  remember (2 ^ (- e))%Z as dd eqn:Edd.
  remember (Zpos m mod dd)%Z as rr eqn:Err.
  assert (HddR : 0 < IZR dd) by (apply IZR_lt; lia).
  assert (EXk : X * IZR dd = IZR k * IZR dd + IZR rr).
  { rewrite EX. rewrite Hdm at 1. rewrite plus_IZR, mult_IZR. ring. }
  assert (Hr1 : 0 <= IZR rr) by (apply IZR_le; lia).
  assert (Hr2 : IZR rr < IZR dd) by (apply IZR_lt; lia).
  split; [exact Hk|]. split; [split; nra|].
  destruct (Z.eqb_spec rr 0) as [E0|E0].
  - left. rewrite E0 in EXk. split; [nra|]. split; [exact E0|reflexivity].
  - right. assert (0 < IZR rr) by (apply IZR_lt; lia).
    split; [nra|reflexivity].
Qed.

(** A number whose value is an integer below 2^53 prints as that
    integer. *)
Lemma toString_integral (m : positive) (e : Z) :
  (e <= 0)%Z -> (Zpos m mod 2 ^ (- e) = 0)%Z -> (Zpos m / 2 ^ (- e) < 2 ^ 53)%Z ->
  toString (S754_finite false m e) = JSString.of_N (Z.to_N (Zpos m / 2 ^ (- e))).
Proof.
  intros He Hmod Hlt. unfold toString, toString_pos.
  assert (Ea : mag_num m e = Zpos m) by (destruct e; try lia; reflexivity).
  assert (Eb : mag_den e = (2 ^ (- e))%Z).
  { destruct e as [|p|p]; try lia; [reflexivity|].
    cbn [mag_den]. rewrite Z.pow_pos_fold. reflexivity. }
  rewrite Ea, Eb, Hmod.
  replace (Zpos m / 2 ^ (- e) <? 2 ^ 53)%Z with true
    by (symmetry; apply Z.ltb_lt; exact Hlt).
  reflexivity.
Qed.

(** The number of an integer from 0 to 2^53 - 1 prints as its decimal
    string. *)
Lemma toString_of_Z (k : Z) :
  (0 <= k < 2 ^ 53)%Z -> toString (JSNumber.of_Z k) = JSString.of_Z k.
Proof.
  intros Hk. destruct (Z.eq_dec k 0) as [->|Hk0]; [reflexivity|].
  destruct (of_Z_exact k ltac:(lia)) as (m & e & E & Hd & He & Hv).
  rewrite E.
  assert (Hz : (Zpos m = k * 2 ^ (- e))%Z).
  { apply eq_IZR. rewrite mult_IZR.
    rewrite pow2_neg_inv in Hv by lia.
    assert (0 < IZR (2 ^ (- e))).
    { apply IZR_lt. pose proof (Z.pow_pos_nonneg 2 (- e)). lia. }
    rewrite <- Hv. field. lra. }
  assert (Hp : (0 < 2 ^ (- e))%Z) by (pose proof (Z.pow_pos_nonneg 2 (- e)); lia).
  rewrite toString_integral; try lia.
  - rewrite Hz, Z.div_mul by lia. destruct k; try lia. reflexivity.
  - rewrite Hz. apply Z.mod_mul. lia.
  - rewrite Hz, Z.div_mul by lia. lia.
Qed.

(** [toFixed(1)] of a positive normal number within a twentieth of an
    integer [n >= 1]: the digits of [n], a point, a zero. *)
Lemma toFixed_1_near_integer (m : positive) (e : Z) (n : Z) :
  digits2_pos m = 53%positive -> (-1074 <= e <= 0)%Z -> (1 <= n)%Z ->
  let X := IZR (Zpos m) * pow2 e in
  IZR n - / 20 <= X < IZR n + / 20 ->
  toFixed 1 (S754_finite false m e) = Normal (JSString.of_N (Z.to_N n) ++ ".0").
Proof.
  intros Hd He Hn X HX.
  pose proof (digits2_bounds m) as [_ Hh]. rewrite Hd in Hh.
  unfold toFixed.
  cbn [Z.ltb Z.compare orb Pos.compare Pos.compare_cont].
  assert (Ea : mag_num m e = Zpos m) by (destruct e; try lia; reflexivity).
  assert (Eb : mag_den e = (2 ^ (- e))%Z).
  { destruct e as [|p|p]; try lia; [reflexivity|].
    cbn [mag_den]. rewrite Z.pow_pos_fold. reflexivity. }
  rewrite Ea, Eb.
  set (dd := (2 ^ (- e))%Z) in *.
  assert (Hdd : (1 <= dd)%Z) by (subst dd; pose proof (Z.pow_pos_nonneg 2 (- e)); lia).
  replace (10 ^ 21 * dd <=? Zpos m)%Z with false
    by (symmetry; apply Z.leb_gt; change (10 ^ 21)%Z with 1000000000000000000000%Z;
        change (2 ^ 53)%Z with 9007199254740992%Z in Hh; nia).
  assert (HddR : 0 < IZR dd) by (apply IZR_lt; lia).
  assert (EX : IZR (Zpos m) = X * IZR dd).
  { subst X. rewrite pow2_neg_inv by lia. fold dd. field. lra. }
  assert (Hnear : nearest_fixed (Zpos m) dd 1 = (10 * n)%Z).
  { unfold nearest_fixed. change (10 ^ 1)%Z with 10%Z.
    symmetry. apply Z.div_unique_pos with (r := (2 * Zpos m * 10 + dd - 2 * dd * (10 * n))%Z);
      [|ring].
    assert (H1 : (20 * dd * n - dd <= 20 * Zpos m)%Z).
    { apply le_IZR. rewrite minus_IZR, !mult_IZR, EX. nra. }
    assert (H2 : (20 * Zpos m < 20 * dd * n + dd)%Z).
    { apply lt_IZR. rewrite plus_IZR, !mult_IZR, EX. nra. }
    lia. }
  rewrite Hnear, fixed_digits_tenfold by exact Hn. reflexivity.
Qed.

(** Strictly equal positive finite numbers of the same shape are the same
    number. *)
Lemma strict_eq_finite (mx my : positive) (ex ey : Z) :
  strict_eq (S754_finite false mx ex) (S754_finite false my ey) = true ->
  mx = my /\ ex = ey.
Proof.
  unfold strict_eq, SFeqb. cbn [SFcompare].
  destruct (Z.compare_spec ex ey) as [E|E|E]; try discriminate.
  change (Pos.compare_cont Eq mx my) with (Pos.compare mx my).
  destruct (Pos.compare_spec mx my) as [Em|Em|Em]; try discriminate.
  auto.
Qed.

(* ================================================================== *)
(** ** The scaler on integer quantities *)
(* ================================================================== *)

Lemma normal_value_bounds (m : positive) (e : Z) :
  digits2_pos m = 53%positive ->
  pow2 (e + 52) <= IZR (Zpos m) * pow2 e < pow2 (e + 53).
Proof.
  intros Hd.
  pose proof (digits2_bounds m) as [Hlo Hhi]. rewrite Hd in Hlo, Hhi.
  change (53 - 1)%Z with 52%Z in Hlo.
  apply IZR_le in Hlo. apply IZR_lt in Hhi.
  rewrite <- pow2_IZR in Hlo, Hhi by lia.
  rewrite !pow2_add. pose proof (pow2_pos e). split; nra.
Qed.

Lemma Rabs_le_between (x a : R) : Rabs x <= a -> - a <= x <= a.
Proof. unfold Rabs. destruct (Rcase_abs x); lra. Qed.

Lemma pow2_m1 : pow2 (-1) = / 2.
Proof. rewrite (pow2_neg_inv (-1)) by lia. reflexivity. Qed.

Lemma pow2_m7 : pow2 (-7) = / 128.
Proof. rewrite (pow2_neg_inv (-7)) by lia. reflexivity. Qed.

Lemma pow2_m53 : pow2 (-53) = / 9007199254740992.
Proof. rewrite <- unit_roundoff_pow2. reflexivity. Qed.

Lemma pow2_m54 : pow2 (-54) = / 18014398509481984.
Proof. rewrite (pow2_neg_inv (-54)) by lia. reflexivity. Qed.

Lemma pow2_m57 : pow2 (-57) = / 144115188075855872.
Proof. rewrite (pow2_neg_inv (-57)) by lia. reflexivity. Qed.

Lemma pow2_m59 : pow2 (-59) = / 576460752303423488.
Proof. rewrite (pow2_neg_inv (-59)) by lia. reflexivity. Qed.

Lemma lit_values :
  lit 1 (-2) = S754_finite false 5764607523034235 (-59)
  /\ lit 5 (-2) = S754_finite false 7205759403792794 (-57)
  /\ lit 25 (-2) = S754_finite false 4503599627370496 (-54)
  /\ lit 33 (-2) = S754_finite false 5944751508129055 (-54)
  /\ lit 5 (-1) = S754_finite false 4503599627370496 (-53)
  /\ lit 66 (-2) = S754_finite false 5944751508129055 (-53)
  /\ lit 75 (-2) = S754_finite false 6755399441055744 (-53).
Proof. repeat split; vm_compute; reflexivity. Qed.

(** A fraction part between 0.99 and 1.01 is near none of the fractions
    the formatter looks for. *)
Lemma not_near (md mc : positive) (ed ec : Z) :
  digits2_pos md = 53%positive -> digits2_pos mc = 53%positive ->
  let D := IZR (Zpos md) * pow2 ed in
  let C := IZR (Zpos mc) * pow2 ec in
  / 100 <= C <= 76 / 100 -> 99 / 100 <= D <= 101 / 100 ->
  near (S754_finite false md ed) (S754_finite false mc ec) = false.
Proof.
  intros Hd Hc D C HC HD.
  pose proof (normal_value_bounds md ed Hd) as [Hd1 Hd2]. fold D in Hd1, Hd2.
  pose proof (normal_value_bounds mc ec Hc) as [Hc1 Hc2]. fold C in Hc1, Hc2.
  pose proof (sub_normal md mc ed ec Hd Hc) as Hsub. cbn zeta in Hsub.
  fold D in Hsub. fold C in Hsub. clearbody D C.
  assert (Hed : (-54 < ed < -51)%Z).
  { split.
    - assert (pow2 (-1) < pow2 (ed + 53)) by (rewrite pow2_m1; lra).
      apply pow2_lt_inv in H. lia.
    - assert (pow2 (ed + 52) < pow2 1) by (rewrite pow2_1; lra).
      apply pow2_lt_inv in H. lia. }
  assert (Hec : (-60 < ec < -52)%Z).
  { split.
    - assert (pow2 (-7) < pow2 (ec + 53)) by (rewrite pow2_m7; lra).
      apply pow2_lt_inv in H. lia.
    - assert (pow2 (ec + 52) < pow2 0) by (rewrite pow2_0; lra).
      apply pow2_lt_inv in H. lia. }
  unfold near.
  destruct (Hsub ltac:(lia) ltac:(lia))
    as [[E _]|(s & m & e & E & Hm & He & Hs & Herr)]; [lra|].
  rewrite E. destruct s; [lra|]. cbn [abs SFabs].
  destruct lit_values as (_ & E5 & _). rewrite E5.
  destruct (ltb_normal m 7205759403792794 e (-57) Hm eq_refl) as [Hlt _].
  destruct (ltb (S754_finite false m e) (S754_finite false 7205759403792794 (-57)));
    [|reflexivity].
  exfalso. specialize (Hlt eq_refl). rewrite pow2_m57 in Hlt.
  rewrite (Rabs_right (D - C)) in Herr by lra.
  apply Rabs_le_between in Herr. unfold unit_roundoff in Herr. lra.
Qed.

Lemma of_N_of_Z (n : Z) : (0 <= n)%Z -> JSString.of_N (Z.to_N n) = JSString.of_Z n.
Proof. intros H. destruct n; try lia; reflexivity. Qed.

(** [formatNumber] on a positive normal number within 0.008 of an integer
    [n] from 1 to 2^45: the decimal string of [n]. Below [n] the fraction
    part is near 1, near none of the glyph fractions, and the rounding to
    one decimal gives [n.0]; from [n] on the fraction part is below 0.01. *)
Lemma formatNumber_near_integer (m : positive) (e : Z) (n : Z) :
  digits2_pos m = 53%positive -> (-1074 <= e)%Z ->
  (1 <= n <= 2 ^ 45)%Z ->
  Rabs (IZR (Zpos m) * pow2 e - IZR n) <= 8 / 1000 ->
  formatNumber (S754_finite false m e) = Normal (JSString.of_Z n).
Proof.
  intros Hd He Hn HX.
  apply Rabs_le_between in HX.
  pose proof (normal_value_bounds m e Hd) as [Hv1 Hv2].
  pose proof (floor_normal m e Hd) as Hfl. cbn zeta in Hfl.
  pose proof (toFixed_1_near_integer m e n Hd) as Hfix. cbn zeta in Hfix.
  pose proof (fun mc ec => sub_normal m mc e ec Hd) as Hsub. cbn zeta in Hsub.
  remember (IZR (Zpos m) * pow2 e) as X eqn:EX.
  assert (Hn1 : 1 <= IZR n) by (apply IZR_le; lia).
  assert (Hn2 : IZR n <= 35184372088832) by (apply IZR_le; change (2 ^ 45)%Z with 35184372088832%Z in Hn; lia).
  assert (Hexp : (-54 < e < -6)%Z).
  { split.
    - assert (pow2 (-1) < pow2 (e + 53)) by (rewrite pow2_m1; lra).
      apply pow2_lt_inv in H. lia.
    - assert (pow2 (e + 52) < pow2 46).
      { rewrite (pow2_IZR 46) by lia. change (2 ^ 46)%Z with 70368744177664%Z. lra. }
      apply pow2_lt_inv in H. lia. }
  destruct (Hfl ltac:(lia)) as (Hk & [Hk1 Hk2] & Hcases). clear Hfl.
  set (k := (Zpos m / 2 ^ (- e))%Z) in *.
  assert (Hkn : k = n \/ k = (n - 1)%Z).
  { assert (k < n + 1)%Z by (apply lt_IZR; rewrite plus_IZR; lra).
    assert (n - 2 < k)%Z by (apply lt_IZR; rewrite minus_IZR; lra).
    lia. }
  destruct lit_values as (E1 & E5 & E25 & E33 & E50 & E66 & E75).
  unfold formatNumber.
  destruct Hcases as [(HXk & Hmod & Efl)|(HXk & Efl)].
  - (* the value is the integer itself *)
    assert (k = n) by (destruct Hkn as [|Ek]; [assumption|]; subst k; rewrite Ek, minus_IZR in HXk; lra).
    rewrite Efl.
    destruct (Hsub m e Hd ltac:(lia) ltac:(lia)) as [[_ E0]|(s & m' & e' & _ & _ & _ & Hs & _)];
      [|destruct s; lra].
    rewrite E0, E1.
    change (ltb (S754_zero false) (S754_finite false 5764607523034235 (-59))) with true.
    cbn iota. rewrite toString_integral by (fold k; lia).
    fold k. rewrite of_N_of_Z by lia. congruence.
  - rewrite Efl. destruct Hkn as [Ek|Ek]; rewrite Ek in *.
    + (* just above the integer: a fraction part below 0.01 *)
      destruct (of_Z_exact n ltac:(change (2 ^ 53)%Z with 9007199254740992%Z;
                                    change (2 ^ 45)%Z with 35184372088832%Z in Hn; lia))
        as (mn & en & En & Hdn & Hen & Hvn).
      rewrite En.
      destruct (Hsub mn en Hdn ltac:(lia) ltac:(lia))
        as [[E _]|(s & m' & e' & E & Hm' & He' & Hs & Herr)];
        rewrite Hvn in *; [lra|].
      destruct s; [lra|].
      rewrite E, E1.
      destruct (ltb_normal m' 5764607523034235 e' (-59) Hm' eq_refl) as [_ Hge].
      destruct (ltb (S754_finite false m' e') (S754_finite false 5764607523034235 (-59))).
      * rewrite <- En, toString_of_Z; [reflexivity|].
        change (2 ^ 53)%Z with 9007199254740992%Z.
        change (2 ^ 45)%Z with 35184372088832%Z in Hn. lia.
      * exfalso. specialize (Hge eq_refl). rewrite pow2_m59 in Hge.
        rewrite (Rabs_right (X - IZR n)) in Herr by lra.
        apply Rabs_le_between in Herr. unfold unit_roundoff in Herr. lra.
    + (* just below the integer: a fraction part near 1 *)
      rewrite minus_IZR in Hk1, Hk2, HXk.
      assert (Hdec : exists md ed,
                 sub (S754_finite false m e) (JSNumber.of_Z (n - 1))
                 = S754_finite false md ed
                 /\ digits2_pos md = 53%positive
                 /\ 99 / 100 <= IZR (Zpos md) * pow2 ed <= 101 / 100).
      { destruct (Z.eq_dec n 1) as [->|Hn1'].
        - exists m, e. split; [reflexivity|]. split; [exact Hd|].
          rewrite <- EX. change (IZR (1 - 1)) with 0 in *. lra.
        - destruct (of_Z_exact (n - 1)
                      ltac:(change (2 ^ 53)%Z with 9007199254740992%Z;
                            change (2 ^ 45)%Z with 35184372088832%Z in Hn; lia))
            as (mk & ek & Ekk & Hdk & Hek & Hvk).
          rewrite Ekk.
          destruct (Hsub mk ek Hdk ltac:(lia) ltac:(lia))
            as [[E _]|(s & md & ed & E & Hmd & Hed & Hs & Herr)];
            rewrite Hvk, minus_IZR in *; [lra|].
          destruct s; [lra|].
          exists md, ed. split; [exact E|]. split; [exact Hmd|].
          rewrite (Rabs_right (X - (IZR n - 1))) in Herr by lra.
          apply Rabs_le_between in Herr. unfold unit_roundoff in Herr. lra. }
      destruct Hdec as (md & ed & Edec & Hmd & HD).
      rewrite Edec.
      (* not below 0.01 *)
      rewrite E1.
      destruct (ltb_normal md 5764607523034235 ed (-59) Hmd eq_refl) as [Hlt _].
      destruct (ltb (S754_finite false md ed) (S754_finite false 5764607523034235 (-59))).
      { exfalso. specialize (Hlt eq_refl). rewrite pow2_m59 in Hlt. lra. }
      clear Hlt.
      (* near none of the five fractions *)
      pose proof (not_near md 4503599627370496 ed (-54) Hmd eq_refl) as N25.
      pose proof (not_near md 5944751508129055 ed (-54) Hmd eq_refl) as N33.
      pose proof (not_near md 4503599627370496 ed (-53) Hmd eq_refl) as N50.
      pose proof (not_near md 5944751508129055 ed (-53) Hmd eq_refl) as N66.
      pose proof (not_near md 6755399441055744 ed (-53) Hmd eq_refl) as N75.
      cbn zeta in N25, N33, N50, N66, N75. unfold near in N25, N33, N50, N66, N75.
      rewrite pow2_m54 in N25, N33. rewrite pow2_m53 in N50, N66, N75.
      rewrite E25, N25 by lra. rewrite E33, N33 by lra.
      rewrite E50, N50 by lra. rewrite E66, N66 by lra.
      rewrite E75, N75 by lra.
      rewrite Hfix by (try lia; lra). cbn [bind].
      rewrite replace_point_zero by apply of_N_all_digits.
      rewrite of_N_of_Z by lia. reflexivity.
Qed.

(** C4, as amended. For an integer quantity [q] from 0 to 2^53 - 1 and
    serving counts [s], [t] from 1 to 2^53 - 1 such that [q * t / s] is a
    whole number no greater than 2^45, the scaler turns the decimal string of
    [q] into the decimal string of [q * t / s]. The ratio [t / s] and its
    product with [q] are each rounded to 53 bits; the product lands within
    0.008 of the whole number, and the formatter prints that number. *)
Theorem C4_integer_scaling (q s t : Z)
  (Hq : (0 <= q < 2 ^ 53)%Z) (Hs : (1 <= s < 2 ^ 53)%Z)
  (Ht : (1 <= t < 2 ^ 53)%Z)
  (Hdiv : (s | q * t)%Z) (Hn : (q * t / s <= 2 ^ 45)%Z) :
  scale (JSString.of_Z q) s t = JSString.of_Z (q * t / s).
Proof.
  set (n := (q * t / s)%Z) in *.
  assert (Hns : (q * t = n * s)%Z).
  { destruct Hdiv as [c Hc]. subst n. rewrite Hc, Z.div_mul by lia. reflexivity. }
  unfold scale, getScaledQuantity.
  destruct (of_Z_exact s Hs) as (ms & es & Es & Hds & Hes & Hvs).
  destruct (of_Z_exact t Ht) as (mt & et & Et & Hdt & Het & Hvt).
  rewrite Es, Et.
  assert (Htruthy : truthy (JSString.of_Z q) = true).
  { destruct q as [|p|p]; try lia; [reflexivity|]. apply of_N_nonempty. }
  rewrite Htruthy. cbn [negb].
  destruct (strict_eq (S754_finite false ms es) (S754_finite false mt et)) eqn:Eeq.
  - (* equal serving counts *)
    apply strict_eq_finite in Eeq. destruct Eeq as [-> ->].
    assert (s = t) by (apply eq_IZR; lra). subst t.
    f_equal. subst n. rewrite Z.div_mul by lia. reflexivity.
  - (* the ratio, rounded *)
    destruct (div_normal mt ms et es Hdt Hds ltac:(lia))
      as (mr & er & Er & Hdr & Her & Herr_r).
    rewrite Hvs, Hvt in Herr_r. rewrite Er.
    assert (HsR : 0 < IZR s) by (apply IZR_lt; lia).
    assert (HtR : 0 < IZR t) by (apply IZR_lt; lia).
    destruct (Z.eq_dec q 0) as [->|Hq0].
    + (* nothing to scale *)
      subst n. change (0 * t / s)%Z with 0%Z. vm_compute. reflexivity.
    + assert (Hn1 : (1 <= n)%Z) by nia.
      destruct q as [|qp|qp]; try lia.
      change (JSString.of_Z (Zpos qp)) with (JSString.of_N (Npos qp)).
      unfold scale_try.
      rewrite (all_digits_includes _ "-"%char (of_N_all_digits _) eq_refl).
      rewrite (all_digits_includes _ "/"%char (of_N_all_digits _) eq_refl).
      rewrite parseFloat_of_N.
      change (binary_round prec emax false qp 0) with (JSNumber.of_Z (Zpos qp)).
      destruct (of_Z_exact (Zpos qp) ltac:(lia)) as (mq & eq & Eq & Hdq & Heq & Hvq).
      rewrite Eq. cbn [isNaN negb].
      (* the product, rounded *)
      destruct (mul_normal mq mr eq er Hdq Hdr ltac:(lia))
        as (mp & ep & Ep & Hdp & Hep & Herr_p).
      rewrite Hvq in Herr_p. rewrite Ep.
      rewrite (formatNumber_near_integer mp ep n Hdp ltac:(lia) ltac:(lia));
        [reflexivity|].
      (* the error of the two roundings *)
      assert (HqR : 1 <= IZR (Zpos qp)) by (apply IZR_le; lia).
      assert (HnR : IZR n = IZR (Zpos qp) * (IZR t / IZR s)).
      { apply (f_equal IZR) in Hns. rewrite !mult_IZR in Hns. field_simplify_eq; lra. }
      assert (HnB : IZR n <= 35184372088832).
      { apply IZR_le. change (2 ^ 45)%Z with 35184372088832%Z in Hn. lia. }
      assert (HnP : 1 <= IZR n) by (apply IZR_le; lia).
      remember (IZR (Zpos mr) * pow2 er) as R0.
      remember (IZR (Zpos mp) * pow2 ep) as P.
      remember (IZR t / IZR s) as T.
      remember (IZR (Zpos qp)) as Q.
      apply Rabs_le_between in Herr_r, Herr_p.
      unfold unit_roundoff in Herr_r, Herr_p.
      assert (HT : 0 < T) by (subst T; apply Rdiv_lt_0_compat; lra).
      apply Rabs_le. split.
      * assert (P - IZR n >= - (IZR n * (2 / 9007199254740992 + / 9007199254740992 * / 9007199254740992))); [|nra].
        rewrite HnR. nra.
      * assert (P - IZR n <= IZR n * (2 / 9007199254740992 + / 9007199254740992 * / 9007199254740992)); [|nra].
        rewrite HnR. nra.
Qed.

(** An instance of C4: forty-nine for forty-nine servings, scaled to one.
    The product [49 * (1 / 49)] rounds to the number just below 1, and the
    formatter still prints 1. *)
Lemma C4_witness_49 :
  scale (JSString.of_Z 49) 49 1 = JSString.of_Z (49 * 1 / 49).
Proof.
  apply (C4_integer_scaling 49 49 1); try lia.
  - exists 1%Z. reflexivity.
  - vm_compute. discriminate.
Defined.

(** C4 as first stated fails. A negative integer holds a ["-"], which
    the scaler reads as a range, and comes back unchanged. And with [q],
    [s], [t] below 2^53 the two roundings can miss a whole number as large
    as 2^53 - 2 by one. *)
Lemma C4_counterexample_negative_and_large :
  ((2 | -5 * 4)%Z
   /\ scale (JSString.of_Z (-5)) 2 4 = "-5"
   /\ JSString.of_Z (-5 * 4 / 2) = "-10")
  /\ ((9007199254740989 | 9007199254740989 * 9007199254740990)%Z
      /\ scale (JSString.of_Z 9007199254740989) 9007199254740989 9007199254740990
         = "9007199254740991"
      /\ JSString.of_Z (9007199254740989 * 9007199254740990 / 9007199254740989)
         = "9007199254740990").
Proof.
  split; (split; [|split; vm_compute; reflexivity]).
  - exists (-10)%Z. reflexivity.
  - exists 9007199254740990%Z. ring.
Qed.

(* ================================================================== *)
(** ** The formatter *)
(* ================================================================== *)

Lemma first_glyph_in_table (frac : number) (g : string) :
  first_glyph frac = Some g ->
  exists c, In (c, g) glyph_table /\ near frac c = true.
Proof.
  unfold first_glyph.
  destruct (find _ glyph_table) as [[c g']|] eqn:E; [|discriminate].
  intros H. injection H as <-. apply find_some in E. exists c. exact E.
Qed.

Lemma first_glyph_none (frac : number) :
  first_glyph frac = None ->
  forall c g, In (c, g) glyph_table -> near frac c = false.
Proof.
  unfold first_glyph.
  destruct (find _ glyph_table) as [[c g']|] eqn:E; [discriminate|].
  intros _ c g Hin. exact (find_none _ _ E (c, g) Hin).
Qed.

(** C3, as amended. With [whole = Math.floor(v)] and [frac = v - whole]:
    when [frac < 0.01] the result is [whole] as a string, its decimal digits
    when [whole] is an integer from 0 to 2^53 - 1; else, when [frac]
    is less than 0.05 away from a fraction of the table, the result is the
    glyph of the first such fraction, after [whole] and a space when
    [whole > 0]; else it is [v.toFixed(1)] with its first [".0"] removed.
    The value 2.0 gives ["2"] (first case), 2.9 gives ["2.9"] and 2.96 gives
    ["3"] (last case); the value 2.3 is within 0.05 of a quarter and gives
    ["2 ¼"], although rounding alone would print it as ["2.3"]. *)
Theorem C3_formatNumber_cases (v : number) :
  let whole := floor v in
  let frac := sub v whole in
  (ltb frac (lit 1 (-2)) = true -> formatNumber v = Normal (toString whole))
  /\ (ltb frac (lit 1 (-2)) = false ->
      forall g, first_glyph frac = Some g ->
        (exists c, In (c, g) glyph_table /\ near frac c = true)
        /\ formatNumber v =
             Normal ((if ltb zero whole then toString whole ++ " " else "") ++ g))
  /\ (ltb frac (lit 1 (-2)) = false -> first_glyph frac = None ->
      (forall c g, In (c, g) glyph_table -> near frac c = false)
      /\ exists s, toFixed 1 v = Normal s
                   /\ formatNumber v = Normal (replace ".0" "" s))
  /\ (forall k, (0 <= k < 2 ^ 53)%Z -> floor v = JSNumber.of_Z k ->
      toString (floor v) = JSString.of_Z k)
  /\ formatNumber (lit 20 (-1)) = Normal "2"
  /\ formatNumber (lit 29 (-1)) = Normal "2.9"
  /\ formatNumber (lit 296 (-2)) = Normal "3"
  /\ formatNumber (lit 23 (-1)) = Normal "2 ¼"
  /\ toFixed 1 (lit 23 (-1)) = Normal "2.3"
  /\ toFixed 1 (lit 20 (-1)) = Normal "2.0"
  /\ replace ".0" "" "2.0" = "2".
Proof.
  cbn zeta.
  split; [|split; [|split; [|split; [|repeat split; vm_compute; reflexivity]]]].
  4: { intros k Hk ->. apply toString_of_Z. exact Hk. }
  - intros H. unfold formatNumber. rewrite H. reflexivity.
  - intros H g Hg. split; [exact (first_glyph_in_table _ _ Hg)|].
    unfold formatNumber. rewrite H.
    unfold first_glyph, glyph_table, near in Hg. cbn [find fst snd] in Hg.
    unfold whole_prefix.
    repeat match type of Hg with
           | context [if ?b then _ else _] =>
               destruct b; [injection Hg as <-; reflexivity|]
           end.
    discriminate.
  - intros H Hg. split; [exact (first_glyph_none _ Hg)|].
    destruct (toFixed_1_normal v) as [s Hs]. exists s. split; [exact Hs|].
    unfold formatNumber. rewrite H.
    unfold first_glyph, glyph_table, near in Hg. cbn [find fst snd] in Hg.
    repeat match type of Hg with
           | context [if ?b then _ else _] => destruct b; [discriminate|]
           end.
    rewrite Hs. reflexivity.
Qed.

(** C3 as first stated fails on its own example: the value 2.3 does not
    reach the rounding case, and formats as ["2 ¼"], not as ["2.3"]. *)
Lemma C3_counterexample_2_3 :
  parseFloat "2.3" = lit 23 (-1)
  /\ ltb (sub (lit 23 (-1)) (floor (lit 23 (-1)))) (lit 1 (-2)) = false
  /\ near (sub (lit 23 (-1)) (floor (lit 23 (-1)))) (lit 25 (-2)) = true
  /\ formatNumber (lit 23 (-1)) = Normal "2 ¼"
  /\ formatNumber (lit 23 (-1)) <> Normal "2.3".
Proof.
  repeat split; try (vm_compute; reflexivity).
  vm_compute. discriminate.
Qed.

(* ================================================================== *)
(** ** The number model on known values *)
(* ================================================================== *)

(** [parseFloat] rounds to the nearest binary64 value, reads a numeric
    prefix, and gives [NaN] without one. *)
Example parseFloat_known_values :
  parseFloat "0.01" = S754_finite false 5764607523034235 (-59)
  /\ parseFloat "9007199254740993" = S754_finite false 4503599627370496 1
  /\ parseFloat "4.9e-324" = S754_finite false 1 (-1074)
  /\ parseFloat "1e400" = S754_infinity false
  /\ parseFloat "  2 cups" = JSNumber.of_Z 2
  /\ parseFloat "-0" = S754_zero true
  /\ parseFloat "pinch" = NaN
  /\ parseFloat "" = NaN.
Proof. repeat split; vm_compute; reflexivity. Qed.

(** [toString] and [toFixed] on values whose JavaScript strings are well
    known. *)
Example number_strings_known_values :
  toString (parseFloat "0.1") = "0.1"
  /\ toString (mul (parseFloat "0.1") (JSNumber.of_Z 3)) = "0.30000000000000004"
  /\ toString (parseFloat "1e21") = "1e+21"
  /\ toString (parseFloat "123456789012345680000") = "123456789012345680000"
  /\ toString (parseFloat "5e-324") = "5e-324"
  /\ toFixed 1 (parseFloat "1.25") = Normal "1.3"
  /\ toFixed 2 (parseFloat "1.005") = Normal "1.00"
  /\ toFixed 1 (parseFloat "-0.04") = Normal "-0.0".
Proof. repeat split; vm_compute; reflexivity. Qed.

(** On integers below 2^53 the shortest digits that read back, with the
    zeros the integer ends with, are the digits [toString] prints. *)
Example shortest_string_on_integers :
  Forall
    (fun z =>
       match JSNumber.of_Z z with
       | S754_finite _ m e =>
           shortest_string (S754_finite false m e) (mag_num m e) (mag_den e)
           = JSString.of_Z z
       | _ => False
       end)
    [1; 7; 10; 120; 1234500; 4503599627370496; 9007199254740991]%Z.
Proof. repeat constructor; vm_compute; reflexivity. Qed.

Close Scope R_scope.

(* ================================================================== *)
(** ** The cookbook: removing, toggling, rating *)
(* ================================================================== *)

Lemma count_title_existsb (r : Recipe) (l : list SavedRecipe) :
  existsb (same_title r) l = negb (count_title (title r) l =? 0)%nat.
Proof.
  unfold count_title.
  induction l as [|f l IH]; [reflexivity|].
  cbn. unfold same_title at 1.
  destruct (String.eqb (title (saved f)) (title r)); cbn; [reflexivity|exact IH].
Qed.


Lemma filter_all_true {A : Type} (p : A -> bool) (l : list A) :
  (forall x, In x l -> p x = true) -> filter p l = l.
Proof.
  induction l as [|x l IH]; intros H; [reflexivity|].
  cbn. rewrite (H x (or_introl eq_refl)).
  rewrite IH; [reflexivity|]. intros y Hy. apply H. right. exact Hy.
Qed.


Lemma handleToggleFavorite_cases (uuid : string) (now : Z) (st : AppState)
  (r : shown_recipe) :
  recipe st = Some r ->
  (count_title (title (recipe_of r)) (favorites st) = 0%nat
   /\ handleToggleFavorite uuid now st =
        setFavorites
          (mkSavedRecipe (recipe_of r) uuid now (recipeImage st) (carried_rating r)
           :: favorites st) st)
  \/ (exists i f,
         nth_error (favorites st) i = Some f
         /\ title (saved f) = title (recipe_of r)
         /\ count_title (title (recipe_of r)) (firstn i (favorites st)) = 0%nat
         /\ handleToggleFavorite uuid now st =
              setFavorites (splice1 i (favorites st)) st).
Proof.
  intros Hs. unfold handleToggleFavorite. rewrite Hs.
  destruct (0 <=? findIndex (same_title (recipe_of r)) (favorites st))%Z eqn:E.
  - right. apply Z.leb_le in E.
    destruct (findIndex_first _ _ E) as (f & Hn & Hp & Hf).
    exists (Z.to_nat (findIndex (same_title (recipe_of r)) (favorites st))), f.
    repeat split; auto.
    + apply String.eqb_eq. exact Hp.
    + unfold count_title.
      change (fun f0 => (title (saved f0) =? title (recipe_of r))%string)
        with (same_title (recipe_of r)).
      rewrite Hf. reflexivity.
  - left. apply Z.leb_gt in E. apply findIndex_none in E.
    split; [|reflexivity]. unfold count_title.
    change (fun f0 => (title (saved f0) =? title (recipe_of r))%string)
      with (same_title (recipe_of r)).
    rewrite E. reflexivity.
Qed.

Lemma count_title_cons (t : string) (f : SavedRecipe) (l : list SavedRecipe) :
  count_title t (f :: l) =
    ((if String.eqb (title (saved f)) t then 1 else 0) + count_title t l)%nat.
Proof. unfold count_title. cbn. destruct (String.eqb _ _); reflexivity. Qed.

Lemma count_title_toggle (uuid : string) (now : Z) (st : AppState)
  (r : shown_recipe) :
  recipe st = Some r ->
  let n := count_title (title (recipe_of r)) (favorites st) in
  count_title (title (recipe_of r)) (favorites (handleToggleFavorite uuid now st))
  = match n with O => 1%nat | S k => k end.
Proof.
  intros Hr. cbn zeta.
  destruct (handleToggleFavorite_cases uuid now st r Hr)
    as [[H0 E]|(i & f & Hn & Ht & Hpre & E)]; rewrite E; cbn [favorites setFavorites].
  - rewrite H0, count_title_cons, H0, String.eqb_refl. reflexivity.
  - unfold count_title at 1. rewrite (filter_splice1 _ _ _ _ Hn).
    rewrite Ht, String.eqb_refl.
    fold (count_title (title (recipe_of r)) (favorites st)).
    assert (Hpos : (0 < count_title (title (recipe_of r)) (favorites st))%nat).
    { unfold count_title. apply nth_error_In in Hn.
      assert (Hin : In f (filter (fun f0 => String.eqb (title (saved f0))
                                               (title (recipe_of r)))
                            (favorites st))).
      { apply filter_In. split; [exact Hn|]. apply String.eqb_eq. exact Ht. }
      destruct (filter _ (favorites st)); [destruct Hin|cbn; lia]. }
    destruct (count_title (title (recipe_of r)) (favorites st)); lia.
Qed.

(** X2. With a recipe shown, the heart ([isCurrentRecipeFavorite]) is on
    exactly when the cookbook holds an entry of its title. After a toggle it
    is on exactly when the cookbook did not hold exactly one such entry: a
    toggle flips the heart when the title occurs at most once, and leaves
    it on when the title occurs twice or more, since only the first entry is
    removed. *)
Theorem toggle_flips_heart (uuid : string) (now : Z) (st : AppState)
  (r : shown_recipe) (Hr : recipe st = Some r) :
  let n := count_title (title (recipe_of r)) (favorites st) in
  let st' := handleToggleFavorite uuid now st in
  isCurrentRecipeFavorite st = negb (n =? 0)%nat
  /\ isCurrentRecipeFavorite st' = negb (n =? 1)%nat
  /\ ((n <= 1)%nat ->
      isCurrentRecipeFavorite st' = negb (isCurrentRecipeFavorite st))
  /\ ((2 <= n)%nat ->
      isCurrentRecipeFavorite st' = true /\ isCurrentRecipeFavorite st = true).
Proof.
  cbn zeta.
  assert (Hr' : recipe (handleToggleFavorite uuid now st) = Some r).
  { unfold handleToggleFavorite. rewrite Hr.
    destruct (0 <=? _)%Z; exact Hr. }
  assert (H0 : isCurrentRecipeFavorite st
               = negb (count_title (title (recipe_of r)) (favorites st) =? 0)%nat).
  { unfold isCurrentRecipeFavorite. rewrite Hr. apply count_title_existsb. }
  assert (H1 : isCurrentRecipeFavorite (handleToggleFavorite uuid now st)
               = negb (count_title (title (recipe_of r)) (favorites st) =? 1)%nat).
  { unfold isCurrentRecipeFavorite. rewrite Hr', count_title_existsb.
    rewrite (count_title_toggle uuid now st r Hr). cbn zeta.
    destruct (count_title (title (recipe_of r)) (favorites st)) as [|[|k]];
      reflexivity. }
  rewrite H0, H1.
  destruct (count_title (title (recipe_of r)) (favorites st)) as [|[|k]];
    cbn; repeat split; auto; lia.
Qed.

(** An instance of X2: the sample recipe, chosen from a cookbook that holds
    it once. *)
Lemma toggle_flips_heart_witness :
  let st := selectFavorite sample_favorite cookbook_state in
  isCurrentRecipeFavorite st = true
  /\ isCurrentRecipeFavorite (handleToggleFavorite "id-9" 1700000000002 st) = false.
Proof.
  cbn zeta.
  pose proof (toggle_flips_heart "id-9" 1700000000002
                (selectFavorite sample_favorite cookbook_state)
                (Chosen sample_favorite) eq_refl) as H.
  cbn zeta in H. destruct H as (H0 & H1 & _).
  split; [exact H0|exact H1].
Defined.

Lemma rate_favorites_twice (i : string) (r1 r2 : number) (l : list SavedRecipe) :
  rate_favorites i r2 (rate_favorites i r1 l) = rate_favorites i r2 l.
Proof.
  unfold rate_favorites. rewrite map_map. apply map_ext. intros f.
  destruct (String.eqb (id f) i) eqn:E; cbn; rewrite E; reflexivity.
Qed.

Lemma rate_favorites_comm (i j : string) (r1 r2 : number) (l : list SavedRecipe) :
  i <> j ->
  rate_favorites i r1 (rate_favorites j r2 l)
  = rate_favorites j r2 (rate_favorites i r1 l).
Proof.
  intros Hne. unfold rate_favorites. rewrite !map_map. apply map_ext. intros f.
  destruct (String.eqb_spec (id f) i) as [Ei|Ei];
    destruct (String.eqb_spec (id f) j) as [Ej|Ej]; cbn;
    try congruence;
    repeat match goal with
           | |- context [String.eqb ?a ?b] =>
               destruct (String.eqb_spec a b); try congruence
           end.
Qed.

(** X3. Rating composes as assignment does. Rating the same id twice is
    rating it once with the second value (so rating twice with one value is
    rating once), and ratings of two different ids commute; both for the
    whole state, the shown recipe included. *)
Theorem handleRateRecipe_last_write_wins (i j : string) (r1 r2 : number)
  (st : AppState) :
  handleRateRecipe i r2 (handleRateRecipe i r1 st) = handleRateRecipe i r2 st
  /\ (i <> j ->
      handleRateRecipe i r1 (handleRateRecipe j r2 st)
      = handleRateRecipe j r2 (handleRateRecipe i r1 st)).
Proof.
  split.
  - unfold handleRateRecipe.
    destruct st as [v p [[r|f]|] img il favs lo er];
      cbn [recipe favorites setFavorites setRecipe].
    + rewrite rate_favorites_twice. reflexivity.
    + destruct (String.eqb (id f) i) eqn:E;
        cbn [recipe favorites setFavorites setRecipe with_rating id];
        rewrite ?E; cbn [recipe favorites setFavorites setRecipe with_rating id];
        rewrite rate_favorites_twice; reflexivity.
    + rewrite rate_favorites_twice. reflexivity.
  - intros Hne. unfold handleRateRecipe.
    destruct st as [v p [[r|f]|] img il favs lo er];
      cbn [recipe favorites setFavorites setRecipe].
    + rewrite (rate_favorites_comm i j) by exact Hne. reflexivity.
    + destruct (String.eqb (id f) i) eqn:Ei;
        destruct (String.eqb (id f) j) eqn:Ej;
        cbn [recipe favorites setFavorites setRecipe with_rating id];
        rewrite ?Ei, ?Ej;
        cbn [recipe favorites setFavorites setRecipe with_rating id];
        try (rewrite (rate_favorites_comm i j) by exact Hne; reflexivity).
      apply String.eqb_eq in Ei, Ej. congruence.
    + rewrite (rate_favorites_comm i j) by exact Hne. reflexivity.
Qed.

(** X4. When the shown recipe is a chosen favorite that is an entry of the
    cookbook, it is still one after a rating (the shown copy and the entry
    receive the same rating), after the removal of a favorite (the recipe is
    closed when it is the one removed) and after choosing an entry of the
    cookbook. A toggle does not keep this: it removes the entry and leaves
    the recipe shown. *)
Theorem shown_favorite_stays_in_cookbook (st : AppState)
  (H : shown_in_cookbook st) :
  (forall id' rating', shown_in_cookbook (handleRateRecipe id' rating' st))
  /\ (forall id', shown_in_cookbook (removeFavorite id' st))
  /\ (forall fav, In fav (favorites st) -> shown_in_cookbook (selectFavorite fav st))
  /\ (forall f id' rating', recipe st = Some (Chosen f) -> id f = id' ->
      recipe (handleRateRecipe id' rating' st) = Some (Chosen (with_rating rating' f))
      /\ In (with_rating rating' f) (favorites (handleRateRecipe id' rating' st)))
  /\ (forall uuid now f, recipe st = Some (Chosen f) ->
      count_title (title (saved f)) (favorites st) = 1%nat ->
      ~ shown_in_cookbook (handleToggleFavorite uuid now st)).
Proof.
  unfold shown_in_cookbook in *.
  assert (Hin : forall id' rating' f, In f (favorites st) ->
            In (if String.eqb (id f) id' then with_rating rating' f else f)
               (rate_favorites id' rating' (favorites st))).
  { intros id' rating' f Hf. unfold rate_favorites.
    apply (in_map (fun fav => if String.eqb (id fav) id'
                              then with_rating rating' fav else fav)) in Hf.
    exact Hf. }
  split; [|split; [|split; [|split]]].
  - intros id' rating'. unfold handleRateRecipe.
    destruct (recipe st) as [[r|f]|] eqn:Hr; cbn; rewrite ?Hr; auto.
    specialize (Hin id' rating' f H).
    destruct (String.eqb (id f) id'); cbn; rewrite ?Hr; exact Hin.
  - intros id'. unfold removeFavorite.
    destruct (recipe st) as [[r|f]|] eqn:Hr; cbn; rewrite ?Hr; auto.
    destruct (String.eqb (id f) id') eqn:E; cbn; rewrite ?Hr; auto.
    apply filter_In. rewrite E. auto.
  - intros fav Hf. exact Hf.
  - intros f id' rating' Hr E. rewrite Hr in H.
    specialize (Hin id' rating' f H).
    apply String.eqb_eq in E.
    unfold handleRateRecipe. rewrite Hr, E in *. cbn. auto.
  - intros uuid now f Hr Hc.
    assert (Hr' : recipe (handleToggleFavorite uuid now st) = Some (Chosen f)).
    { unfold handleToggleFavorite. rewrite Hr. destruct (0 <=? _)%Z; exact Hr. }
    rewrite Hr'. intros Hf.
    pose proof (count_title_toggle uuid now st (Chosen f) Hr) as Hn.
    cbn zeta in Hn. cbn [recipe_of] in Hn. rewrite Hc in Hn.
    unfold count_title in Hn.
    assert (Hin' : In f (filter (fun f0 => String.eqb (title (saved f0)) (title (saved f)))
                           (favorites (handleToggleFavorite uuid now st)))).
    { apply filter_In. split; [exact Hf|apply String.eqb_refl]. }
    destruct (filter _ (favorites (handleToggleFavorite uuid now st)));
      [destruct Hin'|discriminate].
Qed.

(** An instance of X4: the sample favorite, chosen from the cookbook and
    rated five. *)
Lemma shown_favorite_stays_in_cookbook_witness :
  let st := selectFavorite sample_favorite cookbook_state in
  shown_in_cookbook st
  /\ shown_in_cookbook (handleRateRecipe "id-1" (JSNumber.of_Z 5) st)
  /\ shown_in_cookbook (removeFavorite "id-1" st)
  /\ recipe (removeFavorite "id-1" st) = None.
Proof.
  cbn zeta.
  assert (H : shown_in_cookbook (selectFavorite sample_favorite cookbook_state)).
  { left. reflexivity. }
  destruct (shown_favorite_stays_in_cookbook _ H) as (Hrate & Hrem & _).
  split; [exact H|]. split; [apply Hrate|]. split; [apply Hrem|reflexivity].
Defined.

Lemma splice1_unique {A : Type} (p : A -> bool) (l : list A) :
  forall i x, nth_error l i = Some x -> p x = true ->
    List.length (filter p l) = 1%nat ->
    splice1 i l = filter (fun y => negb (p y)) l.
Proof.
  induction l as [|y l IH]; intros [|i] x Hn Hx H1; cbn in Hn; try discriminate.
  - injection Hn as ->. cbn in *. rewrite Hx in *. cbn in *.
    symmetry. apply filter_all_true. intros z Hz.
    destruct (p z) eqn:Hpz; [|reflexivity].
    assert (Hin : In z (filter p l)) by (apply filter_In; auto).
    destruct (filter p l); [destruct Hin|discriminate].
  - cbn in *. destruct (p y) eqn:Hy; cbn in *.
    + exfalso. apply nth_error_In in Hn.
      assert (Hin : In x (filter p l)) by (apply filter_In; auto).
      destruct (filter p l); [destruct Hin|discriminate].
    + f_equal. exact (IH i x Hn Hx H1).
Qed.

(** X5. A favorite is chosen from a cookbook that holds its title once,
    then the heart is pressed twice. The first press removes that entry and
    nothing else: what is left are the entries of the other titles, in their
    order. The second press puts the recipe back at the front, as a new
    entry with the fresh id and time stamp; its recipe, its image and its
    rating are those of the chosen favorite. *)
Theorem unfavorite_then_refavorite (uuid uuid2 : string) (now now2 : Z)
  (fav : SavedRecipe) (st : AppState)
  (H1 : count_title (title (saved fav)) (favorites st) = 1%nat) :
  let st0 := selectFavorite fav st in
  let st1 := handleToggleFavorite uuid now st0 in
  let st2 := handleToggleFavorite uuid2 now2 st1 in
  favorites st1 =
    filter (fun g => negb (same_title (saved fav) g)) (favorites st)
  /\ S (List.length (favorites st1)) = List.length (favorites st)
  /\ favorites st2 =
       mkSavedRecipe (saved fav) uuid2 now2 (imageUrl fav) (rating fav)
       :: favorites st1
  /\ List.length (favorites st2) = List.length (favorites st)
  /\ recipe st2 = Some (Chosen fav).
Proof.
  cbn zeta.
  set (st0 := selectFavorite fav st).
  assert (Hr0 : recipe st0 = Some (Chosen fav)) by reflexivity.
  assert (Hf0 : favorites st0 = favorites st) by reflexivity.
  assert (Hi0 : recipeImage st0 = imageUrl fav) by reflexivity.
  destruct (handleToggleFavorite_cases uuid now st0 (Chosen fav) Hr0)
    as [[H0 _]|(i & f & Hn & Ht & Hpre & E1)].
  { cbn [recipe_of] in H0. rewrite Hf0 in H0. congruence. }
  cbn [recipe_of] in *. rewrite Hf0 in *.
  assert (Efilter : splice1 i (favorites st)
                    = filter (fun g => negb (same_title (saved fav) g)) (favorites st)).
  { apply (splice1_unique (same_title (saved fav)) _ i f Hn).
    - apply String.eqb_eq. exact Ht.
    - exact H1. }
  assert (Hlen : S (List.length (splice1 i (favorites st)))
                 = List.length (favorites st)).
  { clear -Hn. revert i Hn. induction (favorites st) as [|y l IH];
      intros [|i] Hn; cbn in Hn; try discriminate; cbn; [reflexivity|].
    rewrite (IH i Hn). reflexivity. }
  rewrite E1. cbn [favorites setFavorites].
  set (st1 := setFavorites (splice1 i (favorites st)) st0).
  assert (Hr1 : recipe st1 = Some (Chosen fav)) by reflexivity.
  assert (Hc1 : count_title (title (saved fav)) (favorites st1) = 0%nat).
  { pose proof (count_title_toggle uuid now st0 (Chosen fav) Hr0) as Hc.
    cbn zeta in Hc. cbn [recipe_of] in Hc. rewrite Hf0, H1, E1 in Hc. exact Hc. }
  destruct (handleToggleFavorite_cases uuid2 now2 st1 (Chosen fav) Hr1)
    as [[_ E2]|(j & g & Hn2 & Ht2 & _ & _)].
  - rewrite E2. cbn [favorites setFavorites recipe_of carried_rating].
    change (recipeImage st1) with (imageUrl fav).
    change (favorites st1) with (splice1 i (favorites st)).
    rewrite <- Efilter. repeat split; auto.
  - exfalso. cbn [recipe_of] in Ht2. apply nth_error_In in Hn2.
    unfold count_title in Hc1.
    assert (Hin : In g (filter (fun f0 => String.eqb (title (saved f0)) (title (saved fav)))
                          (favorites st1))).
    { apply filter_In. split; [exact Hn2|]. apply String.eqb_eq. exact Ht2. }
    destruct (filter _ (favorites st1)); [destruct Hin|discriminate].
Qed.

(** An instance of X5: the sample favorite in the two-entry cookbook. *)
Lemma unfavorite_then_refavorite_witness :
  let st0 := selectFavorite sample_favorite cookbook_state in
  let st1 := handleToggleFavorite "id-8" 1700000000008 st0 in
  let st2 := handleToggleFavorite "id-9" 1700000000009 st1 in
  List.length (favorites st1) = 1%nat
  /\ favorites st2 =
       mkSavedRecipe sample_recipe "id-9" 1700000000009 None None :: favorites st1.
Proof.
  cbn zeta.
  pose proof (unfavorite_then_refavorite "id-8" "id-9" 1700000000008 1700000000009
                sample_favorite cookbook_state eq_refl) as H.
  cbn zeta in H. destruct H as (_ & Hl & H2 & _).
  split; [|exact H2]. exact (eq_add_S _ 1%nat Hl).
Defined.

(* ================================================================== *)
(** ** Navigation *)
(* ================================================================== *)

(** X6. Closing a recipe ([reset]) leads back to where it was opened from.
    A favorite chosen in the cookbook view is shown with its own image and
    no image spinner; closing it shows the cookbook list again. After a
    generation, successful or not, closing shows the form with the
    preferences as they were, with no error left. *)
Theorem reset_returns_to_origin (sdk : Provider) (st : AppState)
  (fav : SavedRecipe) :
  (loading st = false ->
   main_content (selectFavorite fav (navigateToFavorites st))
   = RecipeResultView (Chosen fav) (imageUrl fav) false
       (existsb (same_title (saved fav)) (favorites st))
   /\ main_content (reset (selectFavorite fav (navigateToFavorites st)))
      = FavoritesListView (favorites st))
  /\ main_content (reset (fst (handleGenerate sdk st)))
     = RecipeFormView (preferences st) false
  /\ error (reset (fst (handleGenerate sdk st))) = None
  /\ (loading st = false ->
      main_content (navigateToHome st) = RecipeFormView (preferences st) false
      /\ main_content (navigateToFavorites st) = FavoritesListView (favorites st)).
Proof.
  split; [|split; [|split]].
  - intros Hl. unfold main_content. cbn. rewrite Hl. cbn. auto.
  - unfold handleGenerate, handleGenerate_returned.
    destruct (generateRecipe sdk (preferences st)) as [tr [r|e]].
    + destruct (generateDishImage sdk (title r) (description r)) as [tri [i|e]];
        reflexivity.
    + reflexivity.
  - unfold handleGenerate, handleGenerate_returned.
    destruct (generateRecipe sdk (preferences st)) as [tr [r|e]].
    + destruct (generateDishImage sdk (title r) (description r)) as [tri [i|e]];
        reflexivity.
    + reflexivity.
  - intros Hl. unfold main_content. cbn. rewrite Hl. auto.
Qed.

(* ================================================================== *)
(** ** The loading messages *)
(* ================================================================== *)

Lemma indexOf_nth (l : list string) :
  NoDup l -> forall i m, nth_error l i = Some m -> indexOf l m = Z.of_nat i.
Proof.
  unfold indexOf. induction l as [|x l IH]; intros Hnd i m Hn.
  - destruct i; discriminate.
  - inversion Hnd as [|? ? Hx Hnd']; subst. destruct i as [|i]; cbn in Hn.
    + injection Hn as ->. cbn. rewrite String.eqb_refl. reflexivity.
    + cbn. destruct (String.eqb_spec x m) as [E|E].
      * exfalso. apply Hx. subst x. eapply nth_error_In; eauto.
      * rewrite (IH Hnd' i m Hn).
        destruct (Z.of_nat i <? 0)%Z eqn:El; [apply Z.ltb_lt in El; lia|lia].
Qed.

Lemma indexOf_absent (l : list string) (m : string) :
  ~ In m l -> indexOf l m = (-1)%Z.
Proof.
  unfold indexOf. induction l as [|x l IH]; intros Hn; [reflexivity|].
  cbn. destruct (String.eqb_spec x m) as [E|E].
  - exfalso. apply Hn. left. exact E.
  - rewrite IH by (intros H; apply Hn; right; exact H). reflexivity.
Qed.

(** X7. On a list of messages without repetition, the interval's update
    moves from the message at position [i] to the one at position [i + 1],
    and from the last one back to the first; from a text that is not in the
    list it moves to the first message. With [LOADING_MESSAGES] five
    updates from any of its messages lead back to that message. *)
Theorem cycle_message_next (messages : list string) (Hnd : NoDup messages) :
  (forall i m, nth_error messages i = Some m ->
     cycle_message messages m
     = nth_error messages (S i mod List.length messages))
  /\ (forall prev, ~ In prev messages ->
      cycle_message messages prev = nth_error messages 0)
  /\ (forall m, In m LOADING_MESSAGES ->
      exists m1 m2 m3 m4,
        next_loading_message m = Some m1 /\ next_loading_message m1 = Some m2
        /\ next_loading_message m2 = Some m3 /\ next_loading_message m3 = Some m4
        /\ next_loading_message m4 = Some m).
Proof.
  split; [|split].
  - intros i m Hn. unfold cycle_message.
    destruct messages as [|x l] eqn:El; [destruct i; discriminate|].
    rewrite <- El in *. rewrite (indexOf_nth messages Hnd i m Hn).
    assert (Hlen : (0 < List.length messages)%nat) by (rewrite El; cbn; lia).
    unfold at_Z.
    assert (Hrem : Z.rem (Z.of_nat i + 1) (Z.of_nat (List.length messages))
                   = Z.of_nat (S i mod List.length messages)).
    { rewrite Z.rem_mod_nonneg by lia.
      rewrite Nat2Z.inj_mod. f_equal. lia. }
    rewrite Hrem.
    destruct (Z.of_nat (S i mod List.length messages) <? 0)%Z eqn:E;
      [apply Z.ltb_lt in E; lia|].
    rewrite Nat2Z.id. reflexivity.
  - intros prev Hn. unfold cycle_message.
    destruct messages as [|x l] eqn:El; [reflexivity|].
    rewrite <- El in *. rewrite (indexOf_absent messages prev Hn).
    rewrite El. reflexivity.
  - intros m Hin. cbn in Hin.
    repeat (destruct Hin as [<-|Hin];
            [do 4 eexists; repeat split; vm_compute; reflexivity|]).
    destruct Hin.
Qed.

(** An instance of X7: the last loading message is followed by the first. *)
Lemma cycle_message_next_witness :
  cycle_message LOADING_MESSAGES "Plating your masterpiece..."
  = Some "Analyzing your ingredients...".
Proof.
  assert (Hnd : NoDup LOADING_MESSAGES).
  { repeat constructor; cbn; intuition discriminate. }
  exact (proj1 (cycle_message_next LOADING_MESSAGES Hnd) 4%nat
           "Plating your masterpiece..." eq_refl).
Defined.

(* ================================================================== *)
(** ** The preferences form *)
(* ================================================================== *)

Lemma splice1_app_last {A : Type} (l : list A) (x : A) :
  splice1 (List.length l) (l ++ [x]) = l.
Proof. induction l as [|y l IH]; cbn; [reflexivity|]. rewrite IH. reflexivity. Qed.

Lemma splice1_past_end {A : Type} (l : list A) :
  forall i, (List.length l <= i)%nat -> splice1 i l = l.
Proof.
  induction l as [|y l IH]; intros [|i] H; cbn in *; try reflexivity; try lia.
  rewrite IH by lia. reflexivity.
Qed.

Lemma splice1_firstn_skipn {A : Type} (l : list A) :
  forall i, splice1 i l = (firstn i l ++ skipn (S i) l)%list.
Proof.
  induction l as [|y l IH]; intros [|i]; cbn; try reflexivity.
  rewrite IH. reflexivity.
Qed.

Lemma with_ingredients_same (prefs : UserPreferences) :
  with_ingredients (pref_ingredients prefs) prefs = prefs.
Proof. destruct prefs; reflexivity. Qed.

Lemma with_userInstructions_same (prefs : UserPreferences) :
  with_userInstructions (userInstructions prefs) prefs = prefs.
Proof. destruct prefs; reflexivity. Qed.

(** X8. Adding an ingredient whose text is not blank appends the trimmed
    text to the list and clears the input; removing the entry at the
    position it took (or at index -1) gives the preferences back as they
    were. Pressing Add again right away, or Add on a blank input, changes
    nothing; a key other than Enter changes nothing. The same holds for the
    instructions. *)
Theorem form_add_then_remove (fs : FormState) (prefs : UserPreferences) :
  (truthy (trim (newIngredient fs)) = true ->
   let fs' := fst (handleAddIngredient fs prefs) in
   let prefs' := snd (handleAddIngredient fs prefs) in
   newIngredient fs' = ""
   /\ pref_ingredients prefs'
      = (pref_ingredients prefs ++ [trim (newIngredient fs)])%list
   /\ userInstructions prefs' = userInstructions prefs
   /\ removeIngredient (Z.of_nat (List.length (pref_ingredients prefs))) prefs'
      = prefs
   /\ removeIngredient (-1) prefs' = prefs
   /\ handleAddIngredient fs' prefs' = (fs', prefs')
   /\ handleIngredientKeyDown "Enter" fs prefs = (fs', prefs'))
  /\ (truthy (trim (newIngredient fs)) = false ->
      handleAddIngredient fs prefs = (fs, prefs))
  /\ (forall key, key <> "Enter" ->
      handleIngredientKeyDown key fs prefs = (fs, prefs)
      /\ handleInstructionKeyDown key fs prefs = (fs, prefs))
  /\ (truthy (trim (newInstruction fs)) = true ->
      let fs' := fst (handleAddInstruction fs prefs) in
      let prefs' := snd (handleAddInstruction fs prefs) in
      newInstruction fs' = ""
      /\ userInstructions prefs'
         = (userInstructions prefs ++ [trim (newInstruction fs)])%list
      /\ pref_ingredients prefs' = pref_ingredients prefs
      /\ removeInstruction (Z.of_nat (List.length (userInstructions prefs))) prefs'
         = prefs
      /\ removeInstruction (-1) prefs' = prefs
      /\ handleAddInstruction fs' prefs' = (fs', prefs'))
  /\ (truthy (trim (newInstruction fs)) = false ->
      handleAddInstruction fs prefs = (fs, prefs)).
Proof.
  assert (Hlast : forall (l : list string) x,
             splice_at (Z.of_nat (List.length l)) (l ++ [x]) = l
             /\ splice_at (-1) (l ++ [x]) = l).
  { intros l x. unfold splice_at. rewrite length_app. cbn [List.length].
    split.
    - destruct (Z.of_nat (List.length l) <? 0)%Z eqn:E;
        [apply Z.ltb_lt in E; lia|].
      rewrite Z.min_l by lia. rewrite Nat2Z.id. apply splice1_app_last.
    - change (-1 <? 0)%Z with true. cbn iota.
      replace (Z.to_nat (Z.max (Z.of_nat (List.length l + 1) + -1) 0))
        with (List.length l) by lia.
      apply splice1_app_last. }
  split; [|split; [|split; [|split]]].
  - intros H. unfold handleIngredientKeyDown, handleAddIngredient.
    cbn [String.eqb Ascii.eqb Bool.eqb]. cbn zeta. rewrite H. cbn [fst snd].
    unfold removeIngredient. cbn [pref_ingredients with_ingredients newIngredient].
    destruct (Hlast (pref_ingredients prefs) (trim (newIngredient fs))) as [E1 E2].
    rewrite E1, E2.
    repeat split; try (destruct prefs; reflexivity).
  - intros H. unfold handleAddIngredient. rewrite H. reflexivity.
  - intros key Hk. unfold handleIngredientKeyDown, handleInstructionKeyDown.
    destruct (String.eqb_spec key "Enter"); [contradiction|auto].
  - intros H. unfold handleAddInstruction. cbn zeta. rewrite H. cbn [fst snd].
    unfold removeInstruction.
    cbn [userInstructions with_userInstructions newInstruction].
    destruct (Hlast (userInstructions prefs) (trim (newInstruction fs))) as [E1 E2].
    rewrite E1, E2.
    repeat split; try (destruct prefs; reflexivity).
  - intros H. unfold handleAddInstruction. rewrite H. reflexivity.
Qed.

(** X9. [removeIngredient(index)] at its bounds. An index of an entry
    removes that entry and keeps the others in order; an index at or past
    the end removes nothing; a negative index counts back from the end, and
    one before the start removes the first entry. The other preferences are
    untouched. *)
Theorem removeIngredient_bounds (index : Z) (prefs : UserPreferences) :
  let l := pref_ingredients prefs in
  let len := Z.of_nat (List.length l) in
  let l' := pref_ingredients (removeIngredient index prefs) in
  ((0 <= index < len)%Z ->
   l' = (firstn (Z.to_nat index) l ++ skipn (S (Z.to_nat index)) l)%list
   /\ S (List.length l') = List.length l)
  /\ ((len <= index)%Z -> removeIngredient index prefs = prefs)
  /\ ((- len <= index < 0)%Z ->
      l' = (firstn (Z.to_nat (len + index)) l
            ++ skipn (S (Z.to_nat (len + index))) l)%list
      /\ S (List.length l') = List.length l)
  /\ ((index < - len)%Z -> l' = tl l)
  /\ removeIngredient index prefs = with_ingredients l' prefs
  /\ userInstructions (removeIngredient index prefs) = userInstructions prefs
  /\ image (removeIngredient index prefs) = image prefs.
Proof.
  cbn zeta. unfold removeIngredient. cbn [pref_ingredients with_ingredients].
  assert (Hlen : forall i, (i < List.length (pref_ingredients prefs))%nat ->
            S (List.length (splice1 i (pref_ingredients prefs)))
            = List.length (pref_ingredients prefs)).
  { induction (pref_ingredients prefs) as [|y l IH]; intros [|i] H;
      cbn in *; try lia. rewrite IH by lia. reflexivity. }
  unfold splice_at.
  split; [|split; [|split; [|split]]].
  - intros H. destruct (index <? 0)%Z eqn:E; [apply Z.ltb_lt in E; lia|].
    rewrite Z.min_l by lia.
    split; [apply splice1_firstn_skipn|apply Hlen; lia].
  - intros H. destruct (index <? 0)%Z eqn:E; [apply Z.ltb_lt in E; lia|].
    rewrite Z.min_r by lia. rewrite Nat2Z.id.
    rewrite splice1_past_end by lia. apply with_ingredients_same.
  - intros H. destruct (index <? 0)%Z eqn:E; [|apply Z.ltb_ge in E; lia].
    rewrite Z.max_l by lia.
    split; [apply splice1_firstn_skipn|apply Hlen; lia].
  - intros H. destruct (index <? 0)%Z eqn:E; [|apply Z.ltb_ge in E; lia].
    rewrite Z.max_r by lia. destruct (pref_ingredients prefs); reflexivity.
  - repeat split.
Qed.

(* ================================================================== *)
(** ** The generation service: every run of the video polling *)
(* ================================================================== *)

Lemma count_events_cons (p : event -> bool) (ev : event) (tr : list event) :
  count_events p (ev :: tr)
  = ((if p ev then 1 else 0) + count_events p tr)%nat.
Proof. unfold count_events. cbn. destruct (p ev); reflexivity. Qed.

Lemma count_events_nil (p : event -> bool) : count_events p [] = 0%nat.
Proof. reflexivity. Qed.

Lemma poll_loop_spec (answers : list (completion Operation)) :
  forall operation,
    let tr := fst (poll_loop operation answers) in
    let out := snd (poll_loop operation answers) in
    count_events is_sleep_5s tr = count_events is_poll tr
    /\ count_events is_console_error tr = 0%nat
    /\ count_events is_video_start tr = 0%nat
    /\ match out with
       | Returned final =>
           done final = true
           /\ (final = operation \/ In (Normal final) answers)
           /\ (count_events is_poll tr <= List.length answers)%nat
           /\ (done operation = true -> tr = [LoopTest true])
       | Threw e =>
           In (Throw e) answers
           /\ (1 <= count_events is_poll tr <= List.length answers)%nat
       | StillPolling =>
           done operation = false
           /\ forallb answers_pending answers = true
           /\ count_events is_poll tr = S (List.length answers)
       end.
Proof.
  induction answers as [|a rest IH]; intros operation; cbn zeta.
  - cbn. destruct (done operation) eqn:Hd; cbn; auto 10.
  - cbn [poll_loop]. destruct (done operation) eqn:Hd.
    + cbn. repeat split; auto; lia.
    + destruct a as [operation'|e].
      * specialize (IH operation'). cbn zeta in IH.
        destruct (poll_loop operation' rest) as [tr out]. cbn [fst snd] in *.
        destruct IH as (Hs & Hc & Hv & Hout).
        change ([LoopTest false; Sleep 5000; CallGetVideosOperation operation] ++ tr)%list
          with (LoopTest false :: Sleep 5000
                :: CallGetVideosOperation operation :: tr).
        rewrite !count_events_cons. cbn [is_sleep_5s is_poll is_console_error
                                          is_video_start Z.eqb Pos.eqb].
        split; [lia|]. split; [lia|]. split; [lia|].
        destruct out as [final|e|].
        -- destruct Hout as (Hf & Hin & Hle & _). repeat split; auto.
           ++ destruct Hin as [->|Hin]; right; [left; reflexivity|right; exact Hin].
           ++ cbn [List.length]. lia.
           ++ discriminate.
        -- destruct Hout as (Hin & Hle). split; [right; exact Hin|].
           cbn [List.length]. lia.
        -- destruct Hout as (Hd' & Hall & Hn). repeat split; auto.
           ++ cbn. rewrite Hd'. exact Hall.
           ++ cbn [List.length]. lia.
      * cbn. split; [reflexivity|]. split; [reflexivity|]. split; [reflexivity|].
        split; [left; reflexivity|lia].
Qed.

(** X10. Every run of [generateRecipeVideo], whatever the start call and
    the polls answer. The trace starts with the one start request; each poll
    comes with one 5000 ms sleep. When the function returns, it has stopped
    at an operation that reports done (the handle, or one of the poll
    answers), made no more polls than there were answers, logged nothing, and
    returns that operation's reference: [null] without a URI, and never an
    empty string. A handle that is done at once is neither slept on nor
    polled. When it throws, the error is the one the start call or a poll
    rejected with, and the last event is the error log. It is still polling
    exactly when the handle and every answer so far report not done. *)
Theorem generateRecipeVideo_every_run (sdk : Provider) (recipe : Recipe)
  (answers : list (completion Operation)) :
  let run := generateRecipeVideo sdk recipe answers in
  let start := generateVideos sdk (video_prompt recipe) in
  (exists tr, fst run = CallGenerateVideos (video_prompt recipe) :: tr)
  /\ count_events is_video_start (fst run) = 1%nat
  /\ count_events is_sleep_5s (fst run) = count_events is_poll (fst run)
  /\ (forall v, snd run = Returned v ->
      exists final,
        v = video_reference sdk final /\ done final = true
        /\ (start = Normal final \/ In (Normal final) answers)
        /\ (count_events is_poll (fst run) <= List.length answers)%nat
        /\ count_events is_console_error (fst run) = 0%nat
        /\ (start = Normal final ->
            fst run = [CallGenerateVideos (video_prompt recipe); LoopTest true])
        /\ (v = None <-> usable_text (Normal (videoUri final)) = None)
        /\ (forall url, v = Some url -> truthy url = true))
  /\ (forall e, snd run = Threw e ->
      (start = Throw e \/ In (Throw e) answers)
      /\ exists tr, fst run = (tr ++ [ConsoleError "Error generating video:"])%list
                    /\ count_events is_console_error tr = 0%nat)
  /\ (snd run = StillPolling <->
      (exists operation, start = Normal operation /\ done operation = false)
      /\ forallb answers_pending answers = true).
Proof.
  cbn zeta. unfold generateRecipeVideo.
  destruct (generateVideos sdk (video_prompt recipe)) as [operation|e0] eqn:Hstart.
  2: { cbn. split; [eauto|]. split; [reflexivity|]. split; [reflexivity|].
       split; [discriminate|]. split.
       - intros e He. injection He as <-. split; [auto|].
         exists [CallGenerateVideos (video_prompt recipe)]. auto.
       - split; [discriminate|]. intros [(op & Hop & _) _]. discriminate. }
  pose proof (poll_loop_spec answers operation) as Hspec. cbn zeta in Hspec.
  destruct (poll_loop operation answers) as [tr out] eqn:Hloop.
  cbn [fst snd] in Hspec. destruct Hspec as (Hs & Hc & Hv & Hout).
  destruct out as [final|e|]; cbn [fst snd app];
    rewrite ?count_events_cons, ?count_events_app, ?count_events_cons,
      ?count_events_nil;
    cbn [is_video_start is_sleep_5s is_poll is_console_error];
    (split; [eauto|]); (split; [lia|]); (split; [lia|]).
  - destruct Hout as (Hd & Hin & Hle & Himm).
    split; [|split; [discriminate|]].
    + intros v Hv'. injection Hv' as <-. exists final.
      split; [reflexivity|]. split; [exact Hd|].
      split; [destruct Hin as [->|Hin]; auto|].
      split; [exact Hle|]. split; [lia|].
      split.
      { intros E. injection E as <-. rewrite (Himm Hd). reflexivity. }
      unfold video_reference, usable_text.
      split.
      * destruct (videoUri final) as [uri|]; [|tauto].
        destruct (truthy uri); [split; discriminate|tauto].
      * intros url. destruct (videoUri final) as [uri|]; [|discriminate].
        destruct (truthy uri) eqn:Hu; [|discriminate].
        intros E. injection E as <-. rewrite append_empty_iff, Hu. reflexivity.
    + split; [discriminate|]. intros [(op & Hop & Hnd) Hall].
      injection Hop as <-.
      destruct Hin as [->|Hin]; [congruence|].
      rewrite forallb_forall in Hall. specialize (Hall _ Hin).
      cbn in Hall. rewrite Hd in Hall. discriminate.
  - destruct Hout as (Hin & Hle).
    split; [discriminate|]. split.
    + intros e' He. injection He as <-. split; [auto|].
      exists (CallGenerateVideos (video_prompt recipe) :: tr).
      split; [reflexivity|]. rewrite count_events_cons. cbn. exact Hc.
    + split; [discriminate|]. intros [_ Hall].
      rewrite forallb_forall in Hall. specialize (Hall _ Hin). discriminate.
  - destruct Hout as (Hd & Hall & Hn).
    split; [discriminate|]. split; [discriminate|].
    split; [intros _; eauto|reflexivity].
Qed.

(* ================================================================== *)
(** ** The generation service: the recipe request *)
(* ================================================================== *)

Lemma includes_char_cons (c x : ascii) (s : string) :
  includes (String x s) (String c EmptyString)
  = Ascii.eqb c x || includes s (String c EmptyString).
Proof. cbn. destruct (Ascii.eqb c x); reflexivity. Qed.

Lemma split_without_separator (c : ascii) (s : string) :
  includes s (String c EmptyString) = false -> split c s = [s].
Proof.
  induction s as [|x s IH]; [reflexivity|].
  rewrite includes_char_cons. intros H. apply orb_false_iff in H.
  destruct H as [Hx Hs]. cbn. rewrite Ascii.eqb_sym, Hx, (IH Hs). reflexivity.
Qed.

Lemma split_at_first_separator (c : ascii) (h rest : string) :
  includes h (String c EmptyString) = false ->
  split c (h ++ String c rest) = h :: split c rest.
Proof.
  induction h as [|x h IH]; intros H.
  - cbn. rewrite Ascii.eqb_refl. reflexivity.
  - rewrite includes_char_cons in H. apply orb_false_iff in H.
    destruct H as [Hx Hh]. cbn. rewrite Ascii.eqb_sym, Hx, (IH Hh). reflexivity.
Qed.

Lemma prefix_rest_app (pat a b r : string) :
  prefix_rest pat a = Some r -> prefix_rest pat (a ++ b) = Some (r ++ b).
Proof.
  revert a. induction pat as [|p pat IH]; intros a H.
  - cbn in *. injection H as <-. reflexivity.
  - destruct a as [|x a]; cbn in *; [discriminate|].
    destruct (Ascii.eqb p x); [apply IH; exact H|discriminate].
Qed.

Lemma includes_app_l (a b pat : string) :
  includes a pat = true -> includes (a ++ b) pat = true.
Proof.
  induction a as [|x a IH]; intros H.
  - cbn in H. destruct (prefix_rest pat "") eqn:E; [|discriminate].
    destruct pat; [|discriminate]. destruct b; reflexivity.
  - cbn [includes] in H.
    destruct (prefix_rest pat (String x a)) eqn:E.
    + change (String x a ++ b) with (String x (a ++ b)).
      cbn [includes].
      change (String x (a ++ b)) with (String x a ++ b).
      rewrite (prefix_rest_app _ _ b _ E). reflexivity.
    + change (String x a ++ b) with (String x (a ++ b)). cbn [includes].
      destruct (prefix_rest pat (String x (a ++ b))); [reflexivity|].
      apply IH. exact H.
Qed.

Lemma prefix_rest_self (pat b : string) : prefix_rest pat (pat ++ b) = Some b.
Proof.
  induction pat as [|p pat IH]; [reflexivity|].
  cbn. rewrite Ascii.eqb_refl. exact IH.
Qed.

Lemma includes_app_r (a b pat : string) :
  includes b pat = true -> includes (a ++ b) pat = true.
Proof.
  induction a as [|x a IH]; intros H; [exact H|].
  change (String x a ++ b) with (String x (a ++ b)). cbn [includes].
  destruct (prefix_rest pat (String x (a ++ b))); [reflexivity|].
  apply IH. exact H.
Qed.

Lemma includes_middle (a pat b : string) : includes (a ++ pat ++ b) pat = true.
Proof.
  apply includes_app_r. destruct (pat ++ b) eqn:E.
  - destruct pat; [reflexivity|discriminate].
  - rewrite <- E. cbn [includes].
    assert (H : prefix_rest pat (pat ++ b) = Some b) by apply prefix_rest_self.
    rewrite E in *. cbn [includes]. rewrite H. reflexivity.
Qed.

Lemma recipe_prompt_image_only (prefs : UserPreferences) :
  pref_ingredients prefs = [] -> image_present prefs = true ->
  includes (recipe_prompt prefs)
    "Identify the ingredients in the image and use them." = true.
Proof.
  intros Hi Hp. unfold recipe_prompt. rewrite Hi, Hp.
  destruct (userInstructions prefs).
  - apply includes_app_l.
    apply (includes_middle "Generate a creative and delicious recipe. "
             "Identify the ingredients in the image and use them." "").
  - apply includes_app_l. apply includes_app_l.
    apply (includes_middle "Generate a creative and delicious recipe. "
             "Identify the ingredients in the image and use them." "").
Qed.

(** X11. The request for a recipe, from the attached image. For an image
    [header,payload] with a comma in neither piece and a non-empty payload,
    the request is one inline part with the payload, declared as
    [image/jpeg] whatever the header says, followed by the prompt. The
    request always ends with the prompt and has no other text part. An
    image text without a comma is left out of the request; when no
    ingredient was typed the prompt still asks to identify the ingredients
    in the image. *)
Theorem recipe_request_image (prefs : UserPreferences) (header payload : string)
  (Himg : image prefs = Some (header ++ "," ++ payload))
  (Hh : includes header "," = false) (Hp : includes payload "," = false)
  (Hne : truthy payload = true) :
  text_request prefs
  = [InlineData payload "image/jpeg"; TextPart (recipe_prompt prefs)]
  /\ (forall sdk,
      exists c, generateRecipe sdk prefs
                = (CallGenerateContent (text_request prefs) :: fst c, snd c)
                /\ count_events is_text_call (fst (generateRecipe sdk prefs)) = 1%nat)
  /\ (forall other : UserPreferences,
      exists inline,
        text_request other = (inline ++ [TextPart (recipe_prompt other)])%list
        /\ (List.length inline <= 1)%nat
        /\ Forall (fun p => match p with
                            | InlineData _ mime => mime = "image/jpeg"
                            | TextPart _ => False
                            end) inline)
  /\ (forall other img,
      image other = Some img -> includes img "," = false ->
      text_request other = [TextPart (recipe_prompt other)]
      /\ (truthy img = true -> pref_ingredients other = [] ->
          includes (recipe_prompt other)
            "Identify the ingredients in the image and use them." = true)).
Proof.
  split; [|split; [|split]].
  - unfold text_request, image_parts. rewrite Himg.
    assert (Ht : truthy (header ++ "," ++ payload) = true).
    { rewrite !append_empty_iff. apply orb_true_r. }
    rewrite Ht.
    change (header ++ "," ++ payload) with (header ++ String "," payload).
    rewrite (split_at_first_separator "," header payload Hh).
    rewrite (split_without_separator "," payload Hp).
    cbn [nth_error]. rewrite Hne. reflexivity.
  - intros sdk. rewrite generateRecipe_cases. cbn zeta.
    destruct (generateContent sdk (text_request prefs)) as [[t|]|e];
      [destruct (truthy t); [destruct (JSON_parse sdk t)|]| |];
      (eexists (_, _); split; [cbn [fst snd]; reflexivity|reflexivity]).
  - intros other. unfold text_request. exists (image_parts other).
    split; [reflexivity|]. unfold image_parts.
    destruct (image other) as [img|]; [|cbn; auto].
    destruct (truthy img); [|cbn; auto].
    destruct (nth_error (split "," img) 1) as [b|]; [|cbn; auto].
    destruct (truthy b); cbn; auto.
  - intros other img Hi Hc.
    split.
    + unfold text_request, image_parts. rewrite Hi.
      rewrite (split_without_separator "," img Hc).
      destruct (truthy img); reflexivity.
    + intros Ht Hing. apply recipe_prompt_image_only; [exact Hing|].
      unfold image_present. rewrite Hi. exact Ht.
Qed.

(** An instance of X11: a PNG data URL; the part is declared as JPEG. *)
Lemma recipe_request_image_witness :
  text_request (photo_prefs "data:image/png;base64,iVBORw0KGgo=")
  = [InlineData "iVBORw0KGgo=" "image/jpeg";
     TextPart (recipe_prompt (photo_prefs "data:image/png;base64,iVBORw0KGgo="))].
Proof.
  exact (proj1 (recipe_request_image
                  (photo_prefs "data:image/png;base64,iVBORw0KGgo=")
                  "data:image/png;base64" "iVBORw0KGgo="
                  eq_refl eq_refl eq_refl eq_refl)).
Defined.

(* ================================================================== *)
(** ** The generation handler: what it leaves alone *)
(* ================================================================== *)


(* ================================================================== *)
(** ** The recipe page: cook mode *)
(* ================================================================== *)

Lemma at_Z_in_range {A : Type} (l : list A) (i : Z) :
  (0 <= i < Z.of_nat (List.length l))%Z ->
  exists x, at_Z l i = Some x /\ nth_error l (Z.to_nat i) = Some x.
Proof.
  intros H. unfold at_Z.
  destruct (i <? 0)%Z eqn:E; [apply Z.ltb_lt in E; lia|].
  destruct (nth_error l (Z.to_nat i)) as [x|] eqn:En; [eauto|].
  apply nth_error_None in En. lia.
Qed.

Lemma cook_step_keeps_range (recipe : Recipe) (s : ResultState) (a : cook_action) :
  (0 <= activeStep s <= Z.max 0 (totalSteps recipe - 1))%Z ->
  (0 <= activeStep (cook_step recipe s a) <= Z.max 0 (totalSteps recipe - 1))%Z
  /\ currentServings (cook_step recipe s a) = currentServings s.
Proof.
  intros H. destruct a; cbn [cook_step].
  - unfold handleKeyDown.
    destruct (isCookMode s); cbn [negb]; [|auto].
    destruct (String.eqb key "ArrowRight").
    { destruct (activeStep s <? totalSteps recipe - 1)%Z eqn:E; [|auto].
      apply Z.ltb_lt in E. cbn. split; [lia|reflexivity]. }
    destruct (String.eqb key "ArrowLeft").
    { destruct (0 <? activeStep s)%Z eqn:E; [|auto].
      apply Z.ltb_lt in E. cbn. split; [lia|reflexivity]. }
    destruct (String.eqb key "Escape"); cbn; auto.
  - destruct (isCookMode s); [|auto]. unfold click_previous.
    destruct (activeStep s =? 0)%Z; [auto|]. cbn. split; [lia|reflexivity].
  - destruct (isCookMode s); [|auto]. unfold click_next_or_finish.
    destruct (activeStep s <? totalSteps recipe - 1)%Z eqn:E; cbn; [|auto].
    apply Z.ltb_lt in E. split; [lia|reflexivity].
  - cbn. auto.
  - cbn. auto.
Qed.

(** X13. Cook mode never leaves the instructions. From the state the page
    is mounted with, after any sequence of key presses and button clicks,
    the step counter is at least 0 and at most the index of the last
    instruction, so with at least one instruction the step shown is an
    instruction of the recipe; the serving count is untouched. In cook
    mode, below the last step, ArrowRight followed by ArrowLeft leads back
    to the same state; at the last step ArrowRight does nothing, and the
    right-hand button leaves cook mode. *)
Theorem cook_mode_stays_in_range (recipe : Recipe) (actions : list cook_action) :
  let s := fold_left (cook_step recipe) actions (initial_result_state recipe) in
  (0 <= activeStep s <= Z.max 0 (totalSteps recipe - 1))%Z
  /\ (instructions recipe <> [] ->
      exists text, shown_step recipe s = Some text
                   /\ In text (instructions recipe))
  /\ currentServings s = servings_or_4 recipe
  /\ (forall s0, isCookMode s0 = true ->
      (0 <= activeStep s0 < totalSteps recipe - 1)%Z ->
      handleKeyDown recipe "ArrowLeft" (handleKeyDown recipe "ArrowRight" s0) = s0)
  /\ (forall s0, isCookMode s0 = true ->
      (totalSteps recipe - 1 <= activeStep s0)%Z ->
      handleKeyDown recipe "ArrowRight" s0 = s0
      /\ isCookMode (click_next_or_finish recipe s0) = false
      /\ activeStep (click_next_or_finish recipe s0) = activeStep s0).
Proof.
  cbn zeta.
  assert (Hinv : forall acts s0,
             (0 <= activeStep s0 <= Z.max 0 (totalSteps recipe - 1))%Z ->
             (0 <= activeStep (fold_left (cook_step recipe) acts s0)
              <= Z.max 0 (totalSteps recipe - 1))%Z
             /\ currentServings (fold_left (cook_step recipe) acts s0)
                = currentServings s0).
  { induction acts as [|a acts IH]; intros s0 H0; cbn [fold_left]; [auto|].
    destruct (cook_step_keeps_range recipe s0 a H0) as [H1 H2].
    destruct (IH _ H1) as [H3 H4]. split; [exact H3|congruence]. }
  destruct (Hinv actions (initial_result_state recipe)) as [Hr Hs].
  { cbn. lia. }
  split; [exact Hr|]. split; [|split; [exact Hs|split]].
  - intros Hne. unfold shown_step.
    destruct (at_Z_in_range (instructions recipe)
                (activeStep (fold_left (cook_step recipe) actions
                               (initial_result_state recipe))))
      as (x & Hx & Hn).
    { unfold totalSteps in Hr. destruct (instructions recipe); [congruence|].
      cbn [List.length] in *. lia. }
    exists x. split; [exact Hx|]. eapply nth_error_In; eauto.
  - intros s0 Hc [H0 H1]. unfold handleKeyDown. rewrite Hc. cbn [negb].
    change (String.eqb "ArrowRight" "ArrowRight") with true.
    change (String.eqb "ArrowLeft" "ArrowRight") with false.
    change (String.eqb "ArrowLeft" "ArrowLeft") with true. cbn iota.
    apply Z.ltb_lt in H1. rewrite H1. cbn [isCookMode setActiveStep activeStep negb].
    rewrite Hc. cbn [negb].
    assert (E : (0 <? activeStep s0 + 1)%Z = true) by (apply Z.ltb_lt; lia).
    rewrite E. destruct s0. unfold setActiveStep. cbn. f_equal. lia.
  - intros s0 Hc H1. unfold handleKeyDown, click_next_or_finish. rewrite Hc.
    cbn [negb]. change (String.eqb "ArrowRight" "ArrowRight") with true. cbn iota.
    assert (E : (activeStep s0 <? totalSteps recipe - 1)%Z = false)
      by (apply Z.ltb_ge; lia).
    rewrite E. auto.
Qed.

(* ================================================================== *)
(** ** The recipe page: the slideshow *)
(* ================================================================== *)

(** Decides the integer tests of the goal that linear arithmetic
    settles. *)
Ltac settle_Z_tests :=
  repeat match goal with
         | |- context [(?a =? ?b)%Z] =>
             first [rewrite (proj2 (Z.eqb_eq a b)) by lia
                   |rewrite (proj2 (Z.eqb_neq a b)) by lia]
         | |- context [(?a <? ?b)%Z] =>
             first [rewrite (proj2 (Z.ltb_lt a b)) by lia
                   |rewrite (proj2 (Z.ltb_ge a b)) by lia]
         | |- context [(?a <=? ?b)%Z] =>
             first [rewrite (proj2 (Z.leb_le a b)) by lia
                   |rewrite (proj2 (Z.leb_gt a b)) by lia]
         end.

Lemma slideshow_from_step (recipe : Recipe) :
  forall (rest done_steps : list string) (fuel : nat) (s : ResultState),
    instructions recipe = (done_steps ++ rest)%list ->
    isPlayingSlideshow s = true ->
    currentSlide s = (Z.of_nat (List.length done_steps) + 1)%Z ->
    (List.length rest < fuel)%nat ->
    slideshow_schedule fuel recipe s
    = (step_slides (Z.of_nat (List.length done_steps)) rest
       ++ [(EndSlide (calories (macros recipe)) (protein (macros recipe)), None)])%list.
Proof.
  induction rest as [|text rest IH]; intros done_steps fuel s Hi Hp Hc Hf.
  - destruct fuel as [|fuel]; [cbn in Hf; lia|].
    rewrite app_nil_r in Hi.
    cbn [slideshow_schedule step_slides app].
    unfold slide_timer, getSlideshowContent, totalSlides.
    rewrite Hp, Hc, Hi. cbn [negb]. settle_Z_tests. reflexivity.
  - destruct fuel as [|fuel]; [cbn in Hf; lia|].
    cbn [slideshow_schedule step_slides app].
    assert (Hlen : List.length (instructions recipe)
                   = (List.length done_steps + S (List.length rest))%nat).
    { rewrite Hi, length_app. reflexivity. }
    assert (Ht : slide_timer recipe s = Some 6000%Z).
    { unfold slide_timer, totalSlides. rewrite Hp, Hc, Hlen. cbn [negb].
      settle_Z_tests. reflexivity. }
    assert (Hg : getSlideshowContent recipe s
                 = StepSlide (Z.of_nat (List.length done_steps) + 1) (Some text)).
    { unfold getSlideshowContent. rewrite Hc, Hlen. settle_Z_tests.
      replace (Z.of_nat (List.length done_steps) + 1 - 1)%Z
        with (Z.of_nat (List.length done_steps)) by lia.
      f_equal. unfold at_Z. settle_Z_tests.
      rewrite Nat2Z.id, Hi, nth_error_app2 by lia.
      rewrite Nat.sub_diag. reflexivity. }
    rewrite Ht, Hg. f_equal.
    assert (Hadv : slide_timeout recipe s
                   = setCurrentSlide (currentSlide s + 1) s).
    { unfold slide_timeout, totalSlides. rewrite Hc, Hlen.
      settle_Z_tests. reflexivity. }
    rewrite Hadv.
    rewrite (IH (done_steps ++ [text])%list fuel).
    + rewrite length_app. cbn [List.length].
      replace (Z.of_nat (List.length done_steps + 1))
        with (Z.of_nat (List.length done_steps) + 1)%Z by lia.
      reflexivity.
    + rewrite <- app_assoc. exact Hi.
    + exact Hp.
    + cbn [currentSlide setCurrentSlide]. rewrite Hc, length_app.
      cbn [List.length]. lia.
    + cbn [List.length] in Hf. lia.
Qed.

Lemma schedule_duration_steps (l : list string) :
  forall i tail,
    schedule_duration (step_slides i l ++ tail)
    = (6000 * Z.of_nat (List.length l) + schedule_duration tail)%Z.
Proof.
  induction l as [|x l IH]; intros i tail; [cbn [step_slides app List.length]; lia|].
  cbn [step_slides app]. unfold schedule_duration at 1. cbn [fold_right snd].
  fold (schedule_duration (step_slides (i + 1) l ++ tail)).
  rewrite IH. cbn [List.length]. lia.
Qed.

(** X14. The slideshow, started and left to itself, shows the title for
    4000 ms, then every instruction once, in order, numbered from 1, for
    6000 ms each, then the end slide with the calories and the protein, on
    which no timer is armed: it stays. Up to the end slide that takes
    4000 ms and 6000 ms for each instruction. Starting it clears the video
    error. *)
Theorem slideshow_plays_every_step (recipe : Recipe) (s : ResultState)
  (fuel : nat) (Hfuel : (List.length (instructions recipe) + 2 <= fuel)%nat) :
  let schedule := slideshow_schedule fuel recipe (startSlideshow s) in
  schedule
  = ((TitleSlide (title recipe) (description recipe), Some 4000%Z)
     :: step_slides 0 (instructions recipe)
     ++ [(EndSlide (calories (macros recipe)) (protein (macros recipe)), None)])%list
  /\ schedule_duration schedule
     = (4000 + 6000 * Z.of_nat (List.length (instructions recipe)))%Z
  /\ List.length schedule = (List.length (instructions recipe) + 2)%nat
  /\ videoError (startSlideshow s) = None
  /\ (forall s', currentSlide s' = (totalSlides recipe - 1)%Z ->
      slide_timer recipe s' = None /\ slide_timeout recipe s' = s').
Proof.
  cbn zeta.
  assert (E : slideshow_schedule fuel recipe (startSlideshow s)
              = ((TitleSlide (title recipe) (description recipe), Some 4000%Z)
                 :: step_slides 0 (instructions recipe)
                 ++ [(EndSlide (calories (macros recipe)) (protein (macros recipe)),
                      None)])%list).
  { destruct fuel as [|fuel]; [lia|].
    cbn [slideshow_schedule]. 
    change (slide_timer recipe (startSlideshow s)) with (Some 4000%Z).
    change (getSlideshowContent recipe (startSlideshow s))
      with (TitleSlide (title recipe) (description recipe)).
    f_equal.
    assert (Hadv : slide_timeout recipe (startSlideshow s)
                   = setCurrentSlide 1 (startSlideshow s)).
    { unfold slide_timeout, totalSlides.
      change (currentSlide (startSlideshow s)) with 0%Z.
      destruct (0 <? _)%Z eqn:E; [reflexivity|apply Z.ltb_ge in E; lia]. }
    rewrite Hadv.
    apply (slideshow_from_step recipe (instructions recipe) [] fuel);
      try reflexivity. lia. }
  rewrite E. split; [reflexivity|]. split; [|split; [|split; [reflexivity|]]].
  - unfold schedule_duration at 1. cbn [fold_right snd].
    fold (schedule_duration
            (step_slides 0 (instructions recipe)
             ++ [(EndSlide (calories (macros recipe)) (protein (macros recipe)),
                  None)])).
    rewrite schedule_duration_steps.
    unfold schedule_duration. cbn [fold_right snd]. lia.
  - cbn [List.length]. rewrite length_app. cbn [List.length].
    assert (Hl : forall l i, List.length (step_slides i l) = List.length l).
    { induction l as [|x l IH]; intros i; cbn; [reflexivity|].
      rewrite IH. reflexivity. }
    rewrite Hl. lia.
  - intros s' Hc. unfold slide_timer, slide_timeout. rewrite Hc.
    rewrite Z.eqb_refl, Z.ltb_irrefl. split; [|reflexivity].
    destruct (isPlayingSlideshow s'); cbn [negb]; [|reflexivity].
    destruct (totalSlides recipe - 1 =? 0)%Z eqn:E0; [|reflexivity].
    apply Z.eqb_eq in E0. unfold totalSlides in E0. lia.
Qed.

(** An instance of X14: the sample recipe, with its two instructions. *)
Lemma slideshow_plays_every_step_witness :
  slideshow_schedule 4 sample_recipe
    (startSlideshow (initial_result_state sample_recipe))
  = [(TitleSlide "Lemon Pasta" "Bright and quick.", Some 4000%Z);
     (StepSlide 1 (Some "Boil the pasta."), Some 6000%Z);
     (StepSlide 2 (Some "Toss with lemon."), Some 6000%Z);
     (EndSlide (JSNumber.of_Z 520) (JSNumber.of_Z 30), None)].
Proof.
  exact (proj1 (slideshow_plays_every_step sample_recipe
                  (initial_result_state sample_recipe) 4 (le_n 4))).
Defined.

(* ================================================================== *)
(** ** The recipe page: the video button *)
(* ================================================================== *)

Lemma generateRecipeVideo_returns_nonempty (sdk : Provider) (recipe : Recipe)
  (answers : list (completion Operation)) (url : string) :
  snd (generateRecipeVideo sdk recipe answers) = Returned (Some url) ->
  truthy url = true.
Proof.
  unfold generateRecipeVideo.
  destruct (generateVideos sdk (video_prompt recipe)) as [operation|e];
    [|discriminate].
  destruct (poll_loop operation answers) as [tr [final|e|]]; try discriminate.
  cbn [snd]. destruct (videoUri final) as [uri|]; [|discriminate].
  destruct (truthy uri) eqn:Hu; [|discriminate].
  intros E. injection E as <-. rewrite append_empty_iff, Hu. reflexivity.
Qed.

(** X15. The video button, on an idle page whose key step lets the
    handler through, with the service run against the poll answers. While
    the service is still polling the page shows the spinner and no error,
    and a second click does nothing. When the service returns a reference,
    the page stores it and shows no error; when it returns [null], the page
    shows the could-not-generate message; when it throws, the page shows the
    authorization message if the error's message includes "Requested entity
    was not found" and the unavailable message otherwise. In each of these
    three the spinner is off and the stored reference is unchanged unless a
    new one arrived. A click while generating changes nothing; a key step
    that fails never calls the service. *)
Theorem video_button_outcomes (sdk : Provider) (recipe : Recipe)
  (answers : list (completion Operation)) (aistudio : option AIStudio)
  (s : ResultState)
  (Hidle : isGeneratingVideo s = false)
  (Hkey : key_step_passes aistudio = true) :
  let out := snd (generateRecipeVideo sdk recipe answers) in
  let s' := fst (handleGenerateVideo aistudio out s) in
  match out with
  | StillPolling =>
      isGeneratingVideo s' = true /\ videoError s' = None
      /\ videoUrl s' = videoUrl s
      /\ forall a' out', handleGenerateVideo a' out' s' = (s', [])
  | Returned (Some url) =>
      isGeneratingVideo s' = false /\ videoError s' = None
      /\ videoUrl s' = Some url
  | Returned None =>
      isGeneratingVideo s' = false /\ videoUrl s' = videoUrl s
      /\ videoError s' = Some "Could not generate video. Please try again."
  | Threw err =>
      isGeneratingVideo s' = false /\ videoUrl s' = videoUrl s
      /\ videoError s' =
           Some (if truthy (message err)
                    && includes (message err) "Requested entity was not found"
                 then "Authorization failed. Please select a valid API key."
                 else "Video generation unavailable right now.")
  end
  /\ currentServings s' = currentServings s
  /\ activeStep s' = activeStep s /\ isCookMode s' = isCookMode s
  /\ currentSlide s' = currentSlide s
  /\ isPlayingSlideshow s' = isPlayingSlideshow s
  /\ (forall a0 out0 s0, isGeneratingVideo s0 = true ->
      handleGenerateVideo a0 out0 s0 = (s0, []))
  /\ (forall a0 out0 s0, isGeneratingVideo s0 = false ->
      key_step_passes (Some a0) = false ->
      isGeneratingVideo (fst (handleGenerateVideo (Some a0) out0 s0)) = false
      /\ videoError (fst (handleGenerateVideo (Some a0) out0 s0)) <> None
      /\ ~ In CallGenerateRecipeVideo (snd (handleGenerateVideo (Some a0) out0 s0))).
Proof.
  cbn zeta.
  pose proof (generateRecipeVideo_returns_nonempty sdk recipe answers) as Hurl.
  destruct (snd (generateRecipeVideo sdk recipe answers)) as [[url|]|err|];
    unfold handleGenerateVideo; rewrite Hidle;
    (split; [|split; [|split; [|split; [|split; [|split; [|split]]]]]]);
    try (intros a0 out0 s0 H0; rewrite H0; reflexivity);
    try (intros a0 out0 s0 H0 Hk; rewrite H0;
         unfold key_step_passes in Hk;
         destruct (hasSelectedApiKey a0) as [[|]|e0]; try discriminate;
         [destruct (openSelectKey a0) as [u|e1]; try discriminate|];
         unfold video_failed;
         match goal with
         | |- context [truthy (message ?e) && _] =>
             destruct (truthy (message e) && includes (message e) _)
         end;
         cbn; (split; [reflexivity|]); (split; [discriminate|]);
         intuition discriminate);
    unfold key_step_passes in Hkey;
    (destruct aistudio as [a|];
     [destruct (hasSelectedApiKey a) as [[|]|e0]; try discriminate;
      try (destruct (openSelectKey a) as [u|e1]; try discriminate)|]);
    rewrite ?(Hurl url eq_refl);
    unfold video_failed;
    try match goal with
        | |- context [truthy (message ?e) && _] =>
            destruct (truthy (message e) && includes (message e) _)
        end;
    cbn; auto.
Qed.

(** An instance of X15: no [aistudio], and the operation is done at the
    second poll. *)
Lemma video_button_outcomes_witness :
  let sdk := sample_provider (Normal None) (Normal None) in
  let out :=
    snd (generateRecipeVideo sdk sample_recipe
           [Normal pending_operation; Normal finished_operation]) in
  let s' :=
    fst (handleGenerateVideo None out (initial_result_state sample_recipe)) in
  videoUrl s' = Some "https://video.example/v1?alt=media&key=KEY"
  /\ videoError s' = None /\ isGeneratingVideo s' = false.
Proof.
  cbn zeta.
  pose proof (video_button_outcomes
                (sample_provider (Normal None) (Normal None)) sample_recipe
                [Normal pending_operation; Normal finished_operation] None
                (initial_result_state sample_recipe) eq_refl eq_refl) as H.
  cbn zeta in H. destruct H as ((H1 & H2 & H3) & _).
  split; [exact H3|]. split; [exact H2|exact H1].
Defined.

(* ================================================================== *)
(** ** The cookbook cards: the stars *)
(* ================================================================== *)

(** X16. After a click on star [k] of a card (1 to 5), every entry of the
    cookbook with the card's id is drawn with exactly the stars 1 to [k]
    filled, and every other entry is an entry of the cookbook as it was.
    An entry without a rating, or rated 0, has no star filled. *)
Theorem stars_after_rating (st : AppState) (fav : SavedRecipe) (k : Z)
  (Hk : (1 <= k <= 5)%Z) :
  let st' := handleRate fav k st in
  (forall fav', In fav' (favorites st') -> id fav' = id fav ->
     map (star_filled fav') stars = map (fun star => (star <=? k)%Z) stars)
  /\ (forall fav', In fav' (favorites st') -> id fav' <> id fav ->
      In fav' (favorites st))
  /\ (In fav (favorites st) ->
      exists fav', In fav' (favorites st') /\ id fav' = id fav
                   /\ saved fav' = saved fav)
  /\ (forall f, rating f = None \/ rating f = Some zero ->
      map (star_filled f) stars = [false; false; false; false; false]).
Proof.
  cbn zeta. unfold handleRate.
  assert (Hfav : favorites (handleRateRecipe (id fav) (JSNumber.of_Z k) st)
                 = rate_favorites (id fav) (JSNumber.of_Z k) (favorites st)).
  { unfold handleRateRecipe. destruct (recipe st) as [[r|f]|]; try reflexivity.
    destruct (String.eqb (id f) (id fav)); reflexivity. }
  rewrite Hfav. unfold rate_favorites.
  split; [|split; [|split]].
  - intros fav' Hin Hid. apply in_map_iff in Hin.
    destruct Hin as (f0 & E & Hin).
    destruct (String.eqb_spec (id f0) (id fav)) as [E0|E0].
    + subst fav'. unfold star_filled, rating_or_0, stars.
      cbn [with_rating rating].
      assert (Hcases : (k = 1 \/ k = 2 \/ k = 3 \/ k = 4 \/ k = 5)%Z) by lia.
      destruct Hcases as [E|[E|[E|[E|E]]]]; subst k; vm_compute; reflexivity.
    + subst fav'. contradiction.
  - intros fav' Hin Hid. apply in_map_iff in Hin.
    destruct Hin as (f0 & E & Hin).
    destruct (String.eqb_spec (id f0) (id fav)) as [E0|E0].
    + subst fav'. cbn in Hid. contradiction.
    + subst fav'. exact Hin.
  - intros Hin. exists (with_rating (JSNumber.of_Z k) fav).
    split; [|split; reflexivity].
    apply in_map_iff. exists fav. rewrite String.eqb_refl. auto.
  - intros f [H|H]; unfold star_filled, rating_or_0, stars; rewrite H;
      vm_compute; reflexivity.
Qed.

(** An instance of X16: the third star of the sample favorite. *)
Lemma stars_after_rating_witness :
  map (star_filled (rated_favorite 3)) stars = [true; true; true; false; false]
  /\ In (rated_favorite 3)
       (favorites (handleRate sample_favorite 3 cookbook_state)).
Proof.
  assert (Hin : In (rated_favorite 3)
                  (favorites (handleRate sample_favorite 3 cookbook_state))).
  { left. reflexivity. }
  split; [|exact Hin].
  exact (proj1 (stars_after_rating cookbook_state sample_favorite 3
                  ltac:(lia)) (rated_favorite 3) Hin eq_refl).
Defined.

(* ================================================================== *)
(** ** Sharing *)
(* ================================================================== *)

Lemma includes_char_app (a b : string) (c : ascii) :
  includes (a ++ b) (String c EmptyString)
  = includes a (String c EmptyString) || includes b (String c EmptyString).
Proof.
  induction a as [|x a IH].
  - cbn [append]. destruct b; reflexivity.
  - change (String x a ++ b) with (String x (a ++ b)).
    rewrite !includes_char_cons, IH. apply orb_assoc.
Qed.






(* ================================================================== *)
(** ** The serving control *)
(* ================================================================== *)

Lemma strict_eq_refl (x : number) : isNaN x = false -> strict_eq x x = true.
Proof.
  destruct x as [s|s| |s m e]; try discriminate; intros _;
    unfold strict_eq, SFeqb, SFcompare.
  - reflexivity.
  - destruct s; reflexivity.
  - rewrite Z.compare_refl, Pos.compare_cont_refl. destruct s; reflexivity.
Qed.

Lemma servings_or_4_not_nan (recipe : Recipe) :
  isNaN (servings_or_4 recipe) = false.
Proof.
  unfold servings_or_4.
  destruct (servings recipe) as [s|s| |s m e]; reflexivity.
Qed.

Lemma getScaledQuantity_same (q : string) (b : number) :
  isNaN b = false -> getScaledQuantity q b b = q.
Proof.
  intros Hb. unfold getScaledQuantity. rewrite (strict_eq_refl b Hb).
  destruct q; reflexivity.
Qed.

Lemma ingredient_texts_unscaled (recipe : Recipe) :
  ingredient_texts recipe (servings_or_4 recipe)
  = map unscaled_text (ingredients recipe).
Proof.
  unfold ingredient_texts. apply map_ext. intros [i|s]; [|reflexivity].
  cbn [formatIngredientText unscaled_text].
  rewrite getScaledQuantity_same by apply servings_or_4_not_nan. reflexivity.
Qed.

(** X18. At the serving count the page opens with ([recipe.servings], or
    4 when that is 0, [NaN] or missing) nothing is rescaled: every
    ingredient line is the recipe's own quantity, unit and item, joined by
    single spaces with the empty ones left out, and a plain string is
    itself. The text handed to the share sheet lists the same lines, each
    after ["- "], under the same serving count. The effect that runs when
    the recipe changes puts the page back to these lines. *)
Theorem page_opens_unscaled (href : string) (recipe : Recipe) (s : ResultState) :
  shown_ingredients recipe (initial_result_state recipe)
  = map unscaled_text (ingredients recipe)
  /\ shown_ingredients recipe (on_recipe_change recipe s)
     = map unscaled_text (ingredients recipe)
  /\ fullText (getShareContent href recipe (initial_result_state recipe))
     = "Check out this recipe for " ++ title recipe ++ "!" ++ nl ++ nl
       ++ description recipe ++ nl ++ nl
       ++ "Serves: " ++ toString (servings_or_4 recipe) ++ nl ++ nl
       ++ "Ingredients:" ++ nl
       ++ join nl (map (fun line => "- " ++ line)
                     (map unscaled_text (ingredients recipe)))
       ++ nl ++ nl
       ++ "Instructions:" ++ nl ++ join nl (numbered 0 (instructions recipe))
  /\ (forall s0,
      fullText (getShareContent href recipe s0)
      = "Check out this recipe for " ++ title recipe ++ "!" ++ nl ++ nl
        ++ description recipe ++ nl ++ nl
        ++ "Serves: " ++ toString (currentServings s0) ++ nl ++ nl
        ++ "Ingredients:" ++ nl
        ++ join nl (map (fun line => "- " ++ line) (shown_ingredients recipe s0))
        ++ nl ++ nl
        ++ "Instructions:" ++ nl ++ join nl (numbered 0 (instructions recipe))).
Proof.
  assert (Hshare : forall s0,
             map (fun ing => "- " ++ formatIngredientText ing (servings_or_4 recipe)
                                       (currentServings s0))
               (ingredients recipe)
             = map (fun line => "- " ++ line) (shown_ingredients recipe s0)).
  { intros s0. unfold shown_ingredients, ingredient_texts. rewrite map_map.
    apply map_ext. intros [i|t]; reflexivity. }
  split; [|split; [|split]].
  - apply ingredient_texts_unscaled.
  - apply ingredient_texts_unscaled.
  - unfold getShareContent. cbn [fullText]. rewrite Hshare.
    unfold shown_ingredients. cbn [currentServings initial_result_state].
    rewrite ingredient_texts_unscaled. reflexivity.
  - intros s0. unfold getShareContent. cbn [fullText]. rewrite Hshare.
    reflexivity.
Qed.

Lemma add_not_nan (x d : number) :
  isNaN x = false -> isFinite d = true -> isNaN (JSMath.add x d) = false.
Proof.
  intros Hx Hd. unfold JSMath.add, SFadd.
  destruct x as [sx|sx| |sx mx ex]; try discriminate;
    destruct d as [sd|sd| |sd md ed]; try discriminate; try reflexivity.
  - destruct sx, sd; reflexivity.
  - unfold binary_normalize.
    destruct (_ + _)%Z; try reflexivity; apply binary_round_not_nan.
Qed.

Lemma ltb_one_antisym (y : number) :
  ltb (JSNumber.of_Z 1) y = true -> ltb y (JSNumber.of_Z 1) = false.
Proof.
  change (JSNumber.of_Z 1) with (S754_finite false 4503599627370496 (-52)).
  unfold ltb, SFltb, SFcompare.
  destruct y as [s|s| |s m e]; try discriminate.
  - destruct s; [discriminate|reflexivity].
  - destruct s; [discriminate|].
    rewrite (Z.compare_antisym (-52) e).
    assert (Hc : Pos.compare_cont Eq m 4503599627370496
                 = CompOpp (Pos.compare_cont Eq 4503599627370496 m))
      by (rewrite Pos.compare_cont_antisym; reflexivity).
    rewrite Hc.
    destruct (-52 ?= e)%Z; cbn [CompOpp]; try discriminate; try reflexivity.
    destruct (Pos.compare_cont Eq 4503599627370496 m); cbn [CompOpp];
      try discriminate; reflexivity.
Qed.

Lemma max_one_at_least_one (y : number) :
  isNaN y = false ->
  isNaN (JSMath.max (JSNumber.of_Z 1) y) = false
  /\ JSMath.leb (JSNumber.of_Z 1) (JSMath.max (JSNumber.of_Z 1) y) = true
  /\ ltb (JSMath.max (JSNumber.of_Z 1) y) (JSNumber.of_Z 1) = false.
Proof.
  intros Hy. unfold JSMath.max.
  change (isNaN (JSNumber.of_Z 1)) with false. rewrite Hy. cbn [orb].
  destruct (ltb (JSNumber.of_Z 1) y) eqn:E1.
  - split; [exact Hy|]. split; [|apply ltb_one_antisym; exact E1].
    unfold JSMath.leb, SFleb. unfold ltb, SFltb in E1.
    destruct (SFcompare (JSNumber.of_Z 1) y) as [[]|]; try discriminate.
    reflexivity.
  - assert (H1 : (if ltb y (JSNumber.of_Z 1) then JSNumber.of_Z 1
                  else match JSNumber.of_Z 1 with
                       | S754_zero true => y
                       | _ => JSNumber.of_Z 1
                       end) = JSNumber.of_Z 1).
    { destruct (ltb y (JSNumber.of_Z 1)); reflexivity. }
    rewrite H1. repeat split; reflexivity.
Qed.

(** X19. The serving count never drops below one and never becomes
    [NaN]. Whatever number the recipe gives as its servings, after any
    presses of the two buttons (or any calls of [updateServings] with
    finite steps) the count is a number; after at least one call it is at
    least 1. None of this touches the step counters or the video state. *)
Theorem servings_never_below_one (recipe : Recipe) (deltas : list number)
  (Hd : Forall (fun d => isFinite d = true) deltas) :
  let s := fold_left (fun s0 d => updateServings d s0) deltas
             (initial_result_state recipe) in
  isNaN (currentServings s) = false
  /\ (deltas <> [] ->
      JSMath.leb (JSNumber.of_Z 1) (currentServings s) = true
      /\ ltb (currentServings s) (JSNumber.of_Z 1) = false)
  /\ activeStep s = 0%Z /\ currentSlide s = 0%Z
  /\ videoUrl s = None /\ videoError s = None
  /\ (forall presses,
      isNaN (currentServings (fold_left press presses (initial_result_state recipe)))
      = false).
Proof.
  cbn zeta.
  assert (Hstep : forall s0 d, isNaN (currentServings s0) = false ->
             isFinite d = true ->
             isNaN (currentServings (updateServings d s0)) = false
             /\ JSMath.leb (JSNumber.of_Z 1) (currentServings (updateServings d s0))
                = true
             /\ ltb (currentServings (updateServings d s0)) (JSNumber.of_Z 1) = false).
  { intros s0 d H0 Hfin. unfold updateServings.
    cbn [currentServings setCurrentServings].
    apply max_one_at_least_one. apply add_not_nan; assumption. }
  assert (Hgen : forall ds, Forall (fun d => isFinite d = true) ds ->
             forall s0, isNaN (currentServings s0) = false ->
               let s1 := fold_left (fun s0 d => updateServings d s0) ds s0 in
               isNaN (currentServings s1) = false
               /\ (ds <> [] ->
                   JSMath.leb (JSNumber.of_Z 1) (currentServings s1) = true
                   /\ ltb (currentServings s1) (JSNumber.of_Z 1) = false)
               /\ activeStep s1 = activeStep s0 /\ currentSlide s1 = currentSlide s0
               /\ videoUrl s1 = videoUrl s0 /\ videoError s1 = videoError s0).
  { intros ds Hds. induction Hds as [|d ds Hfin Hds IH]; intros s0 H0; cbn zeta.
    - cbn [fold_left]. repeat split; auto; congruence.
    - cbn [fold_left].
      destruct (Hstep s0 d H0 Hfin) as (Hn & Hle & Hlt).
      destruct (IH (updateServings d s0) Hn) as (IHn & IHge & IHframe).
      split; [exact IHn|]. split; [|exact IHframe].
      intros _. destruct ds as [|d' ds'].
      + cbn [fold_left]. auto.
      + apply IHge. discriminate. }
  destruct (Hgen deltas Hd (initial_result_state recipe)
              (servings_or_4_not_nan recipe)) as (H1 & H2 & H3 & H4 & H5 & H6).
  repeat split; try assumption; try (apply H2; assumption).
  intros presses.
  assert (Hp : forall ps s0, isNaN (currentServings s0) = false ->
             isNaN (currentServings (fold_left press ps s0)) = false).
  { induction ps as [|p ps IH]; intros s0 H0; [exact H0|].
    cbn [fold_left]. apply IH. destruct p; cbn [press].
    - apply Hstep; [exact H0|reflexivity].
    - destruct (minus_disabled s0); [exact H0|].
      apply Hstep; [exact H0|reflexivity]. }
  apply Hp. apply servings_or_4_not_nan.
Qed.

(** An instance of X19: the sample recipe, minus pressed three times. *)
Lemma servings_never_below_one_witness :
  let s := fold_left (fun s0 d => updateServings d s0)
             [JSNumber.of_Z (-1); JSNumber.of_Z (-1); JSNumber.of_Z (-1)]
             (initial_result_state sample_recipe) in
  JSMath.leb (JSNumber.of_Z 1) (currentServings s) = true.
Proof.
  cbn zeta.
  assert (Hd : Forall (fun d => isFinite d = true)
                 [JSNumber.of_Z (-1); JSNumber.of_Z (-1); JSNumber.of_Z (-1)])
    by (repeat constructor).
  destruct (servings_never_below_one sample_recipe _ Hd) as (_ & H & _).
  cbn zeta in H. apply H. discriminate.
Defined.

(* ================================================================== *)
(** ** Numbers: whole numbers add exactly *)
(* ================================================================== *)

Local Open Scope R_scope.

(** The number of an integer other than zero, below 2^53 in size: its
    sign, and a 53-bit mantissa that is the integer's size shifted left. *)
Lemma of_Z_signed (z : Z) :
  (z <> 0)%Z -> (Z.abs z < 2 ^ 53)%Z ->
  exists m e, JSNumber.of_Z z = S754_finite (z <? 0)%Z m e
              /\ digits2_pos m = 53%positive /\ (-52 <= e <= 0)%Z
              /\ (Zpos m = Z.abs z * 2 ^ (- e))%Z.
Proof.
  intros Hz0 Hz.
  assert (Hgen : forall s p, (Zpos p < 2 ^ 53)%Z ->
            exists m e, binary_round prec emax s p 0 = S754_finite s m e
                        /\ digits2_pos m = 53%positive /\ (-52 <= e <= 0)%Z
                        /\ (Zpos m = Zpos p * 2 ^ (- e))%Z).
  { intros s p Hp.
    pose proof (digits2_bounds p) as [Hlo Hhi].
    assert (Hd : (1 <= Zpos (digits2_pos p) <= 53)%Z).
    { split; [lia|].
      destruct (Z_lt_le_dec 53 (Zpos (digits2_pos p))) as [H|H]; [|lia].
      assert (2 ^ 53 <= 2 ^ (Zpos (digits2_pos p) - 1))%Z
        by (apply Z.pow_le_mono_r; lia). lia. }
    destruct (binary_round_normal s p 0) as (m & e & E & Hdm & He & _ & Hex);
      [cbn zeta; lia|].
    cbn zeta in He, Hex.
    destruct (Hex ltac:(lia)) as [Ee Ev].
    exists m, e. split; [exact E|]. split; [exact Hdm|]. split; [lia|].
    rewrite pow2_0, Rmult_1_r in Ev.
    rewrite (pow2_neg_inv e) in Ev by lia.
    assert (Hpos : 0 < IZR (2 ^ (- e))).
    { apply IZR_lt. apply Z.pow_pos_nonneg; lia. }
    apply eq_IZR. rewrite mult_IZR. rewrite <- Ev. field. lra. }
  destruct z as [|p|p]; [congruence| |].
  - destruct (Hgen false p Hz) as (m & e & E & H). exists m, e.
    split; [exact E|exact H].
  - destruct (Hgen true p Hz) as (m & e & E & H). exists m, e.
    split; [exact E|exact H].
Qed.

(** Rounding a mantissa that carries [k] more zero bits, at an exponent
    [k] lower, gives the same number. *)
Lemma binary_round_shifted (s : bool) (n p : positive) (k : Z) :
  (0 <= k)%Z -> (Zpos n < 2 ^ 53)%Z -> (Zpos p = Zpos n * 2 ^ k)%Z ->
  binary_round prec emax s p (- k) = binary_round prec emax s n 0.
Proof.
  intros Hk Hn Hp.
  pose proof (digits2_bounds n) as [Hlo Hhi].
  set (dn := Zpos (digits2_pos n)) in *.
  assert (Hdn : (1 <= dn <= 53)%Z).
  { split; [subst dn; lia|].
    destruct (Z_lt_le_dec 53 dn) as [H|H]; [|lia].
    assert (2 ^ 53 <= 2 ^ (dn - 1))%Z by (apply Z.pow_le_mono_r; lia). lia. }
  assert (Hdp : Zpos (digits2_pos p) = (dn + k)%Z).
  { apply digits2_unique. rewrite Hp.
    replace (dn + k - 1)%Z with ((dn - 1) + k)%Z by lia.
    rewrite !Z.pow_add_r by lia.
    assert (0 < 2 ^ k)%Z by (apply Z.pow_pos_nonneg; lia). nia. }
  destruct (binary_round_normal s n 0) as (m1 & e1 & E1 & Hd1 & He1 & _ & Hex);
    [cbn zeta; fold dn; lia|].
  cbn zeta in He1, Hex. fold dn in He1, Hex.
  destruct (Hex ltac:(lia)) as [Ee1 Ev1]. clear Hex.
  destruct (binary_round_normal s p (- k)) as (m2 & e2 & E2 & Hd2 & He2 & Herr & _);
    [cbn zeta; rewrite Hdp; lia|].
  cbn zeta in He2, Herr. rewrite Hdp in He2, Herr.
  rewrite E1, E2.
  assert (Hval : IZR (Zpos p) * pow2 (- k) = IZR (Zpos m1) * pow2 e1).
  { rewrite Ev1, pow2_0, Rmult_1_r, Hp, mult_IZR.
    rewrite pow2_opp, (pow2_IZR k) by lia.
    assert (0 < IZR (2 ^ k)) by (apply IZR_lt; apply Z.pow_pos_nonneg; lia).
    field. lra. }
  rewrite Hval in Herr.
  replace (dn + k + - k - 54)%Z with (e1 - 1)%Z in Herr by lia.
  rewrite pow2_pred in Herr.
  pose proof (pow2_pos e1) as Hpe.
  pose proof (digits2_bounds m1) as [Hlo1 Hhi1]. rewrite Hd1 in Hlo1, Hhi1.
  pose proof (digits2_bounds m2) as [Hlo2 Hhi2]. rewrite Hd2 in Hlo2, Hhi2.
  change (2 ^ (53 - 1))%Z with 4503599627370496%Z in *.
  change (2 ^ 53)%Z with 9007199254740992%Z in *.
  apply Rabs_le_between in Herr.
  assert (Hcase : (e2 = e1 \/ e2 = e1 + 1)%Z) by lia.
  destruct Hcase as [->| ->].
  - assert (Hm : (Zpos m2 = Zpos m1)%Z).
    { assert (H1 : IZR (Zpos m2) - IZR (Zpos m1) < 1) by nra.
      assert (H2 : -1 < IZR (Zpos m2) - IZR (Zpos m1)) by nra.
      rewrite <- minus_IZR in H1, H2.
      apply lt_IZR in H1, H2. lia. }
    injection Hm as ->. reflexivity.
  - exfalso. rewrite pow2_succ in Herr.
    assert (H1 : 2 * IZR (Zpos m2) - IZR (Zpos m1) < 1) by nra.
    assert (H3 : IZR (Zpos m1) <= 9007199254740991).
    { apply IZR_le. lia. }
    apply IZR_le in Hlo2. lra.
Qed.

(** Whole numbers add exactly as long as the sum stays below 2^53 in
    size. *)
Lemma add_of_Z (a b : Z) :
  (Z.abs a < 2 ^ 53)%Z -> (Z.abs b < 2 ^ 53)%Z -> (Z.abs (a + b) < 2 ^ 53)%Z ->
  JSMath.add (JSNumber.of_Z a) (JSNumber.of_Z b) = JSNumber.of_Z (a + b).
Proof.
  intros Ha Hb Hab.
  destruct (Z.eq_dec a 0) as [->|Ha0].
  { cbn [Z.add]. destruct (Z.eq_dec b 0) as [->|Hb0]; [reflexivity|].
    destruct (of_Z_signed b Hb0 Hb) as (mb & eb & Eb & _). rewrite Eb.
    reflexivity. }
  destruct (Z.eq_dec b 0) as [->|Hb0].
  { rewrite Z.add_0_r.
    destruct (of_Z_signed a Ha0 Ha) as (ma & ea & Ea & _). rewrite Ea.
    reflexivity. }
  destruct (of_Z_signed a Ha0 Ha) as (ma & ea & Ea & Hda & Hea & Hma).
  destruct (of_Z_signed b Hb0 Hb) as (mb & eb & Eb & Hdb & Heb & Hmb).
  rewrite Ea, Eb. unfold JSMath.add, SFadd.
  set (ez := Z.min ea eb).
  assert (Hez : (-52 <= ez <= 0 /\ ez <= ea /\ ez <= eb)%Z) by (subst ez; lia).
  rewrite (shl_align_value ma ea ez) by lia.
  rewrite (shl_align_value mb eb ez) by lia.
  rewrite Hma, Hmb.
  assert (Hshift : forall x e, (ez <= e <= 0)%Z ->
            (x * 2 ^ (- e) * 2 ^ (e - ez) = x * 2 ^ (- ez))%Z).
  { intros x e He. rewrite <- Z.mul_assoc, <- Z.pow_add_r by lia.
    f_equal. f_equal. lia. }
  rewrite !Hshift by lia.
  assert (Hsum : (cond_Zopp (a <? 0) (Z.abs a * 2 ^ (- ez))
                  + cond_Zopp (b <? 0) (Z.abs b * 2 ^ (- ez))
                  = (a + b) * 2 ^ (- ez))%Z).
  { unfold cond_Zopp.
    destruct (a <? 0)%Z eqn:Sa; destruct (b <? 0)%Z eqn:Sb;
      rewrite ?Z.ltb_lt, ?Z.ltb_ge in Sa, Sb; nia. }
  rewrite Hsum. clear Hsum Hshift.
  destruct (Z.eq_dec (a + b) 0) as [E0|Hab0].
  { rewrite E0. reflexivity. }
  assert (Hpow : (0 < 2 ^ (- ez))%Z) by (apply Z.pow_pos_nonneg; lia).
  unfold JSNumber.of_Z, binary_normalize.
  destruct (a + b)%Z as [|n|n] eqn:En; [congruence| |].
  - destruct (Zpos n * 2 ^ (- ez))%Z as [|p|p] eqn:Ep; try lia.
    pose proof (binary_round_shifted false n p (- ez) ltac:(lia) Hab
                  (eq_sym Ep)) as H.
    rewrite Z.opp_involutive in H. exact H.
  - destruct (Zneg n * 2 ^ (- ez))%Z as [|p|p] eqn:Ep; try lia.
    pose proof (binary_round_shifted true n p (- ez) ltac:(lia) Hab
                  ltac:(lia)) as H.
    rewrite Z.opp_involutive in H. exact H.
Qed.

(** [Math.max(1, n)] on a whole number. *)
Lemma max_one_of_Z (n : Z) :
  (Z.abs n < 2 ^ 53)%Z ->
  JSMath.max (JSNumber.of_Z 1) (JSNumber.of_Z n) = JSNumber.of_Z (Z.max 1 n).
Proof.
  intros Hn.
  destruct (Z.eq_dec n 0) as [->|Hn0]; [reflexivity|].
  destruct (of_Z_signed n Hn0 Hn) as (m & e & E & Hd & He & Hm).
  destruct (Z_lt_le_dec n 0) as [Hneg|Hpos].
  - rewrite Z.max_l by lia. rewrite E.
    rewrite (proj2 (Z.ltb_lt n 0) Hneg). reflexivity.
  - rewrite Z.max_r by lia.
    rewrite (proj2 (Z.ltb_ge n 0) Hpos) in E. rewrite E.
    change (JSNumber.of_Z 1) with (S754_finite false 4503599627370496 (-52)).
    unfold JSMath.max. cbn [isNaN orb].
    pose proof (ltb_normal 4503599627370496 m (-52) e eq_refl Hd) as [H1 H2].
    pose proof (ltb_normal m 4503599627370496 e (-52) Hd eq_refl) as [H3 H4].
    cbn zeta in *.
    assert (Hv : IZR (Zpos m) * pow2 e = IZR n).
    { rewrite Hm, mult_IZR, (pow2_neg_inv e) by lia.
      rewrite Z.abs_eq by lia.
      assert (0 < IZR (2 ^ (- e))) by (apply IZR_lt; apply Z.pow_pos_nonneg; lia).
      field. lra. }
    assert (Hone : IZR 4503599627370496 * pow2 (-52) = 1).
    { change (-52)%Z with (Z.opp 52). rewrite pow2_opp, pow2_IZR by lia.
      change (2 ^ 52)%Z with 4503599627370496%Z. field. }
    rewrite Hv, Hone in *.
    assert (Hn1 : 1 <= IZR n) by (apply IZR_le; lia).
    destruct (ltb (S754_finite false 4503599627370496 (-52)) (S754_finite false m e));
      [reflexivity|].
    destruct (ltb (S754_finite false m e) (S754_finite false 4503599627370496 (-52))).
    + specialize (H3 eq_refl). lra.
    + specialize (H2 eq_refl).
      assert (n = 1%Z) by (apply eq_IZR; lra). subst n.
      rewrite <- E. reflexivity.
Qed.

Close Scope R_scope.

Local Open Scope R_scope.

Lemma leb_one_of_Z (c : Z) :
  (1 <= c < 2 ^ 53)%Z ->
  JSMath.leb (JSNumber.of_Z c) (JSNumber.of_Z 1) = (c <=? 1)%Z.
Proof.
  intros Hc.
  destruct (of_Z_exact c Hc) as (m & e & E & Hd & He & Hv).
  rewrite E.
  change (JSNumber.of_Z 1) with (S754_finite false 4503599627370496 (-52)).
  pose proof (ltb_normal 4503599627370496 m (-52) e eq_refl Hd) as [H1 H2].
  cbn zeta in H1, H2.
  assert (Hone : IZR 4503599627370496 * pow2 (-52) = 1).
  { change (-52)%Z with (Z.opp 52). rewrite pow2_opp, pow2_IZR by lia.
    change (2 ^ 52)%Z with 4503599627370496%Z. field. }
  rewrite Hv, Hone in H1, H2.
  assert (Hneg : JSMath.leb (S754_finite false m e)
                   (S754_finite false 4503599627370496 (-52))
                 = negb (ltb (S754_finite false 4503599627370496 (-52))
                           (S754_finite false m e))).
  { unfold JSMath.leb, SFleb, ltb, SFltb, SFcompare.
    rewrite (Z.compare_antisym (-52) e).
    assert (Hc' : Pos.compare_cont Eq m 4503599627370496
                  = CompOpp (Pos.compare_cont Eq 4503599627370496 m))
      by (rewrite Pos.compare_cont_antisym; reflexivity).
    rewrite Hc'.
    destruct (-52 ?= e)%Z; cbn [CompOpp]; try reflexivity.
    destruct (Pos.compare_cont Eq 4503599627370496 m); reflexivity. }
  rewrite Hneg.
  destruct (ltb (S754_finite false 4503599627370496 (-52)) (S754_finite false m e)).
  - specialize (H1 eq_refl). apply lt_IZR in H1. cbn [negb].
    symmetry. apply Z.leb_gt. exact H1.
  - specialize (H2 eq_refl). apply le_IZR in H2. cbn [negb].
    symmetry. apply Z.leb_le. exact H2.
Qed.

Close Scope R_scope.

Lemma updateServings_whole (s : ResultState) (c d : Z) :
  currentServings s = JSNumber.of_Z c ->
  (Z.abs c < 2 ^ 53 - 1)%Z -> (d = 1 \/ d = -1)%Z ->
  updateServings (JSNumber.of_Z d) s
  = setCurrentServings (JSNumber.of_Z (Z.max 1 (c + d))) s.
Proof.
  intros Hc Hb Hd. unfold updateServings. rewrite Hc.
  rewrite add_of_Z by lia. rewrite max_one_of_Z by lia. reflexivity.
Qed.

Lemma press_whole (s : ResultState) (c : Z) (p : serving_press) :
  currentServings s = JSNumber.of_Z c -> (1 <= c < 2 ^ 53 - 1)%Z ->
  press s p = setCurrentServings (JSNumber.of_Z (press_count c p)) s.
Proof.
  intros Hc Hb. destruct p; cbn [press press_count].
  - rewrite (updateServings_whole s c 1 Hc) by lia.
    rewrite Z.max_r by lia. reflexivity.
  - unfold minus_disabled. rewrite Hc, leb_one_of_Z by lia.
    destruct (c <=? 1)%Z eqn:E.
    + apply Z.leb_le in E. assert (c = 1%Z) by lia. subst c.
      destruct s. cbn in *. subst. reflexivity.
    + rewrite (updateServings_whole s c (-1) Hc) by lia. reflexivity.
Qed.

Lemma serving_buttons_count_core (s : ResultState) (c : Z)
  (presses : list serving_press) :
  currentServings s = JSNumber.of_Z c -> (1 <= c)%Z ->
  (c + Z.of_nat (List.length presses) < 2 ^ 53 - 1)%Z ->
  currentServings (fold_left press presses s)
  = JSNumber.of_Z (fold_left press_count presses c)
  /\ (1 <= fold_left press_count presses c
      <= c + Z.of_nat (List.length presses))%Z.
Proof.
  revert s c. induction presses as [|p ps IH]; intros s0 c0 H0 H1 H2;
    cbn [fold_left].
  - split; [exact H0|]. cbn [List.length]. lia.
  - cbn [List.length] in H2.
    rewrite (press_whole s0 c0 p H0) by lia.
    assert (Hpc : (1 <= press_count c0 p <= c0 + 1)%Z)
      by (destruct p; cbn [press_count]; lia).
    destruct (IH (setCurrentServings (JSNumber.of_Z (press_count c0 p)) s0)
                (press_count c0 p) eq_refl ltac:(lia) ltac:(lia)) as [E Hr].
    split; [exact E|]. cbn [List.length]. lia.
Qed.

(** X20. On a whole serving count the two buttons count exactly. From a
    count [c] of at least 1, any presses lead to the count that adding 1
    for a plus and subtracting 1 for a minus, never going below 1, leads to
    (as long as the counts stay below 2^53 - 1). The minus button is
    disabled exactly at 1, where a press of it changes nothing. Plus
    followed by minus leads back to the same state, and so does minus
    followed by plus from a count of at least 2; the ingredient lines are
    then the same again. *)
Theorem serving_buttons_count (s : ResultState) (c : Z)
  (presses : list serving_press)
  (Hc : currentServings s = JSNumber.of_Z c)
  (Hlo : (1 <= c)%Z)
  (Hhi : (c + Z.of_nat (List.length presses) < 2 ^ 53 - 1)%Z) :
  currentServings (fold_left press presses s)
  = JSNumber.of_Z (fold_left press_count presses c)
  /\ (1 <= fold_left press_count presses c
      <= c + Z.of_nat (List.length presses))%Z
  /\ minus_disabled s = (c <=? 1)%Z
  /\ (c = 1%Z -> press s PressMinus = s)
  /\ ((c + 1 < 2 ^ 53 - 1)%Z -> press (press s PressPlus) PressMinus = s)
  /\ ((2 <= c)%Z -> press (press s PressMinus) PressPlus = s)
  /\ (forall recipe, (c + 1 < 2 ^ 53 - 1)%Z ->
      shown_ingredients recipe (press (press s PressPlus) PressMinus)
      = shown_ingredients recipe s).
Proof.
  assert (Hback : forall s0, currentServings s0 = JSNumber.of_Z c ->
             forall x, setCurrentServings (JSNumber.of_Z c)
                         (setCurrentServings x s0) = s0).
  { intros s0 H0 x. destruct s0. cbn in *. subst. reflexivity. }
  destruct (serving_buttons_count_core s c presses Hc Hlo Hhi) as [E Hr].
  split; [exact E|]. split; [exact Hr|].
  assert (Hplus : (c + 1 < 2 ^ 53 - 1)%Z ->
            press (press s PressPlus) PressMinus = s).
  { intros Hb. rewrite (press_whole s c PressPlus Hc) by lia.
    rewrite (press_whole
               (setCurrentServings (JSNumber.of_Z (press_count c PressPlus)) s)
               (press_count c PressPlus) PressMinus eq_refl)
      by (cbn [press_count]; lia).
    cbn [press_count]. replace (Z.max 1 (c + 1 - 1)) with c by lia.
    apply Hback. exact Hc. }
  split; [|split; [|split; [exact Hplus|split]]].
  - unfold minus_disabled. rewrite Hc. apply leb_one_of_Z. lia.
  - intros ->. rewrite (press_whole s 1 PressMinus Hc) by lia.
    cbn [press_count]. destruct s. cbn in *. subst. reflexivity.
  - intros H2. rewrite (press_whole s c PressMinus Hc) by lia.
    rewrite (press_whole
               (setCurrentServings (JSNumber.of_Z (press_count c PressMinus)) s)
               (press_count c PressMinus) PressPlus eq_refl)
      by (cbn [press_count]; lia).
    cbn [press_count]. replace (Z.max 1 (c - 1) + 1)%Z with c by lia.
    apply Hback. exact Hc.
  - intros recipe Hb. rewrite (Hplus Hb). reflexivity.
Qed.

(** An instance of X20: the sample recipe, plus, plus, minus. *)
Lemma serving_buttons_count_witness :
  currentServings
    (fold_left press [PressPlus; PressPlus; PressMinus]
       (initial_result_state sample_recipe))
  = JSNumber.of_Z 3.
Proof.
  exact (proj1 (serving_buttons_count (initial_result_state sample_recipe) 2
                  [PressPlus; PressPlus; PressMinus] eq_refl
                  ltac:(lia) ltac:(cbn; lia))).
Defined.

(* ================================================================== *)
(** ** The scaler on whole quantities, through the serving control *)
(* ================================================================== *)

Local Open Scope R_scope.

(** A whole quantity times the rounded ratio of two serving counts, when
    the exact product is a whole number up to 2^45, is formatted as that
    number. *)
Lemma formatNumber_scaled_whole (q s t : Z) :
  (1 <= q < 2 ^ 53)%Z -> (1 <= s < 2 ^ 53)%Z -> (1 <= t < 2 ^ 53)%Z ->
  (s | q * t)%Z -> (q * t / s <= 2 ^ 45)%Z ->
  formatNumber (mul (JSNumber.of_Z q) (div (JSNumber.of_Z t) (JSNumber.of_Z s)))
  = Normal (JSString.of_Z (q * t / s)).
Proof.
  intros Hq Hs Ht Hdiv Hn.
  set (n := (q * t / s)%Z) in *.
  assert (Hns : (q * t = n * s)%Z).
  { destruct Hdiv as [c Hc]. subst n. rewrite Hc, Z.div_mul by lia. reflexivity. }
  destruct (of_Z_exact s Hs) as (ms & es & Es & Hds & Hes & Hvs).
  destruct (of_Z_exact t Ht) as (mt & et & Et & Hdt & Het & Hvt).
  destruct (of_Z_exact q Hq) as (mq & eq & Eq & Hdq & Heq & Hvq).
  rewrite Es, Et, Eq.
  destruct (div_normal mt ms et es Hdt Hds ltac:(lia))
    as (mr & er & Er & Hdr & Her & Herr_r).
  rewrite Hvs, Hvt in Herr_r. rewrite Er.
  assert (HsR : 0 < IZR s) by (apply IZR_lt; lia).
  assert (HtR : 0 < IZR t) by (apply IZR_lt; lia).
  assert (Hn1 : (1 <= n)%Z) by nia.
  destruct (mul_normal mq mr eq er Hdq Hdr ltac:(lia))
    as (mp & ep & Ep & Hdp & Hep & Herr_p).
  rewrite Hvq in Herr_p. rewrite Ep.
  apply (formatNumber_near_integer mp ep n Hdp ltac:(lia) ltac:(lia)).
  assert (HqR : 1 <= IZR q) by (apply IZR_le; lia).
  assert (HnR : IZR n = IZR q * (IZR t / IZR s)).
  { apply (f_equal IZR) in Hns. rewrite !mult_IZR in Hns. field_simplify_eq; lra. }
  assert (HnB : IZR n <= 35184372088832).
  { apply IZR_le. change (2 ^ 45)%Z with 35184372088832%Z in Hn. lia. }
  assert (HnP : 1 <= IZR n) by (apply IZR_le; lia).
  remember (IZR (Zpos mr) * pow2 er) as R0.
  remember (IZR (Zpos mp) * pow2 ep) as P.
  remember (IZR t / IZR s) as T.
  remember (IZR q) as Q.
  apply Rabs_le_between in Herr_r, Herr_p.
  unfold unit_roundoff in Herr_r, Herr_p.
  assert (HT : 0 < T) by (subst T; apply Rdiv_lt_0_compat; lra).
  apply Rabs_le. split.
  - assert (P - IZR n >= - (IZR n * (2 / 9007199254740992
                                     + / 9007199254740992 * / 9007199254740992)));
      [|nra].
    rewrite HnR. nra.
  - assert (P - IZR n <= IZR n * (2 / 9007199254740992
                                  + / 9007199254740992 * / 9007199254740992));
      [|nra].
    rewrite HnR. nra.
Qed.

Close Scope R_scope.

Lemma formatNumber_scaled_zero (ratio : number) :
  (exists m e, ratio = S754_finite false m e) ->
  formatNumber (mul (JSNumber.of_Z 0) ratio) = Normal "0".
Proof. intros (m & e & ->). vm_compute. reflexivity. Qed.

Lemma ratio_finite (s t : Z) :
  (1 <= s < 2 ^ 53)%Z -> (1 <= t < 2 ^ 53)%Z ->
  exists m e, div (JSNumber.of_Z t) (JSNumber.of_Z s) = S754_finite false m e.
Proof.
  intros Hs Ht.
  destruct (of_Z_exact s Hs) as (ms & es & Es & Hds & Hes & _).
  destruct (of_Z_exact t Ht) as (mt & et & Et & Hdt & Het & _).
  rewrite Es, Et.
  destruct (div_normal mt ms et es Hdt Hds ltac:(lia)) as (mr & er & Er & _).
  eauto.
Qed.

(** The formatted product for a whole quantity from 0 on. *)
Lemma formatNumber_scaled (q s t : Z) :
  (0 <= q < 2 ^ 53)%Z -> (1 <= s < 2 ^ 53)%Z -> (1 <= t < 2 ^ 53)%Z ->
  (s | q * t)%Z -> (q * t / s <= 2 ^ 45)%Z ->
  formatNumber (mul (JSNumber.of_Z q) (div (JSNumber.of_Z t) (JSNumber.of_Z s)))
  = Normal (JSString.of_Z (q * t / s)).
Proof.
  intros Hq Hs Ht Hdiv Hn.
  destruct (Z.eq_dec q 0) as [->|Hq0].
  - rewrite (formatNumber_scaled_zero _ (ratio_finite s t Hs Ht)).
    change (0 * t / s)%Z with 0%Z. reflexivity.
  - apply formatNumber_scaled_whole; auto; lia.
Qed.

Lemma parseFloat_of_Z (q : Z) :
  (0 <= q)%Z -> parseFloat (JSString.of_Z q) = JSNumber.of_Z q.
Proof.
  intros Hq. destruct q as [|p|p]; try lia; [vm_compute; reflexivity|].
  change (JSString.of_Z (Zpos p)) with (JSString.of_N (Npos p)).
  apply parseFloat_of_N.
Qed.

Lemma of_Z_digits (q : Z) :
  (0 <= q)%Z ->
  all_digits (JSString.of_Z q) = true /\ truthy (JSString.of_Z q) = true.
Proof.
  intros Hq. destruct q as [|p|p]; try lia; [split; reflexivity|].
  split; [apply of_N_all_digits|apply of_N_nonempty].
Qed.

Lemma of_Z_not_nan (q : Z) : isNaN (JSNumber.of_Z q) = false.
Proof.
  destruct q; [reflexivity| |]; apply binary_round_not_nan.
Qed.

(** The scaler on the decimal string of a whole quantity. *)
Lemma getScaledQuantity_whole (q s t : Z) :
  (0 <= q < 2 ^ 53)%Z -> (1 <= s < 2 ^ 53)%Z -> (1 <= t < 2 ^ 53)%Z ->
  (s | q * t)%Z -> (q * t / s <= 2 ^ 45)%Z ->
  getScaledQuantity (JSString.of_Z q) (JSNumber.of_Z s) (JSNumber.of_Z t)
  = JSString.of_Z (q * t / s).
Proof.
  intros Hq Hs Ht Hdiv Hn.
  destruct (of_Z_digits q ltac:(lia)) as [Hall Htr].
  unfold getScaledQuantity. rewrite Htr. cbn [negb].
  destruct (strict_eq (JSNumber.of_Z s) (JSNumber.of_Z t)) eqn:Eeq.
  - destruct (of_Z_exact s Hs) as (ms & es & Es & Hds & Hes & Hvs).
    destruct (of_Z_exact t Ht) as (mt & et & Et & Hdt & Het & Hvt).
    rewrite Es, Et in Eeq. apply strict_eq_finite in Eeq.
    destruct Eeq as [-> ->].
    assert (s = t) by (apply eq_IZR; rewrite <- Hvs, <- Hvt; reflexivity).
    subst t. rewrite Z.div_mul by lia. reflexivity.
  - unfold scale_try.
    rewrite (all_digits_includes _ "-"%char Hall eq_refl).
    rewrite (all_digits_includes _ "/"%char Hall eq_refl).
    rewrite parseFloat_of_Z by lia. rewrite of_Z_not_nan. cbn [negb].
    rewrite formatNumber_scaled by assumption. reflexivity.
Qed.

Lemma fold_press_count_plus (k : nat) (c : Z) :
  fold_left press_count (repeat PressPlus k) c = (c + Z.of_nat k)%Z.
Proof.
  revert c. induction k as [|k IH]; intros c; cbn [repeat fold_left press_count].
  - lia.
  - rewrite IH. lia.
Qed.

(** X21. The plus button and the scaler together, on whole numbers. The
    recipe serves [n]; an ingredient has the whole quantity [q]; plus is
    pressed [k] times. When [q * (n + k) / n] is a whole number (up to
    2^45), the ingredient line shows exactly that number, followed by the
    unit and the item. Pressing plus [n] times doubles every whole
    quantity. *)
Theorem plus_presses_scale_whole_quantities (recipe : Recipe) (ing : Ingredient)
  (n k q : Z)
  (Hserv : servings recipe = JSNumber.of_Z n)
  (Hn : (1 <= n)%Z) (Hk : (0 <= k)%Z) (Hnk : (n + k < 2 ^ 53 - 1)%Z)
  (Hqty : quantity ing = JSString.of_Z q)
  (Hq : (0 <= q < 2 ^ 53)%Z)
  (Hdiv : (n | q * (n + k))%Z)
  (Hbound : (q * (n + k) / n <= 2 ^ 45)%Z)
  (Hin : In (Structured ing) (ingredients recipe)) :
  let s := fold_left press (repeat PressPlus (Z.to_nat k))
             (initial_result_state recipe) in
  let line :=
    join " " (filter truthy [JSString.of_Z (q * (n + k) / n); unit_ ing; item ing]) in
  currentServings s = JSNumber.of_Z (n + k)
  /\ formatIngredientText (Structured ing) (servings_or_4 recipe) (currentServings s)
     = line
  /\ In line (shown_ingredients recipe s)
  /\ (k = n -> (q * (n + k) / n = 2 * q)%Z).
Proof.
  cbn zeta.
  assert (Hbase : servings_or_4 recipe = JSNumber.of_Z n).
  { unfold servings_or_4. rewrite Hserv.
    destruct (of_Z_exact n ltac:(lia)) as (m & e & E & _). rewrite E. reflexivity. }
  assert (Hcur : currentServings
                   (fold_left press (repeat PressPlus (Z.to_nat k))
                      (initial_result_state recipe))
                 = JSNumber.of_Z (n + k)).
  { destruct (serving_buttons_count_core (initial_result_state recipe) n
                (repeat PressPlus (Z.to_nat k))) as [E _].
    - exact Hbase.
    - exact Hn.
    - rewrite repeat_length. lia.
    - rewrite E, fold_press_count_plus. f_equal. lia. }
  assert (Hline : formatIngredientText (Structured ing) (JSNumber.of_Z n)
                    (JSNumber.of_Z (n + k))
                  = join " " (filter truthy [JSString.of_Z (q * (n + k) / n);
                                            unit_ ing; item ing])).
  { cbn [formatIngredientText]. rewrite Hqty.
    rewrite getScaledQuantity_whole by (try assumption; lia). reflexivity. }
  split; [exact Hcur|]. rewrite Hcur, Hbase.
  split; [exact Hline|]. split.
  - unfold shown_ingredients, ingredient_texts. rewrite Hcur, Hbase.
    apply in_map_iff. exists (Structured ing). split; [exact Hline|exact Hin].
  - intros ->. replace (q * (n + n))%Z with (2 * q * n)%Z by ring.
    apply Z.div_mul. lia.
Qed.

(** An instance of X21: rice for 2, with 3 cups; plus pressed twice. *)
Lemma plus_presses_scale_whole_quantities_witness :
  let recipe := recipe_for 2 (mkIngredient "rice" "3" "cups") in
  shown_ingredients recipe
    (fold_left press [PressPlus; PressPlus] (initial_result_state recipe))
  = ["6 cups rice"].
Proof.
  cbn zeta.
  pose proof (plus_presses_scale_whole_quantities
                (recipe_for 2 (mkIngredient "rice" "3" "cups"))
                (mkIngredient "rice" "3" "cups") 2 2 3
                eq_refl ltac:(lia) ltac:(lia) ltac:(lia) eq_refl ltac:(lia)
                (ex_intro _ 6%Z eq_refl) ltac:(cbn; lia)
                (or_introl eq_refl)) as H.
  cbn zeta in H. destruct H as (Hc & Hl & _).
  unfold shown_ingredients, ingredient_texts.
  cbn [ingredients recipe_for map].
  change (fold_left press (repeat PressPlus (Z.to_nat 2))
            (initial_result_state (recipe_for 2 (mkIngredient "rice" "3" "cups"))))
    with (fold_left press [PressPlus; PressPlus]
            (initial_result_state (recipe_for 2 (mkIngredient "rice" "3" "cups"))))
    in Hl.
  rewrite Hl. reflexivity.
Defined.

(* ================================================================== *)
(** ** The scaler on ranges and fractions of whole numbers *)
(* ================================================================== *)

(** A digit is no white space, read from the end either. *)
Lemma strip_back_digit_first (c : ascii) (r : string) :
  is_digit c = true -> strip false (String c r) = String c r.
Proof.
  unfold is_digit. intros H. apply andb_true_iff in H.
  destruct H as [H1 H2]. apply N.leb_le in H1, H2.
  cbn [strip].
  assert (E1 : ws1 c = false).
  { unfold ws1. apply orb_false_iff. split.
    - apply andb_false_iff. right. apply N.leb_gt. lia.
    - apply N.eqb_neq. lia. }
  rewrite E1. destruct r as [|c2 r2]; [reflexivity|].
  assert (E2 : ws2 c2 c = false).
  { unfold ws2. replace (code c =? 160)%N with false;
      [apply andb_false_r|]. symmetry. apply N.eqb_neq. lia. }
  rewrite E2. destruct r2 as [|c3 r3]; [reflexivity|].
  assert (E3 : ws3 c3 c2 c = false).
  { unfold ws3.
    replace (code c =? 128)%N with false by (symmetry; apply N.eqb_neq; lia).
    replace (128 <=? code c)%N with false by (symmetry; apply N.leb_gt; lia).
    replace (code c =? 168)%N with false by (symmetry; apply N.eqb_neq; lia).
    replace (code c =? 169)%N with false by (symmetry; apply N.eqb_neq; lia).
    replace (code c =? 175)%N with false by (symmetry; apply N.eqb_neq; lia).
    replace (code c =? 159)%N with false by (symmetry; apply N.eqb_neq; lia).
    replace (code c =? 191)%N with false by (symmetry; apply N.eqb_neq; lia).
    cbn [andb orb]. rewrite !andb_false_r. reflexivity. }
  rewrite E3. reflexivity.
Qed.

Lemma all_digits_forall (s : string) :
  all_digits s = true <->
  Forall (fun c => is_digit c = true) (list_ascii_of_string s).
Proof.
  induction s as [|c s IH]; cbn.
  - split; [constructor|reflexivity].
  - rewrite andb_true_iff, IH. split.
    + intros [H1 H2]. constructor; assumption.
    + intros H. inversion H; subst. auto.
Qed.

(** Trimming leaves a string of digits as it is. *)
Lemma trim_digits (s : string) : all_digits s = true -> trim s = s.
Proof.
  intros Hall. destruct s as [|c r]; [reflexivity|].
  assert (Hc : is_digit c = true).
  { cbn in Hall. apply andb_true_iff in Hall. tauto. }
  unfold trim, trimStart, trimEnd. rewrite (strip_digit_first c r Hc).
  unfold JSString.rev.
  apply all_digits_forall in Hall.
  set (l := list_ascii_of_string (String c r)) in *.
  assert (Hrev : Forall (fun x => is_digit x = true) (List.rev l)).
  { apply Forall_forall. intros x Hx. apply in_rev in Hx.
    rewrite Forall_forall in Hall. apply Hall. exact Hx. }
  destruct (List.rev l) as [|x l'] eqn:El.
  - assert (l = []) by (rewrite <- (rev_involutive l), El; reflexivity).
    subst l. discriminate.
  - inversion Hrev as [|? ? Hx _]; subst.
    cbn [string_of_list_ascii]. rewrite (strip_back_digit_first x _ Hx).
    change (String x (string_of_list_ascii l'))
      with (string_of_list_ascii (x :: l')).
    rewrite list_ascii_of_string_of_list_ascii, <- El, rev_involutive.
    subst l. apply string_of_list_ascii_of_string.
Qed.

Lemma parse_part_of_Z (q : Z) :
  (0 <= q)%Z -> parseFloat (trim (JSString.of_Z q)) = JSNumber.of_Z q.
Proof.
  intros Hq. rewrite trim_digits by (apply of_Z_digits; exact Hq).
  apply parseFloat_of_Z. exact Hq.
Qed.

Lemma split_two_whole (sep : ascii) (a b : Z) :
  is_digit sep = false -> (0 <= a)%Z -> (0 <= b)%Z ->
  split sep (JSString.of_Z a ++ String sep (JSString.of_Z b))
  = [JSString.of_Z a; JSString.of_Z b].
Proof.
  intros Hsep Ha Hb.
  rewrite split_at_first_separator
    by (apply all_digits_includes; [apply of_Z_digits; exact Ha|exact Hsep]).
  rewrite split_without_separator
    by (apply all_digits_includes; [apply of_Z_digits; exact Hb|exact Hsep]).
  reflexivity.
Qed.

(** X22. A range of two whole numbers, ["a-b"], is scaled end by end:
    when [a * t / s] and [b * t / s] are whole numbers (up to 2^45), the
    scaler returns them, joined again with a dash. *)
Theorem range_scaling (a b s t : Z)
  (Ha : (0 <= a < 2 ^ 53)%Z) (Hb : (0 <= b < 2 ^ 53)%Z)
  (Hs : (1 <= s < 2 ^ 53)%Z) (Ht : (1 <= t < 2 ^ 53)%Z)
  (Hdiva : (s | a * t)%Z) (Hdivb : (s | b * t)%Z)
  (Hna : (a * t / s <= 2 ^ 45)%Z) (Hnb : (b * t / s <= 2 ^ 45)%Z) :
  scale (JSString.of_Z a ++ "-" ++ JSString.of_Z b) s t
  = JSString.of_Z (a * t / s) ++ "-" ++ JSString.of_Z (b * t / s).
Proof.
  unfold scale, getScaledQuantity.
  assert (Htr : truthy (JSString.of_Z a ++ "-" ++ JSString.of_Z b) = true).
  { rewrite !append_empty_iff. cbn. apply orb_true_r. }
  rewrite Htr. cbn [negb].
  destruct (strict_eq (JSNumber.of_Z s) (JSNumber.of_Z t)) eqn:Eeq.
  - destruct (of_Z_exact s Hs) as (ms & es & Es & Hds & Hes & Hvs).
    destruct (of_Z_exact t Ht) as (mt & et & Et & Hdt & Het & Hvt).
    rewrite Es, Et in Eeq. apply strict_eq_finite in Eeq.
    destruct Eeq as [-> ->].
    assert (s = t) by (apply eq_IZR; rewrite <- Hvs, <- Hvt; reflexivity).
    subst t. rewrite !Z.div_mul by lia. reflexivity.
  - unfold scale_try.
    rewrite (includes_middle (JSString.of_Z a) "-" (JSString.of_Z b)).
    unfold parse_parts.
    change (JSString.of_Z a ++ "-" ++ JSString.of_Z b)
      with (JSString.of_Z a ++ String "-" (JSString.of_Z b)).
    rewrite (split_two_whole "-" a b eq_refl) by lia.
    cbn [map]. rewrite !parse_part_of_Z by lia.
    cbn [forallb]. rewrite !of_Z_not_nan. cbn [negb andb at_index nth].
    rewrite !formatNumber_scaled by assumption. reflexivity.
Qed.

(** An instance of X22: one to two cups for 2, scaled to 6. *)
Lemma range_scaling_witness : scale "1-2" 2 6 = "3-6".
Proof.
  exact (range_scaling 1 2 2 6 ltac:(lia) ltac:(lia) ltac:(lia) ltac:(lia)
           (ex_intro _ 3%Z eq_refl) (ex_intro _ 6%Z eq_refl)
           ltac:(cbn; lia) ltac:(cbn; lia)).
Defined.

Local Open Scope R_scope.

(** Three roundings, each within one unit roundoff, stay within four. *)
Lemma three_roundings (A T Q R0 P u : R) :
  0 < A -> 0 < T -> 0 < u <= / 1000 ->
  - (u * A) <= Q - A <= u * A ->
  - (u * T) <= R0 - T <= u * T ->
  - (u * (Q * R0)) <= P - Q * R0 <= u * (Q * R0) ->
  - (4 * u * (A * T)) <= P - A * T <= 4 * u * (A * T).
Proof.
  intros HA HT Hu HQ HR HP.
  assert (HQ1 : A * (1 - u) <= Q <= A * (1 + u)) by lra.
  assert (HR1 : T * (1 - u) <= R0 <= T * (1 + u)) by lra.
  assert (HQpos : 0 < Q) by nra.
  assert (HRpos : 0 < R0) by nra.
  assert (Hup : Q * R0 <= (A * T) * ((1 + u) * (1 + u))).
  { replace ((A * T) * ((1 + u) * (1 + u)))
      with ((A * (1 + u)) * (T * (1 + u))) by ring.
    apply Rmult_le_compat; lra. }
  assert (Hlo : (A * T) * ((1 - u) * (1 - u)) <= Q * R0).
  { replace ((A * T) * ((1 - u) * (1 - u)))
      with ((A * (1 - u)) * (T * (1 - u))) by ring.
    apply Rmult_le_compat; nra. }
  assert (HAT : 0 < A * T) by nra.
  assert (Hqr : 0 < Q * R0) by nra.
  assert (Hu2 : (1 + u) * (1 + u) * (1 + u) <= 1 + 4 * u) by nra.
  assert (Hu3 : 1 - 4 * u <= (1 - u) * (1 - u) * (1 - u)) by nra.
  split.
  - assert (H1 : Q * R0 * (1 - u) <= P) by lra.
    assert (H2 : (A * T) * ((1 - u) * (1 - u)) * (1 - u) <= Q * R0 * (1 - u)).
    { apply Rmult_le_compat_r; lra. }
    assert (H3 : (A * T) * (1 - 4 * u) <= (A * T) * ((1 - u) * (1 - u) * (1 - u))).
    { apply Rmult_le_compat_l; lra. }
    lra.
  - assert (H1 : P <= Q * R0 * (1 + u)) by lra.
    assert (H2 : Q * R0 * (1 + u) <= (A * T) * ((1 + u) * (1 + u)) * (1 + u)).
    { apply Rmult_le_compat_r; lra. }
    assert (H3 : (A * T) * ((1 + u) * (1 + u) * (1 + u)) <= (A * T) * (1 + 4 * u)).
    { apply Rmult_le_compat_l; lra. }
    lra.
Qed.

(** The quotient of two whole numbers times the rounded ratio of two
    serving counts, when the exact result is a whole number up to 2^44, is
    formatted as that number. *)
Lemma formatNumber_scaled_fraction (a b s t : Z) :
  (1 <= a < 2 ^ 53)%Z -> (1 <= b < 2 ^ 53)%Z ->
  (1 <= s < 2 ^ 53)%Z -> (1 <= t < 2 ^ 53)%Z ->
  (b * s | a * t)%Z -> (a * t / (b * s) <= 2 ^ 44)%Z ->
  formatNumber (mul (div (JSNumber.of_Z a) (JSNumber.of_Z b))
                  (div (JSNumber.of_Z t) (JSNumber.of_Z s)))
  = Normal (JSString.of_Z (a * t / (b * s))).
Proof.
  intros Ha Hb Hs Ht Hdiv Hn.
  set (n := (a * t / (b * s))%Z) in *.
  assert (Hns : (a * t = n * (b * s))%Z).
  { destruct Hdiv as [c Hc]. subst n. rewrite Hc, Z.div_mul by nia. reflexivity. }
  destruct (of_Z_exact a Ha) as (ma & ea & Ea & Hda & Hea & Hva).
  destruct (of_Z_exact b Hb) as (mb & eb & Eb & Hdb & Heb & Hvb).
  destruct (of_Z_exact s Hs) as (ms & es & Es & Hds & Hes & Hvs).
  destruct (of_Z_exact t Ht) as (mt & et & Et & Hdt & Het & Hvt).
  rewrite Ea, Eb, Es, Et.
  destruct (div_normal ma mb ea eb Hda Hdb ltac:(lia))
    as (mq & eq & Eq & Hdq & Heq & Herr_q).
  destruct (div_normal mt ms et es Hdt Hds ltac:(lia))
    as (mr & er & Er & Hdr & Her & Herr_r).
  rewrite Hva, Hvb in Herr_q. rewrite Hvs, Hvt in Herr_r. rewrite Eq, Er.
  destruct (mul_normal mq mr eq er Hdq Hdr ltac:(lia))
    as (mp & ep & Ep & Hdp & Hep & Herr_p).
  rewrite Ep.
  assert (HaR : 0 < IZR a) by (apply IZR_lt; lia).
  assert (HbR : 0 < IZR b) by (apply IZR_lt; lia).
  assert (HsR : 0 < IZR s) by (apply IZR_lt; lia).
  assert (HtR : 0 < IZR t) by (apply IZR_lt; lia).
  assert (Hn1 : (1 <= n)%Z).
  { assert (0 < b * s)%Z by nia. assert (0 < a * t)%Z by nia. nia. }
  apply (formatNumber_near_integer mp ep n Hdp ltac:(lia));
    [change (2 ^ 44)%Z with 17592186044416%Z in Hn;
     change (2 ^ 45)%Z with 35184372088832%Z; lia|].
  assert (HnR : IZR n = (IZR a / IZR b) * (IZR t / IZR s)).
  { apply (f_equal IZR) in Hns. rewrite !mult_IZR in Hns.
    field_simplify_eq; lra. }
  assert (HnB : IZR n <= 17592186044416).
  { apply IZR_le. change (2 ^ 44)%Z with 17592186044416%Z in Hn. lia. }
  assert (HnP : 1 <= IZR n) by (apply IZR_le; lia).
  apply Rabs_le_between in Herr_q, Herr_r, Herr_p.
  assert (HA : 0 < IZR a / IZR b) by (apply Rdiv_lt_0_compat; lra).
  assert (HT : 0 < IZR t / IZR s) by (apply Rdiv_lt_0_compat; lra).
  pose proof (three_roundings (IZR a / IZR b) (IZR t / IZR s)
                (IZR (Zpos mq) * pow2 eq) (IZR (Zpos mr) * pow2 er)
                (IZR (Zpos mp) * pow2 ep) unit_roundoff HA HT
                ltac:(unfold unit_roundoff; lra) Herr_q Herr_r Herr_p) as H3.
  rewrite <- HnR in H3. unfold unit_roundoff in H3.
  apply Rabs_le. lra.
Qed.

Close Scope R_scope.

(** X23. A fraction of two whole numbers, ["a/b"], is scaled as a
    quotient: when [a * t / (b * s)] is a whole number (up to 2^44), the
    scaler returns it. Half a cup for 2, scaled to 4, is ["1"]. *)
Theorem fraction_scaling (a b s t : Z)
  (Ha : (1 <= a < 2 ^ 53)%Z) (Hb : (1 <= b < 2 ^ 53)%Z)
  (Hs : (1 <= s < 2 ^ 53)%Z) (Ht : (1 <= t < 2 ^ 53)%Z)
  (Hst : s <> t)
  (Hdiv : (b * s | a * t)%Z) (Hn : (a * t / (b * s) <= 2 ^ 44)%Z) :
  scale (JSString.of_Z a ++ "/" ++ JSString.of_Z b) s t
  = JSString.of_Z (a * t / (b * s)).
Proof.
  unfold scale, getScaledQuantity.
  assert (Htr : truthy (JSString.of_Z a ++ "/" ++ JSString.of_Z b) = true).
  { rewrite !append_empty_iff. cbn. apply orb_true_r. }
  rewrite Htr. cbn [negb].
  destruct (strict_eq (JSNumber.of_Z s) (JSNumber.of_Z t)) eqn:Eeq.
  - exfalso. apply Hst.
    destruct (of_Z_exact s Hs) as (ms & es & Es & Hds & Hes & Hvs).
    destruct (of_Z_exact t Ht) as (mt & et & Et & Hdt & Het & Hvt).
    rewrite Es, Et in Eeq. apply strict_eq_finite in Eeq.
    destruct Eeq as [-> ->].
    apply eq_IZR. rewrite <- Hvs, <- Hvt. reflexivity.
  - unfold scale_try.
    assert (Hdash : includes (JSString.of_Z a ++ "/" ++ JSString.of_Z b) "-" = false).
    { rewrite !includes_char_app.
      rewrite (all_digits_includes (JSString.of_Z a) "-"%char)
        by (try apply of_Z_digits; try lia; reflexivity).
      rewrite (all_digits_includes (JSString.of_Z b) "-"%char)
        by (try apply of_Z_digits; try lia; reflexivity).
      reflexivity. }
    rewrite Hdash.
    rewrite (includes_middle (JSString.of_Z a) "/" (JSString.of_Z b)).
    unfold parse_parts.
    change (JSString.of_Z a ++ "/" ++ JSString.of_Z b)
      with (JSString.of_Z a ++ String "/" (JSString.of_Z b)).
    rewrite (split_two_whole "/" a b eq_refl) by lia.
    cbn [map at_index nth]. rewrite !parse_part_of_Z by lia.
    rewrite !of_Z_not_nan. cbn [negb andb].
    assert (Hden : strict_eq (JSNumber.of_Z b) zero = false).
    { destruct (of_Z_exact b Hb) as (mb & eb & Eb & _). rewrite Eb. reflexivity. }
    rewrite Hden. cbn [negb].
    rewrite formatNumber_scaled_fraction by assumption. reflexivity.
Qed.

(** An instance of X23: half a cup for 2, scaled to 4. *)
Lemma fraction_scaling_witness : scale "1/2" 2 4 = "1".
Proof.
  exact (fraction_scaling 1 2 2 4 ltac:(lia) ltac:(lia) ltac:(lia) ltac:(lia)
           ltac:(lia) (ex_intro _ 1%Z eq_refl) ltac:(cbn; lia)).
Defined.

(* ================================================================== *)
(** ** The scaler on quantities that come out as a fraction *)
(* ================================================================== *)

Local Open Scope R_scope.

Lemma Rabs_far (x a : R) : a <= x \/ x <= - a -> a <= Rabs x.
Proof.
  intros [H|H].
  - apply Rle_trans with x; [exact H|apply Rle_abs].
  - rewrite <- Rabs_Ropp. apply Rle_trans with (- x); [lra|apply Rle_abs].
Qed.

(** [Math.abs(frac - c) < 0.05], decided from the values: true within
    0.049, false from 0.051 on. *)
Lemma near_decided (md mc : positive) (ed ec : Z) :
  digits2_pos md = 53%positive -> digits2_pos mc = 53%positive ->
  (-1022 <= ed <= 970)%Z -> (-1022 <= ec <= 970)%Z ->
  let D := IZR (Zpos md) * pow2 ed in
  let C := IZR (Zpos mc) * pow2 ec in
  (Rabs (D - C) <= 49 / 1000 ->
   near (S754_finite false md ed) (S754_finite false mc ec) = true)
  /\ (51 / 1000 <= Rabs (D - C) ->
      near (S754_finite false md ed) (S754_finite false mc ec) = false).
Proof.
  intros Hd Hc Hed Hec D C.
  pose proof (sub_normal md mc ed ec Hd Hc Hed Hec) as Hsub. cbn zeta in Hsub.
  fold D in Hsub. fold C in Hsub. clearbody D C.
  unfold near. destruct lit_values as (_ & E5 & _). rewrite E5.
  destruct Hsub as [[E Ez]|(s & m & e & E & Hm & He & Hs & Herr)].
  - rewrite Ez. split; [reflexivity|].
    intros H. rewrite E, Rminus_diag, Rabs_R0 in H. lra.
  - rewrite E.
    change (abs (S754_finite s m e)) with (S754_finite false m e).
    destruct (ltb_normal m 7205759403792794 e (-57) Hm eq_refl) as [Hlt Hge].
    rewrite pow2_m57 in Hlt, Hge.
    apply Rabs_le_between in Herr. unfold unit_roundoff in Herr.
    pose proof (Rabs_pos (D - C)) as Hpos.
    split; intros H;
      destruct (ltb (S754_finite false m e)
                  (S754_finite false 7205759403792794 (-57)));
      try reflexivity; exfalso.
    + specialize (Hge eq_refl). lra.
    + specialize (Hlt eq_refl). lra.
Qed.

(** The rounded product of a whole quantity and the rounded ratio of two
    serving counts: a positive normal number close to the exact product. *)
Lemma scaled_product_close (q s t : Z) :
  (1 <= q < 2 ^ 53)%Z -> (1 <= s < 2 ^ 53)%Z -> (1 <= t < 2 ^ 53)%Z ->
  exists mp ep,
    mul (JSNumber.of_Z q) (div (JSNumber.of_Z t) (JSNumber.of_Z s))
    = S754_finite false mp ep
    /\ digits2_pos mp = 53%positive /\ (-1074 <= ep)%Z
    /\ Rabs (IZR (Zpos mp) * pow2 ep - IZR q * IZR t / IZR s)
       <= (IZR q * IZR t / IZR s)
          * (2 / 9007199254740992 + / 9007199254740992 * / 9007199254740992).
Proof.
  intros Hq Hs Ht.
  destruct (of_Z_exact s Hs) as (ms & es & Es & Hds & Hes & Hvs).
  destruct (of_Z_exact t Ht) as (mt & et & Et & Hdt & Het & Hvt).
  destruct (of_Z_exact q Hq) as (mq & eq & Eq & Hdq & Heq & Hvq).
  rewrite Es, Et, Eq.
  destruct (div_normal mt ms et es Hdt Hds ltac:(lia))
    as (mr & er & Er & Hdr & Her & Herr_r).
  rewrite Hvs, Hvt in Herr_r. rewrite Er.
  destruct (mul_normal mq mr eq er Hdq Hdr ltac:(lia))
    as (mp & ep & Ep & Hdp & Hep & Herr_p).
  rewrite Hvq in Herr_p.
  exists mp, ep. split; [exact Ep|]. split; [exact Hdp|]. split; [lia|].
  assert (HsR : 0 < IZR s) by (apply IZR_lt; lia).
  assert (HtR : 0 < IZR t) by (apply IZR_lt; lia).
  assert (HqR : 1 <= IZR q) by (apply IZR_le; lia).
  replace (IZR q * IZR t / IZR s) with (IZR q * (IZR t / IZR s))
    by (field; lra).
  remember (IZR (Zpos mr) * pow2 er) as R0.
  remember (IZR (Zpos mp) * pow2 ep) as P.
  remember (IZR t / IZR s) as T.
  remember (IZR q) as Q.
  apply Rabs_le_between in Herr_r, Herr_p.
  unfold unit_roundoff in Herr_r, Herr_p.
  assert (HT : 0 < T) by (subst T; apply Rdiv_lt_0_compat; lra).
  apply Rabs_le. split; nra.
Qed.

(** [formatNumber] on a positive normal number within 0.008 of a whole
    number [k] plus a quarter, a third, a half, two thirds or three
    quarters: the whole number, when it is not 0, and the glyph. *)
Lemma formatNumber_near_fraction (m : positive) (e : Z) (k num den : Z)
  (g : string) :
  digits2_pos m = 53%positive -> (-1074 <= e)%Z ->
  (0 <= k < 2 ^ 45)%Z ->
  In (num, den, g) fraction_glyphs ->
  Rabs (IZR (Zpos m) * pow2 e - (IZR k + IZR num / IZR den)) <= 8 / 1000 ->
  formatNumber (S754_finite false m e) = Normal (whole_text k ++ g).
Proof.
  intros Hd He Hk Hin HX.
  apply Rabs_le_between in HX.
  pose proof (normal_value_bounds m e Hd) as [Hv1 Hv2].
  pose proof (floor_normal m e Hd) as Hfl. cbn zeta in Hfl.
  pose proof (fun mc ec => sub_normal m mc e ec Hd) as Hsub. cbn zeta in Hsub.
  remember (IZR (Zpos m) * pow2 e) as X eqn:EX.
  assert (Hk0 : 0 <= IZR k) by (apply IZR_le; lia).
  assert (Hk2 : IZR k <= 35184372088831).
  { apply IZR_le. change (2 ^ 45)%Z with 35184372088832%Z in Hk. lia. }
  set (F := IZR num / IZR den) in *.
  assert (HF : 1 / 4 <= F <= 3 / 4).
  { subst F. cbn [In fraction_glyphs] in Hin.
    repeat (destruct Hin as [Hin|Hin];
            [injection Hin as <- <- _; lra|]). destruct Hin. }
  assert (Hexp : (-56 < e < -6)%Z).
  { split.
    - assert (pow2 (-3) < pow2 (e + 53)).
      { change (-3)%Z with (Z.opp 3). rewrite pow2_opp, pow2_IZR by lia.
        change (IZR (2 ^ 3)) with 8. lra. }
      apply pow2_lt_inv in H. lia.
    - assert (pow2 (e + 52) < pow2 46).
      { rewrite (pow2_IZR 46) by lia. change (2 ^ 46)%Z with 70368744177664%Z. lra. }
      apply pow2_lt_inv in H. lia. }
  destruct (Hfl ltac:(lia)) as (Hkk & [Hk1' Hk2'] & Hcases). clear Hfl.
  set (kk := (Zpos m / 2 ^ (- e))%Z) in *.
  assert (Ekk : kk = k).
  { assert (kk < k + 1)%Z by (apply lt_IZR; rewrite plus_IZR; lra).
    assert (k - 1 < kk)%Z by (apply lt_IZR; rewrite minus_IZR; lra).
    lia. }
  rewrite Ekk in *. clear Ekk kk.
  destruct Hcases as [(HXk & _)|(HXk & Efl)]; [lra|].
  (* the fraction part *)
  assert (Hdec : exists md ed,
             sub (S754_finite false m e) (JSNumber.of_Z k) = S754_finite false md ed
             /\ digits2_pos md = 53%positive /\ (-1022 <= ed <= 970)%Z
             /\ Rabs (IZR (Zpos md) * pow2 ed - F) <= 9 / 1000).
  { destruct (Z.eq_dec k 0) as [->|Hk0'].
    - exists m, e. split; [reflexivity|]. split; [exact Hd|]. split; [lia|].
      rewrite <- EX. change (IZR 0) with 0 in *. apply Rabs_le. lra.
    - destruct (of_Z_exact k
                  ltac:(change (2 ^ 53)%Z with 9007199254740992%Z;
                        change (2 ^ 45)%Z with 35184372088832%Z in Hk; lia))
        as (mk & ek & Ekk & Hdk & Hek & Hvk).
      rewrite Ekk.
      destruct (Hsub mk ek Hdk ltac:(lia) ltac:(lia))
        as [[E _]|(s & md & ed & E & Hmd & Hed & Hs & Herr)];
        rewrite Hvk in *; [lra|].
      destruct s; [lra|].
      exists md, ed. split; [exact E|]. split; [exact Hmd|].
      assert (Hed' : (-1022 <= ed <= 970)%Z).
      { pose proof (normal_value_bounds md ed Hmd) as [Hb1 Hb2].
        rewrite (Rabs_right (X - IZR k)) in Herr by lra.
        apply Rabs_le_between in Herr. unfold unit_roundoff in Herr.
        split.
        - assert (pow2 (-3) < pow2 (ed + 53)).
          { change (-3)%Z with (Z.opp 3). rewrite pow2_opp, pow2_IZR by lia.
            change (IZR (2 ^ 3)) with 8. lra. }
          apply pow2_lt_inv in H. lia.
        - assert (pow2 (ed + 52) < pow2 0) by (rewrite pow2_0; lra).
          apply pow2_lt_inv in H. lia. }
      split; [exact Hed'|].
      rewrite (Rabs_right (X - IZR k)) in Herr by lra.
      apply Rabs_le_between in Herr. unfold unit_roundoff in Herr.
      apply Rabs_le. lra. }
  destruct Hdec as (md & ed & Edec & Hmd & Hed & HD).
  apply Rabs_le_between in HD.
  (* the whole part *)
  assert (Hwhole : whole_prefix (S754_finite false m e) = whole_text k).
  { unfold whole_prefix, whole_text. rewrite Efl.
    destruct (Z.eq_dec k 0) as [->|Hk0']; [reflexivity|].
    rewrite (proj2 (Z.eqb_neq k 0) Hk0').
    rewrite toString_of_Z
      by (change (2 ^ 53)%Z with 9007199254740992%Z;
          change (2 ^ 45)%Z with 35184372088832%Z in Hk; lia).
    destruct (of_Z_exact k
                ltac:(change (2 ^ 53)%Z with 9007199254740992%Z;
                      change (2 ^ 45)%Z with 35184372088832%Z in Hk; lia))
      as (mk & ek & Ekk & _).
    rewrite Ekk. reflexivity. }
  destruct lit_values as (E1 & E5 & E25 & E33 & E50 & E66 & E75).
  unfold formatNumber. rewrite Hwhole, Efl, Edec, E1.
  (* not below 0.01 *)
  destruct (ltb_normal md 5764607523034235 ed (-59) Hmd eq_refl) as [Hlt _].
  destruct (ltb (S754_finite false md ed) (S754_finite false 5764607523034235 (-59))).
  { exfalso. specialize (Hlt eq_refl). rewrite pow2_m59 in Hlt. lra. }
  clear Hlt.
  pose proof (near_decided md 4503599627370496 ed (-54) Hmd eq_refl Hed ltac:(lia))
    as [T25 N25].
  pose proof (near_decided md 5944751508129055 ed (-54) Hmd eq_refl Hed ltac:(lia))
    as [T33 N33].
  pose proof (near_decided md 4503599627370496 ed (-53) Hmd eq_refl Hed ltac:(lia))
    as [T50 N50].
  pose proof (near_decided md 5944751508129055 ed (-53) Hmd eq_refl Hed ltac:(lia))
    as [T66 N66].
  pose proof (near_decided md 6755399441055744 ed (-53) Hmd eq_refl Hed ltac:(lia))
    as [T75 N75].
  unfold near in T25, N25, T33, N33, T50, N50, T66, N66, T75, N75.
  rewrite pow2_m54 in T25, N25, T33, N33.
  rewrite pow2_m53 in T50, N50, T66, N66, T75, N75.
  rewrite E25, E33, E50, E66, E75.
  subst F. cbn [In fraction_glyphs] in Hin.
  destruct Hin as [Hin|[Hin|[Hin|[Hin|[Hin|[]]]]]];
    injection Hin as <- <- <-.
  - rewrite T25 by (apply Rabs_le; lra). reflexivity.
  - rewrite N25 by (apply Rabs_far; lra).
    rewrite T33 by (apply Rabs_le; lra). reflexivity.
  - rewrite N25 by (apply Rabs_far; lra).
    rewrite N33 by (apply Rabs_far; lra).
    rewrite T50 by (apply Rabs_le; lra). reflexivity.
  - rewrite N25 by (apply Rabs_far; lra).
    rewrite N33 by (apply Rabs_far; lra).
    rewrite N50 by (apply Rabs_far; lra).
    rewrite T66 by (apply Rabs_le; lra). reflexivity.
  - rewrite N25 by (apply Rabs_far; lra).
    rewrite N33 by (apply Rabs_far; lra).
    rewrite N50 by (apply Rabs_far; lra).
    rewrite N66 by (apply Rabs_far; lra).
    rewrite T75 by (apply Rabs_le; lra). reflexivity.
Qed.

Close Scope R_scope.

(** X24. A whole quantity that scales to a whole number and a quarter, a
    third, a half, two thirds or three quarters is shown with the glyph:
    when [q * t / s = k + num / den] for one of these fractions (and
    [k < 2^45]), the scaler returns [k], a space and the glyph, or the glyph
    alone when [k] is 0. Three eggs for 4, scaled to 2, are ["1 ½"]. *)
Theorem scaling_to_a_fraction (q s t k num den : Z) (g : string)
  (Hq : (1 <= q < 2 ^ 53)%Z) (Hs : (1 <= s < 2 ^ 53)%Z)
  (Ht : (1 <= t < 2 ^ 53)%Z) (Hk : (0 <= k < 2 ^ 45)%Z)
  (Hin : In (num, den, g) fraction_glyphs)
  (Hval : (den * (q * t) = (den * k + num) * s)%Z) :
  scale (JSString.of_Z q) s t = whole_text k ++ g.
Proof.
  assert (Hfrac : (0 < num < den)%Z /\ (2 <= den <= 4)%Z).
  { cbn [In fraction_glyphs] in Hin.
    repeat (destruct Hin as [Hin|Hin];
            [injection Hin as <- <- _; lia|]). destruct Hin. }
  destruct (of_Z_digits q ltac:(lia)) as [Hall Htr].
  unfold scale, getScaledQuantity. rewrite Htr. cbn [negb].
  destruct (strict_eq (JSNumber.of_Z s) (JSNumber.of_Z t)) eqn:Eeq.
  - exfalso.
    destruct (of_Z_exact s Hs) as (ms & es & Es & Hds & Hes & Hvs).
    destruct (of_Z_exact t Ht) as (mt & et & Et & Hdt & Het & Hvt).
    rewrite Es, Et in Eeq. apply strict_eq_finite in Eeq.
    destruct Eeq as [-> ->].
    assert (s = t) by (apply eq_IZR; rewrite <- Hvs, <- Hvt; reflexivity).
    subst t.
    assert (den * q = den * k + num)%Z by nia.
    assert (num = den * (q - k))%Z by lia.
    assert (0 < q - k)%Z by nia. nia.
  - unfold scale_try.
    rewrite (all_digits_includes _ "-"%char Hall eq_refl).
    rewrite (all_digits_includes _ "/"%char Hall eq_refl).
    rewrite parseFloat_of_Z by lia. rewrite of_Z_not_nan. cbn [negb].
    destruct (scaled_product_close q s t Hq Hs Ht)
      as (mp & ep & Ep & Hdp & Hep & Herr).
    rewrite Ep.
    rewrite (formatNumber_near_fraction mp ep k num den g Hdp Hep Hk Hin);
      [reflexivity|].
    assert (HsR : (0 < IZR s)%R) by (apply IZR_lt; lia).
    assert (HdR : (0 < IZR den)%R) by (apply IZR_lt; lia).
    assert (Hv : (IZR q * IZR t / IZR s = IZR k + IZR num / IZR den)%R).
    { apply (f_equal IZR) in Hval.
      rewrite !mult_IZR, plus_IZR, mult_IZR in Hval.
      field_simplify_eq; lra. }
    rewrite Hv in Herr.
    assert (Hk2 : (IZR k <= 35184372088831)%R).
    { apply IZR_le. change (2 ^ 45)%Z with 35184372088832%Z in Hk. lia. }
    assert (Hk0 : (0 <= IZR k)%R) by (apply IZR_le; lia).
    assert (HF : (0 < IZR num / IZR den < 1)%R).
    { clear -Hin. cbn [In fraction_glyphs] in Hin.
      repeat (destruct Hin as [Hin|Hin];
              [injection Hin as <- <- _; lra|]). destruct Hin. }
    apply Rabs_le_between in Herr. apply Rabs_le.
    remember (IZR num / IZR den)%R as F. remember (IZR k) as K.
    split; nra.
Qed.

(** An instance of X24: three eggs for 4, scaled to 2. *)
Lemma scaling_to_a_fraction_witness : scale "3" 4 2 = "1 ½".
Proof.
  exact (scaling_to_a_fraction 3 4 2 1 1 2 "½" ltac:(lia) ltac:(lia) ltac:(lia)
           ltac:(cbn; lia) (or_intror (or_intror (or_introl eq_refl))) eq_refl).
Defined.

(* ================================================================== *)
(** ** The scaler on a number followed by text *)
(* ================================================================== *)

Lemma span_digits_app (d : string) (c : ascii) (r : string) :
  all_digits d = true -> is_digit c = false ->
  span_digits (d ++ String c r) = (d, String c r).
Proof.
  intros Hd Hc. induction d as [|x d IH].
  - cbn. rewrite Hc. reflexivity.
  - cbn in Hd. apply andb_true_iff in Hd. destruct Hd as [Hx Hd].
    change (String x d ++ String c r) with (String x (d ++ String c r)).
    cbn [span_digits]. rewrite Hx, (IH Hd). reflexivity.
Qed.

(** [parseFloat] reads the whole number at the front and ignores the text
    after it. *)
Lemma parseFloat_whole_prefix (q : Z) (c : ascii) (r : string) :
  (0 <= q)%Z -> ends_number c = true ->
  parseFloat (JSString.of_Z q ++ String c r) = JSNumber.of_Z q.
Proof.
  intros Hq Hc. unfold ends_number in Hc.
  apply andb_true_iff in Hc. destruct Hc as [Hnd Hc].
  apply negb_true_iff in Hnd. apply negb_true_iff in Hc.
  apply orb_false_iff in Hc. destruct Hc as [Hc H69].
  apply orb_false_iff in Hc. destruct Hc as [H46 H101].
  destruct (of_Z_digits q Hq) as [Hall Hne].
  rewrite <- (parseFloat_of_Z q Hq).
  destruct (JSString.of_Z q) as [|x d] eqn:Es; [discriminate|].
  pose proof Hall as Hall'. cbn in Hall'. apply andb_true_iff in Hall'.
  destruct Hall' as [Hx _].
  change (String x d ++ String c r) with (String x (d ++ String c r)).
  unfold parseFloat, trimStart. rewrite !strip_digit_first by exact Hx.
  assert (H45 : (code x =? 45)%N = false).
  { unfold is_digit in Hx. apply andb_true_iff in Hx. destruct Hx as [H1 _].
    apply N.leb_le in H1. apply N.eqb_neq. lia. }
  assert (H43 : (code x =? 43)%N = false).
  { unfold is_digit in Hx. apply andb_true_iff in Hx. destruct Hx as [H1 _].
    apply N.leb_le in H1. apply N.eqb_neq. lia. }
  rewrite H45, H43.
  assert (HI : forall rest, prefix_rest "Infinity" (String x rest) = None).
  { intros rest.
    change (prefix_rest "Infinity" (String x rest))
      with (if Ascii.eqb "I"%char x then prefix_rest "nfinity" rest else None).
    destruct (Ascii.eqb_spec "I"%char x) as [<-|_]; [discriminate|reflexivity]. }
  rewrite !HI.
  change (String x (d ++ String c r)) with (String x d ++ String c r).
  rewrite (span_digits_app (String x d) c r Hall Hnd).
  rewrite (span_digits_all _ Hall).
  rewrite H46.
  cbn [exponent_part]. rewrite H101, H69. cbn [orb]. reflexivity.
Qed.

(** X25. A whole number followed by text that holds no dash and no slash
    (["2 cups"], ["3 large"]) is read by its number alone. At the recipe's
    own serving count the quantity is shown as it is, text included; at any
    other count for which [q * t / s] is a whole number (up to 2^45) the
    scaler returns that number only: the text is dropped. *)
Theorem scaling_drops_trailing_text (q s t : Z) (c : ascii) (r : string)
  (Hq : (0 <= q < 2 ^ 53)%Z) (Hs : (1 <= s < 2 ^ 53)%Z)
  (Ht : (1 <= t < 2 ^ 53)%Z)
  (Hc : ends_number c = true)
  (Hdash : includes (String c r) "-" = false)
  (Hslash : includes (String c r) "/" = false)
  (Hdiv : (s | q * t)%Z) (Hn : (q * t / s <= 2 ^ 45)%Z) :
  scale (JSString.of_Z q ++ String c r) s s = JSString.of_Z q ++ String c r
  /\ (s <> t ->
      scale (JSString.of_Z q ++ String c r) s t = JSString.of_Z (q * t / s)).
Proof.
  destruct (of_Z_digits q ltac:(lia)) as [Hall Htr].
  assert (Htr' : truthy (JSString.of_Z q ++ String c r) = true).
  { rewrite append_empty_iff, Htr. reflexivity. }
  split.
  - unfold scale. apply getScaledQuantity_same. apply of_Z_not_nan.
  - intros Hst. unfold scale, getScaledQuantity. rewrite Htr'. cbn [negb].
    destruct (strict_eq (JSNumber.of_Z s) (JSNumber.of_Z t)) eqn:Eeq.
    + exfalso. apply Hst.
      destruct (of_Z_exact s Hs) as (ms & es & Es & Hds & Hes & Hvs).
      destruct (of_Z_exact t Ht) as (mt & et & Et & Hdt & Het & Hvt).
      rewrite Es, Et in Eeq. apply strict_eq_finite in Eeq.
      destruct Eeq as [-> ->].
      apply eq_IZR. rewrite <- Hvs, <- Hvt. reflexivity.
    + unfold scale_try.
      rewrite !includes_char_app.
      rewrite (all_digits_includes _ "-"%char Hall eq_refl), Hdash.
      rewrite (all_digits_includes _ "/"%char Hall eq_refl), Hslash.
      cbn [orb].
      rewrite parseFloat_whole_prefix by (try lia; exact Hc).
      rewrite of_Z_not_nan. cbn [negb].
      rewrite formatNumber_scaled by assumption. reflexivity.
Qed.

(** An instance of X25: two cups for 2, scaled to 4. *)
Lemma scaling_drops_trailing_text_witness :
  scale "2 cups" 2 2 = "2 cups" /\ scale "2 cups" 2 4 = "4".
Proof.
  destruct (scaling_drops_trailing_text 2 2 4 " " "cups"
              ltac:(lia) ltac:(lia) ltac:(lia) eq_refl eq_refl eq_refl
              (ex_intro _ 4%Z eq_refl) ltac:(cbn; lia)) as [H1 H2].
  split; [exact H1|]. apply H2. lia.
Defined.

(* ================================================================== *)
(** ** The scaler on decimal quantities *)
(* ================================================================== *)

Local Open Scope R_scope.

(** The correctly rounded quotient of two positive integers. *)
Lemma round_div_normal (a b : positive) :
  let da := Zpos (digits2_pos a) in
  let db := Zpos (digits2_pos b) in
  (da <= 53)%Z -> (db <= 60)%Z ->
  exists m e,
    round_div false a b = S754_finite false m e
    /\ digits2_pos m = 53%positive
    /\ (da - db - 53 <= e <= da - db - 51)%Z
    /\ Rabs (IZR (Zpos m) * pow2 e - IZR (Zpos a) / IZR (Zpos b))
       <= unit_roundoff * (IZR (Zpos a) / IZR (Zpos b)).
Proof.
  intros da db Hda Hdb.
  pose proof (digits2_bounds a) as [Hal Hah]. fold da in Hal, Hah.
  pose proof (digits2_bounds b) as [Hbl Hbh]. fold db in Hbl, Hbh.
  assert (Hda1 : (1 <= da)%Z) by (subst da; lia).
  assert (Hdb1 : (1 <= db)%Z) by (subst db; lia).
  unfold round_div, SFdiv_core_binary. cbn [Zdigits2]. fold da. fold db.
  replace (da + 0 - (db + 0))%Z with (da - db)%Z by lia.
  rewrite fexp_normal by lia.
  replace (Z.min (da - db - 53) (0 - 0)) with (da - db - 53)%Z by lia.
  set (sh := (53 - da + db)%Z).
  replace (0 - 0 - (da - db - 53))%Z with sh by (subst sh; lia).
  assert (Hsh : (0 < sh)%Z) by (subst sh; lia).
  assert (Em : match sh with
               | Z0 => Zpos a
               | Zpos _ => Z.shiftl (Zpos a) sh
               | Zneg _ => 0%Z
               end = (Zpos a * 2 ^ sh)%Z).
  { destruct sh; try lia. rewrite Z.shiftl_mul_pow2 by lia. reflexivity. }
  rewrite Em. clear Em.
  assert (Hpow : (2 ^ sh * 2 ^ (da - 1) = 2 ^ 53 * 2 ^ (db - 1))%Z).
  { rewrite <- !Z.pow_add_r by lia. f_equal. subst sh. lia. }
  assert (Hah' : (Zpos a < 2 * 2 ^ (da - 1))%Z).
  { replace (2 * 2 ^ (da - 1))%Z with (2 ^ da)%Z; [exact Hah|].
    replace da with (1 + (da - 1))%Z at 1 by lia.
    rewrite Z.pow_add_r by lia. reflexivity. }
  assert (Hbh' : (Zpos b < 2 * 2 ^ (db - 1))%Z).
  { replace (2 * 2 ^ (db - 1))%Z with (2 ^ db)%Z; [exact Hbh|].
    replace db with (1 + (db - 1))%Z at 1 by lia.
    rewrite Z.pow_add_r by lia. reflexivity. }
  assert (Hp1 : (0 < 2 ^ (da - 1))%Z) by (apply Z.pow_pos_nonneg; lia).
  assert (Hp2 : (0 < 2 ^ (db - 1))%Z) by (apply Z.pow_pos_nonneg; lia).
  assert (Hp3 : (0 < 2 ^ sh)%Z) by (apply Z.pow_pos_nonneg; lia).
  pose proof (Z.div_eucl_eq (Zpos a * 2 ^ sh) (Zpos b) ltac:(lia)) as Hq.
  pose proof (Z.mod_pos_bound (Zpos a * 2 ^ sh) (Zpos b) ltac:(lia)) as Hr.
  unfold Z.modulo in Hr.
  destruct (Z.div_eucl (Zpos a * 2 ^ sh) (Zpos b)) as [q r].
  assert (Hqb : (2 ^ 52 <= q < 2 ^ 54)%Z).
  { change (2 ^ 54)%Z with (2 * 2 ^ 53)%Z. change (2 ^ 53)%Z with (2 * 2 ^ 52)%Z in *.
    remember (2 ^ (da - 1))%Z as P1. remember (2 ^ (db - 1))%Z as P2.
    remember (2 ^ sh)%Z as S. remember (2 ^ 52)%Z as K.
    assert (HK : (0 < K)%Z) by (subst K; lia).
    assert (H1 : (S * P1 <= Zpos a * S)%Z) by nia.
    assert (H2 : (Zpos a * S < 2 * (S * P1))%Z) by nia.
    split.
    - destruct (Z_lt_le_dec q K) as [Hlt|]; [|assumption]. exfalso.
      assert (Zpos b * q <= Zpos b * (K - 1))%Z by nia. nia.
    - destruct (Z_lt_le_dec q (2 * (2 * K))) as [|Hge]; [assumption|]. exfalso.
      assert (Zpos b * (2 * (2 * K)) <= Zpos b * q)%Z by nia. nia. }
  destruct q as [|q|q]; try lia.
  pose proof (digits2_bounds q) as [Hl Hh].
  set (d := Zpos (digits2_pos q)) in *.
  assert (Hd : (53 <= d <= 54)%Z).
  { split.
    - destruct (Z_lt_le_dec d 53) as [H|H]; [|lia].
      assert (2 ^ d <= 2 ^ 52)%Z by (apply Z.pow_le_mono_r; lia). lia.
    - destruct (Z_lt_le_dec 54 d) as [H|H]; [|lia].
      assert (2 ^ 54 <= 2 ^ (d - 1))%Z by (apply Z.pow_le_mono_r; lia). lia. }
  destruct (binary_round_aux_normal false q (da - db - 53)
              (new_location (Zpos b) r) (IZR (Zpos q) + IZR r / IZR (Zpos b)))
    as (m & e & E & Hdm & He & Herr); try (fold d; lia).
  { apply new_location_located. lia. }
  fold d in He, Herr.
  exists m, e. split; [exact E|]. split; [exact Hdm|]. split; [lia|].
  assert (HY : 0 < IZR (Zpos b)) by (apply IZR_lt; lia).
  assert (EXY : (IZR (Zpos q) + IZR r / IZR (Zpos b)) * pow2 (da - db - 53)
                = IZR (Zpos a) / IZR (Zpos b)).
  { replace (IZR (Zpos q) + IZR r / IZR (Zpos b))
      with (IZR (Zpos a) * pow2 sh / IZR (Zpos b)).
    - replace (da - db - 53)%Z with (- sh)%Z by (subst sh; lia).
      rewrite pow2_opp. pose proof (pow2_pos sh). field. lra.
    - rewrite pow2_IZR by lia. rewrite <- mult_IZR, Hq, plus_IZR, mult_IZR.
      field. lra. }
  rewrite EXY in Herr. eapply Rle_trans; [exact Herr|].
  rewrite <- EXY.
  apply (half_ulp_relative (Zpos q) d); [exact Hl|lia|].
  assert (0 <= IZR r / IZR (Zpos b)); [|lra].
  apply Rmult_le_pos; [apply IZR_le; lia|]. left. apply Rinv_0_lt_compat. exact HY.
Qed.

Close Scope R_scope.

Lemma digits_value_from_pow (b : string) :
  forall acc,
    digits_value_from acc b
    = (acc * 10 ^ N.of_nat (String.length b) + digits_value b)%N.
Proof.
  unfold digits_value.
  induction b as [|c b IH]; intros acc.
  - cbn. lia.
  - cbn [digits_value_from String.length]. rewrite IH, (IH (10 * 0 + digit_val c)%N).
    rewrite Nat2N.inj_succ, N.pow_succ_r'. lia.
Qed.

Lemma decimal_digits_value (i : Z) (f : string) :
  (0 <= i)%Z ->
  Z.of_N (digits_value (JSString.of_Z i ++ f)) = decimal_digits i f.
Proof.
  intros Hi. unfold decimal_digits, digits_value.
  rewrite digits_value_from_app, digits_value_from_pow.
  fold (digits_value (JSString.of_Z i)).
  assert (E : digits_value (JSString.of_Z i) = Z.to_N i).
  { rewrite <- of_N_of_Z by exact Hi. apply digits_value_of_N. }
  rewrite E, N2Z.inj_add, N2Z.inj_mul, N2Z.inj_pow, Z2N.id by exact Hi.
  rewrite nat_N_Z. reflexivity.
Qed.

(** [parseFloat] on a decimal: the number nearest to its value. *)
Lemma parseFloat_decimal (i : Z) (f : string) :
  (0 <= i)%Z -> all_digits f = true ->
  parseFloat (decimal_text i f)
  = of_decimal false (digits_value (JSString.of_Z i ++ f))
      (- Z.of_nat (String.length f)).
Proof.
  intros Hi Hf. unfold decimal_text.
  destruct (of_Z_digits i Hi) as [Hall Hne].
  assert (Hparse : forall x d, all_digits (String x d) = true ->
            parseFloat (String x d ++ "." ++ f)
            = of_decimal false (digits_value (String x d ++ f))
                (- Z.of_nat (String.length f))).
  { intros x d Hxd.
    pose proof Hxd as Hx. cbn in Hx. apply andb_true_iff in Hx.
    destruct Hx as [Hx _].
    change (String x d ++ "." ++ f) with (String x (d ++ "." ++ f)).
    unfold parseFloat, trimStart. rewrite strip_digit_first by exact Hx.
    assert (H45 : (code x =? 45)%N = false).
    { unfold is_digit in Hx. apply andb_true_iff in Hx. destruct Hx as [H1 _].
      apply N.leb_le in H1. apply N.eqb_neq. lia. }
    assert (H43 : (code x =? 43)%N = false).
    { unfold is_digit in Hx. apply andb_true_iff in Hx. destruct Hx as [H1 _].
      apply N.leb_le in H1. apply N.eqb_neq. lia. }
    rewrite H45, H43.
    assert (HI : prefix_rest "Infinity" (String x (d ++ "." ++ f)) = None).
    { change (prefix_rest "Infinity" (String x (d ++ "." ++ f)))
        with (if Ascii.eqb "I"%char x
              then prefix_rest "nfinity" (d ++ "." ++ f) else None).
      destruct (Ascii.eqb_spec "I"%char x) as [<-|_]; [discriminate|reflexivity]. }
    rewrite HI.
    change (String x (d ++ "." ++ f)) with (String x d ++ String "." f).
    rewrite (span_digits_app (String x d) "." f Hxd eq_refl).
    change (code "." =? 46)%N with true. cbn iota.
    rewrite (span_digits_all f Hf).
    change (String x d ++ f) with (String x (d ++ f)). cbn iota.
    cbn [exponent_part]. reflexivity. }
  destruct (JSString.of_Z i) as [|x d]; [discriminate|].
  apply Hparse. exact Hall.
Qed.

Local Open Scope R_scope.

(** The number a decimal quantity is read as, and how close it is to the
    decimal's value. *)
Lemma parseFloat_decimal_close (i : Z) (f : string) :
  (0 <= i)%Z -> all_digits f = true ->
  (1 <= String.length f <= 15)%nat ->
  (1 <= decimal_digits i f < 2 ^ 53)%Z ->
  let A := IZR (decimal_digits i f) / IZR (10 ^ Z.of_nat (String.length f)) in
  exists m e,
    parseFloat (decimal_text i f) = S754_finite false m e
    /\ digits2_pos m = 53%positive /\ (-113 <= e <= 0)%Z
    /\ Rabs (IZR (Zpos m) * pow2 e - A) <= unit_roundoff * A.
Proof.
  intros Hi Hf Hlen HN A.
  rewrite parseFloat_decimal by assumption.
  pose proof (decimal_digits_value i f Hi) as EN.
  destruct (digits_value (JSString.of_Z i ++ f)) as [|a] eqn:Ea;
    [cbn in EN; lia|].
  cbn [Z.of_N] in EN.
  destruct (String.length f) as [|k] eqn:Ek; [lia|].
  unfold of_decimal.
  change (- Z.of_nat (S k))%Z with (Zneg (Pos.of_succ_nat k)).
  set (b := Pos.pow 10 (Pos.of_succ_nat k)).
  assert (Eb : Zpos b = (10 ^ Z.of_nat (S k))%Z).
  { subst b. rewrite Pos2Z.inj_pow. reflexivity. }
  assert (Hb : (10 <= Zpos b <= 10 ^ 15)%Z).
  { rewrite Eb. split.
    - change 10%Z with (10 ^ 1)%Z at 1. apply Z.pow_le_mono_r; lia.
    - apply Z.pow_le_mono_r; lia. }
  pose proof (digits2_bounds a) as [Hal Hah].
  pose proof (digits2_bounds b) as [Hbl Hbh].
  assert (Hda : (Zpos (digits2_pos a) <= 53)%Z).
  { destruct (Z_lt_le_dec 53 (Zpos (digits2_pos a))) as [H|H]; [|lia].
    assert (2 ^ 53 <= 2 ^ (Zpos (digits2_pos a) - 1))%Z
      by (apply Z.pow_le_mono_r; lia). lia. }
  assert (Hdb : (4 <= Zpos (digits2_pos b) <= 60)%Z).
  { split.
    - destruct (Z_lt_le_dec (Zpos (digits2_pos b)) 4) as [H|H]; [|lia].
      assert (2 ^ Zpos (digits2_pos b) <= 2 ^ 3)%Z
        by (apply Z.pow_le_mono_r; lia).
      change (2 ^ 3)%Z with 8%Z in *. lia.
    - destruct (Z_lt_le_dec 60 (Zpos (digits2_pos b))) as [H|H]; [|lia].
      assert (2 ^ 60 <= 2 ^ (Zpos (digits2_pos b) - 1))%Z
        by (apply Z.pow_le_mono_r; lia).
      change (10 ^ 15)%Z with 1000000000000000%Z in *.
      change (2 ^ 60)%Z with 1152921504606846976%Z in *. lia. }
  destruct (round_div_normal a b Hda ltac:(lia)) as (m & e & E & Hdm & He & Herr).
  exists m, e. split; [exact E|]. split; [exact Hdm|].
  split; [lia|].
  subst A. rewrite <- EN, <- Eb. exact Herr.
Qed.

(** The rounded product of a decimal quantity as read and the rounded
    ratio of two serving counts: close to the exact product. *)
Lemma scaled_decimal_close (i : Z) (f : string) (s t : Z) :
  (0 <= i)%Z -> all_digits f = true ->
  (1 <= String.length f <= 15)%nat ->
  (1 <= decimal_digits i f < 2 ^ 53)%Z ->
  (1 <= s < 2 ^ 53)%Z -> (1 <= t < 2 ^ 53)%Z ->
  let v := IZR (decimal_digits i f) / IZR (10 ^ Z.of_nat (String.length f))
           * (IZR t / IZR s) in
  exists mp ep,
    mul (parseFloat (decimal_text i f))
      (div (JSNumber.of_Z t) (JSNumber.of_Z s))
    = S754_finite false mp ep
    /\ digits2_pos mp = 53%positive /\ (-1074 <= ep)%Z
    /\ Rabs (IZR (Zpos mp) * pow2 ep - v) <= 4 * unit_roundoff * v.
Proof.
  intros Hi Hf Hlen HN Hs Ht v.
  destruct (parseFloat_decimal_close i f Hi Hf Hlen HN)
    as (mq & eq & Eq & Hdq & Heq & Herr_q).
  cbn zeta in Herr_q.
  destruct (of_Z_exact s Hs) as (ms & es & Es & Hds & Hes & Hvs).
  destruct (of_Z_exact t Ht) as (mt & et & Et & Hdt & Het & Hvt).
  rewrite Eq, Es, Et.
  destruct (div_normal mt ms et es Hdt Hds ltac:(lia))
    as (mr & er & Er & Hdr & Her & Herr_r).
  rewrite Hvs, Hvt in Herr_r. rewrite Er.
  destruct (mul_normal mq mr eq er Hdq Hdr ltac:(lia))
    as (mp & ep & Ep & Hdp & Hep & Herr_p).
  exists mp, ep. split; [exact Ep|]. split; [exact Hdp|]. split; [lia|].
  assert (HsR : 0 < IZR s) by (apply IZR_lt; lia).
  assert (HtR : 0 < IZR t) by (apply IZR_lt; lia).
  assert (HNR : 0 < IZR (decimal_digits i f)) by (apply IZR_lt; lia).
  assert (HbR : 0 < IZR (10 ^ Z.of_nat (String.length f))).
  { apply IZR_lt. apply Z.pow_pos_nonneg; lia. }
  assert (HA : 0 < IZR (decimal_digits i f)
                   / IZR (10 ^ Z.of_nat (String.length f)))
    by (apply Rdiv_lt_0_compat; lra).
  assert (HT : 0 < IZR t / IZR s) by (apply Rdiv_lt_0_compat; lra).
  apply Rabs_le_between in Herr_q, Herr_r, Herr_p.
  apply Rabs_le. subst v.
  apply (three_roundings _ _ (IZR (Zpos mq) * pow2 eq) (IZR (Zpos mr) * pow2 er)
           _ unit_roundoff HA HT ltac:(unfold unit_roundoff; lra)
           Herr_q Herr_r Herr_p).
Qed.

Close Scope R_scope.

(** X26. A decimal quantity such as ["0.5"] or ["1.25"] (up to 15
    fraction digits) is scaled by its value [N / 10^k], where [N] is the
    number its digits write and [k] the number of fraction digits. When
    [N * t / (10^k * s)] is a whole number from 1 to 2^44, the scaler
    returns it; when it is a whole number (below 2^44) and a quarter, a
    third, a half, two thirds or three quarters, the scaler returns the
    whole part and the glyph. ["1.5"] for 2, scaled to 4, is ["3"]; scaled
    to 1 it is ["¾"]. *)
Theorem decimal_scaling (i : Z) (f : string) (s t : Z)
  (Hi : (0 <= i)%Z) (Hf : all_digits f = true)
  (Hlen : (1 <= String.length f <= 15)%nat)
  (HN : (1 <= decimal_digits i f < 2 ^ 53)%Z)
  (Hs : (1 <= s < 2 ^ 53)%Z) (Ht : (1 <= t < 2 ^ 53)%Z) (Hst : s <> t) :
  let N := decimal_digits i f in
  let b := (10 ^ Z.of_nat (String.length f))%Z in
  (forall n, (1 <= n <= 2 ^ 44)%Z -> (N * t = n * (b * s))%Z ->
     scale (decimal_text i f) s t = JSString.of_Z n)
  /\ (forall k num den g, (0 <= k < 2 ^ 44)%Z ->
      In (num, den, g) fraction_glyphs ->
      (den * (N * t) = (den * k + num) * (b * s))%Z ->
      scale (decimal_text i f) s t = whole_text k ++ g).
Proof.
  cbn zeta.
  destruct (of_Z_digits i Hi) as [Hall Htr].
  assert (Htr' : truthy (decimal_text i f) = true).
  { unfold decimal_text. rewrite append_empty_iff, Htr. reflexivity. }
  assert (Hnosep : forall c, is_digit c = false -> Ascii.eqb c "." = false ->
            includes (decimal_text i f) (String c EmptyString) = false).
  { intros c Hc Hp. unfold decimal_text.
    change ("." ++ f) with (String "." f).
    rewrite includes_char_app, includes_char_cons.
    rewrite (all_digits_includes _ c Hall Hc), (all_digits_includes _ c Hf Hc), Hp.
    reflexivity. }
  assert (Hbranch : forall r,
            (exists mp ep, mul (parseFloat (decimal_text i f))
                             (div (JSNumber.of_Z t) (JSNumber.of_Z s))
                           = S754_finite false mp ep
                           /\ formatNumber (S754_finite false mp ep) = Normal r) ->
            scale (decimal_text i f) s t = r).
  { intros r (mp & ep & Ep & Hfmt).
    unfold scale, getScaledQuantity. rewrite Htr'. cbn [negb].
    destruct (strict_eq (JSNumber.of_Z s) (JSNumber.of_Z t)) eqn:Eeq.
    - exfalso. apply Hst.
      destruct (of_Z_exact s Hs) as (ms & es & Es & Hds & Hes & Hvs).
      destruct (of_Z_exact t Ht) as (mt & et & Et & Hdt & Het & Hvt).
      rewrite Es, Et in Eeq. apply strict_eq_finite in Eeq.
      destruct Eeq as [-> ->].
      apply eq_IZR. rewrite <- Hvs, <- Hvt. reflexivity.
    - unfold scale_try.
      rewrite (Hnosep "-"%char eq_refl eq_refl).
      rewrite (Hnosep "/"%char eq_refl eq_refl).
      assert (Hnan : isNaN (parseFloat (decimal_text i f)) = false).
      { destruct (parseFloat (decimal_text i f)); try reflexivity. discriminate. }
      rewrite Hnan. cbn [negb]. rewrite Ep, Hfmt. reflexivity. }
  destruct (scaled_decimal_close i f s t Hi Hf Hlen HN Hs Ht)
    as (mp & ep & Ep & Hdp & Hep & Herr).
  cbn zeta in Herr.
  assert (HsR : (0 < IZR s)%R) by (apply IZR_lt; lia).
  assert (HbR : (0 < IZR (10 ^ Z.of_nat (String.length f)))%R).
  { apply IZR_lt. apply Z.pow_pos_nonneg; lia. }
  split.
  - intros n Hn Hval. apply Hbranch. exists mp, ep. split; [exact Ep|].
    apply (formatNumber_near_integer mp ep n Hdp Hep);
      [change (2 ^ 44)%Z with 17592186044416%Z in Hn;
       change (2 ^ 45)%Z with 35184372088832%Z; lia|].
    assert (Hv : (IZR (decimal_digits i f) / IZR (10 ^ Z.of_nat (String.length f))
                  * (IZR t / IZR s) = IZR n)%R).
    { apply (f_equal IZR) in Hval. rewrite !mult_IZR in Hval.
      field_simplify_eq; lra. }
    rewrite Hv in Herr. unfold unit_roundoff in Herr.
    assert (Hn1 : (1 <= IZR n <= 17592186044416)%R).
    { split; apply IZR_le; change (2 ^ 44)%Z with 17592186044416%Z in Hn; lia. }
    eapply Rle_trans; [exact Herr|]. lra.
  - intros k num den g Hk Hin Hval. apply Hbranch. exists mp, ep.
    split; [exact Ep|].
    apply (formatNumber_near_fraction mp ep k num den g Hdp Hep);
      [change (2 ^ 44)%Z with 17592186044416%Z in Hk;
       change (2 ^ 45)%Z with 35184372088832%Z; lia|exact Hin|].
    assert (Hfrac : (0 < IZR num / IZR den < 1)%R /\ (0 < IZR den)%R).
    { clear -Hin. cbn [In fraction_glyphs] in Hin.
      repeat (destruct Hin as [Hin|Hin];
              [injection Hin as <- <- _; lra|]). destruct Hin. }
    destruct Hfrac as [HF HdR].
    assert (Hv : (IZR (decimal_digits i f) / IZR (10 ^ Z.of_nat (String.length f))
                  * (IZR t / IZR s) = IZR k + IZR num / IZR den)%R).
    { apply (f_equal IZR) in Hval.
      rewrite !mult_IZR, plus_IZR, !mult_IZR in Hval.
      field_simplify_eq; lra. }
    rewrite Hv in Herr. unfold unit_roundoff in Herr.
    assert (Hk1 : (0 <= IZR k <= 17592186044415)%R).
    { split; apply IZR_le; change (2 ^ 44)%Z with 17592186044416%Z in Hk; lia. }
    eapply Rle_trans; [exact Herr|]. lra.
Qed.

(** An instance of X26: one and a half for 2, scaled to 4 and to 1. *)
Lemma decimal_scaling_witness :
  scale "1.5" 2 4 = "3" /\ scale "1.5" 2 1 = "¾".
Proof.
  assert (Hlen : (1 <= String.length "5" <= 15)%nat) by (cbn; lia).
  assert (HN : (1 <= decimal_digits 1 "5" < 2 ^ 53)%Z)
    by (change (decimal_digits 1 "5") with 15%Z; lia).
  split.
  - apply (proj1 (decimal_scaling 1 "5" 2 4 ltac:(lia) eq_refl Hlen HN
                    ltac:(lia) ltac:(lia) ltac:(lia)) 3%Z).
    + lia.
    + reflexivity.
  - apply (proj2 (decimal_scaling 1 "5" 2 1 ltac:(lia) eq_refl Hlen HN
                    ltac:(lia) ltac:(lia) ltac:(lia)) 0%Z 3%Z 4%Z "¾").
    + lia.
    + cbn. tauto.
    + reflexivity.
Defined.
